(** * AI traffic management system: congestion estimator, signal controller,
      broadcast hub.

    A shallow embedding of the Python sources

      - [yolo_web_streamer.py]    ([YoloWebStreamer]),
      - [yolo_traffic_detector.py] ([TrafficDetector]),
      - [yolo_video_display.py]   ([YoloVideoDisplay]),
      - [working_yolo.py]         ([WorkingYoloDetector]),
      - [simple_yolo.py]          ([WorkingTrafficDetector]),

    and the properties of the specification checked against them.

    Modelling conventions.
      - Python [int] is [Z]; a Python list of counts is [list Z].
      - Wall-clock readings ([time.time()]) and durations are exact rationals
        [Q]; the clock is an input of every operation that reads it.  The
        averaged count [sum(h) / len(h)] is the exact quotient in [Q].
      - A Python exception is an explicit error result.
      - The set of WebSocket clients is a [gset] of client identifiers; the
        behaviour of [client.send] is an input of the broadcast, and so is
        what the connection handlers do to the set while a send is awaited,
        where a loop runs over the set itself. *)

From Stdlib Require Import ZArith QArith Qabs Lqa List Sorted Lia.
From stdpp Require Import base option list strings gmap.

Local Open Scope Z_scope.

(** ** Shared vocabulary *)

(** The three string labels of [current_signal]. *)
Inductive Signal : Type := green | yellow | red.

(** The three string labels of [congestion_level]. *)
Inductive Congestion : Type := low | medium | high.

#[global] Instance Signal_eq_dec : EqDecision Signal.
Proof. solve_decision. Defined.

#[global] Instance Congestion_eq_dec : EqDecision Congestion.
Proof. solve_decision. Defined.

(** The successor along the cycle green -> yellow -> red -> green. *)
Definition next_signal (s : Signal) : Signal :=
  match s with green => yellow | yellow => red | red => green end.

(** ** Python primitives *)

Module Py.

(** [sum(l)]: left fold of [+] from [0]. *)
Definition sum (l : list Z) : Z := fold_left Z.add l 0.

(** [a / b] on integers: true division, [ZeroDivisionError] is [None]. *)
Definition truediv (a b : Z) : option Q :=
  match b with
  | Z0 => None
  | Zpos p => Some (a # p)
  | Zneg p => Some ((- a) # p)
  end.

(** [len(l)] as a Python integer. *)
Definition len {A} (l : list A) : Z := Z.of_nat (length l).

(** [l.pop(0)] for its effect on the list; [IndexError] is [None]. *)
Definition pop0 {A} (l : list A) : option (list A) :=
  match l with
  | [] => None
  | _ :: t => Some t
  end.

(** [x < n] for a rational [x] and an integer literal [n]. *)
Definition lt_int (x : Q) (n : Z) : bool :=
  if Qlt_le_dec x (inject_Z n) then true else false.

(** [x > n] for a rational [x] and an integer literal [n]. *)
Definition gt_int (x : Q) (n : Z) : bool :=
  if Qlt_le_dec (inject_Z n) x then true else false.

(** [x >= n] for a rational [x] and an integer literal [n]. *)
Definition ge_int (x : Q) (n : Z) : bool :=
  if Qlt_le_dec x (inject_Z n) then false else true.

End Py.

(** The threshold ladder shared by every variant:
    [if x < 5: "low" elif x < 15: "medium" else: "high"]. *)
Definition classify (x : Q) : Congestion :=
  if Py.lt_int x 5 then low
  else if Py.lt_int x 15 then medium
  else high.

(** The [signal_timings] dictionary of [YoloWebStreamer], [YoloVideoDisplay]
    and [TrafficDetector]. *)
Module SignalTimings.

Definition green_timing (c : Congestion) : Z :=
  match c with low => 30 | medium => 20 | high => 15 end.

Definition yellow_timing : Z := 3.

Definition red_timing (c : Congestion) : Z :=
  match c with low => 15 | medium => 25 | high => 35 end.

(** The duration looked up by the signal logic in each state. *)
Definition dwell (s : Signal) (c : Congestion) : Z :=
  match s with
  | green => green_timing c
  | yellow => yellow_timing
  | red => red_timing c
  end.

End SignalTimings.

(** ** The history window of [YoloWebStreamer.update_traffic_signal]

    [self.vehicle_history.append(vehicle_count)]
    [if len(self.vehicle_history) > 30: self.vehicle_history.pop(0)] *)

Definition append_history (h : list Z) (vehicle_count : Z) : option (list Z) :=
  let h1 := h ++ [vehicle_count] in
  if 30 <? Py.len h1 then Py.pop0 h1 else Some h1.

(** Which arm of the conditional expression produced the average. *)
Inductive AvgArm : Type := DivisionArm | GuardArm.

(** [sum(h) / len(h) if h else 0], together with the arm that was taken.
    [None] is a [ZeroDivisionError]. *)
Definition avg_vehicles_arm (h : list Z) : option (Q * AvgArm) :=
  match h with
  | _ :: _ => q ← Py.truediv (Py.sum h) (Py.len h); Some (q, DivisionArm)
  | [] => Some (0%Q, GuardArm)
  end.

Definition avg_vehicles (h : list Z) : option Q :=
  fst <$> avg_vehicles_arm h.

(** ** WebSocket sends *)

(** What [await client.send(message)] can raise: the
    [websockets.exceptions.ConnectionClosed] the handlers name, or any other
    subclass of [Exception]. *)
Inductive Exn : Type := ExnConnectionClosed | ExnOther.

#[global] Instance Exn_eq_dec : EqDecision Exn.
Proof. solve_decision. Defined.

(** The behaviour of every client's [send] during one broadcast:
    [None] is a completed send. *)
Definition SendBehaviour : Type := nat → option Exn.

(** The observable effect of one [broadcast_data] call. *)
Record Broadcast : Type := mkBroadcast {
  clients_after : gset nat;      (* [self.websocket_clients] on exit *)
  delivered : list nat;          (* clients whose [send] completed, in order *)
  raised : option Exn;           (* exception leaving [broadcast_data] *)
}.

(** State of the [for client in ...] loop. *)
Record SendLoop : Type := mkSendLoop {
  disconnected : gset nat;
  sent : list nat;
  pending : option Exn;          (* an exception no handler caught *)
}.

(** One [for] loop over clients whose body is
    [try: await client.send(message)] followed by the [except] clauses
    described by [catches]; an uncaught exception ends the loop. *)
Fixpoint send_loop (catches : Exn → bool) (send : SendBehaviour)
    (cs : list nat) (st : SendLoop) : SendLoop :=
  match cs with
  | [] => st
  | client :: rest =>
      match send client with
      | None =>
          send_loop catches send rest
            (mkSendLoop (disconnected st) (sent st ++ [client]) None)
      | Some e =>
          if catches e
          then send_loop catches send rest
                 (mkSendLoop ({[client]} ∪ disconnected st) (sent st) None)
          else mkSendLoop (disconnected st) (sent st) (Some e)
      end
  end.

(** *** A loop over the set itself

    [TrafficDetector.broadcast_data] and [WorkingYoloDetector.broadcast_data]
    write [for client in self.websocket_clients:], over the set itself and
    not over a copy, and the loop body awaits.  While a send is awaited the
    [websocket_handler] of another connection may run: it adds its client
    when the connection opens and discards it when the connection closes.
    At each of its steps, the last one included, a set iterator compares the
    size of the set with the size it had when the loop began and raises
    [RuntimeError] when they differ; the [for] statement is outside the
    [try], so none of the loop's handlers catches it.

    One step of one handler per awaited send is modelled; several handlers
    running during the same send (which can restore the size of the set and
    leave the order of iteration to the hash table) are not. *)
Inductive Change : Type :=
| Joins (client : nat)    (* [self.websocket_clients.add(websocket)] *)
| Leaves (client : nat).  (* [self.websocket_clients.discard(websocket)] *)

(** What the handlers do while the send to each client is awaited; [None]
    is a send during which no handler runs. *)
Definition Interference : Type := nat → option Change.

(** No handler runs during any send. *)
Definition quiet : Interference := λ _, None.

Definition apply_change (clients : gset nat) (ch : option Change) : gset nat :=
  match ch with
  | None => clients
  | Some (Joins c) => {[c]} ∪ clients
  | Some (Leaves c) => clients ∖ {[c]}
  end.

(** [RuntimeError("Set changed size during iteration")], a subclass of
    [Exception] other than [ConnectionClosed]. *)
Definition RuntimeError : Exn := ExnOther.

(** The loop of [send_loop] run over the live set [live]: [size0] is the
    size of the set when the loop began and [cs] what the iterator has yet
    to yield.  Returns the set as the loop leaves it with the state of the
    loop. *)
Fixpoint live_send_loop (catches : Exn → bool) (send : SendBehaviour)
    (interference : Interference) (size0 : nat) (cs : list nat)
    (live : gset nat) (st : SendLoop) : gset nat * SendLoop :=
  if decide (size live = size0) then
    match cs with
    | [] => (live, st)
    | client :: rest =>
        let live' := apply_change live (interference client) in
        match send client with
        | None =>
            live_send_loop catches send interference size0 rest live'
              (mkSendLoop (disconnected st) (sent st ++ [client]) None)
        | Some e =>
            if catches e
            then live_send_loop catches send interference size0 rest live'
                   (mkSendLoop ({[client]} ∪ disconnected st) (sent st) None)
            else (live', mkSendLoop (disconnected st) (sent st) (Some e))
        end
    end
  else (live, mkSendLoop (disconnected st) (sent st) (Some RuntimeError)).

(** [broadcast_data] of the two classes that loop over the set itself,
    with the [except] clauses described by [catches]. *)
Definition broadcast_live (catches : Exn → bool) (clients : gset nat)
    (send : SendBehaviour) (interference : Interference) : Broadcast :=
  if decide (clients = ∅) then mkBroadcast clients [] None
  else
    let '(live, st) :=
      live_send_loop catches send interference (size clients)
        (elements clients) clients (mkSendLoop ∅ [] None) in
    match pending st with
    | Some e => mkBroadcast live (sent st) (Some e)
    | None => mkBroadcast (live ∖ disconnected st) (sent st) None
    end.

(** ** [YoloWebStreamer] ([yolo_web_streamer.py]) *)

Module WebStreamer.

Import SignalTimings.

(** The attributes of [self] the pipeline reads and writes. *)
Record State : Type := mkState {
  current_signal : Signal;
  signal_timer : Q;
  last_signal_time : Q;
  vehicle_history : list Z;
  websocket_clients : gset nat;
}.

(** [__init__], at clock reading [now]. *)
Definition init (now : Q) : State :=
  mkState green 0%Q now [] ∅.

(** [update_traffic_signal(self, vehicle_count)], reading the clock as
    [current_time].  Returns the new [self] and [congestion_level]. *)
Definition update_traffic_signal (self : State) (current_time : Q)
    (vehicle_count : Z) : option (State * Congestion) :=
  let elapsed := (current_time - last_signal_time self)%Q in
  h ← append_history (vehicle_history self) vehicle_count;
  avg ← avg_vehicles h;
  let congestion_level := classify avg in
  let stay :=
    mkState (current_signal self) elapsed (last_signal_time self) h
      (websocket_clients self) in
  let switch (to : Signal) :=
    mkState to 0%Q current_time h (websocket_clients self) in
  let self' :=
    match current_signal self with
    | green =>
        if Py.gt_int elapsed (green_timing congestion_level)
        then switch yellow else stay
    | yellow =>
        if Py.gt_int elapsed yellow_timing
        then switch red else stay
    | red =>
        if Py.gt_int elapsed (red_timing congestion_level)
        then switch green else stay
    end in
  Some (self', congestion_level).

(** The dictionary sent to the WebSocket clients. *)
Record Data : Type := mkData {
  timestamp : Q;
  vehicle_count : Z;
  avg_vehicle_count : Q;
  congestion_level : Congestion;
  traffic_signal : Signal;
  data_signal_timer : Q;
  fps : Q;
  frame_number : Z;
}.

(** [broadcast_data(self, data)]: iterates over a copy of the client set;
    both [except] clauses ([ConnectionClosed] and [Exception]) record the
    client as disconnected. *)
Definition broadcast_data (clients : gset nat) (send : SendBehaviour)
    : Broadcast :=
  if decide (clients = ∅) then mkBroadcast clients [] None
  else
    let st := send_loop (λ _, true) send (elements clients)
                (mkSendLoop ∅ [] None) in
    match pending st with
    | Some e => mkBroadcast clients (sent st) (Some e)
    | None => mkBroadcast (clients ∖ disconnected st) (sent st) None
    end.

(** Local variables of [generate_frames] that survive an iteration. *)
Record Loop : Type := mkLoop {
  self : State;
  frame_count : Z;
  start_time : Q;
}.

(** What one pass through the [while self.streaming] body meets. *)
Inductive Event : Type :=
| EndOfStream (t_restart : Q)
    (* [cap.read()] returned [ret = False] *)
| Frame (vehicle_count : Z) (t_signal t_fps t_stamp : Q)
        (send : SendBehaviour)
    (* a frame, the detector's count, three clock readings, and how each
       client's [send] behaves in this iteration *)
| Connect (client : nat)
    (* [websocket_handler] adds a client between two iterations *)
| Disconnect (client : nat).
    (* [websocket_handler] discards a client between two iterations *)

(** What an iteration emits to the WebSocket side. *)
Record Published : Type := mkPublished {
  data : Data;
  outcome : Broadcast;
}.

(** One iteration of [generate_frames]. *)
Definition iteration (l : Loop) (e : Event)
    : option (Loop * option Published) :=
  match e with
  | EndOfStream t_restart =>
      Some (mkLoop (self l) 0 t_restart, None)
  | Connect c =>
      let s := self l in
      Some (mkLoop
              (mkState (current_signal s) (signal_timer s)
                 (last_signal_time s) (vehicle_history s)
                 ({[c]} ∪ websocket_clients s))
              (frame_count l) (start_time l), None)
  | Disconnect c =>
      let s := self l in
      Some (mkLoop
              (mkState (current_signal s) (signal_timer s)
                 (last_signal_time s) (vehicle_history s)
                 (websocket_clients s ∖ {[c]}))
              (frame_count l) (start_time l), None)
  | Frame count t_signal t_fps t_stamp send =>
      let frame_count' := frame_count l + 1 in
      '(s, level) ← update_traffic_signal (self l) t_signal count;
      let elapsed_time := (t_fps - start_time l)%Q in
      let current_fps :=
        if Qlt_le_dec 0 elapsed_time
        then (inject_Z frame_count' / elapsed_time)%Q else 0%Q in
      if decide (websocket_clients s = ∅)
      then Some (mkLoop s frame_count' (start_time l), None)
      else
        avg ← avg_vehicles (vehicle_history s);
        let d := mkData t_stamp count avg level (current_signal s)
                   (signal_timer s) current_fps frame_count' in
        let b := broadcast_data (websocket_clients s) send in
        let s' := mkState (current_signal s) (signal_timer s)
                    (last_signal_time s) (vehicle_history s)
                    (clients_after b) in
        Some (mkLoop s' frame_count' (start_time l), Some (mkPublished d b))
  end.

(** The loop over a finite prefix of events; collects what was
    published, oldest first. *)
Fixpoint generate_frames (l : Loop) (es : list Event)
    : option (Loop * list Published) :=
  match es with
  | [] => Some (l, [])
  | e :: es' =>
      '(l1, p) ← iteration l e;
      '(l2, ps) ← generate_frames l1 es';
      Some (l2, from_option (λ x, [x]) [] p ++ ps)
  end.

(** Entry of [generate_frames]: [frame_count = 0],
    [start_time = time.time()]. *)
Definition start (s : State) (now : Q) : Loop := mkLoop s 0 now.

End WebStreamer.


(** ** [YoloVideoDisplay] ([yolo_video_display.py])

    The same estimator and signal logic as [YoloWebStreamer], without a
    broadcast side, and with [>=] in the three duration tests. *)

Module VideoDisplay.

Import SignalTimings.

Record State : Type := mkState {
  current_signal : Signal;
  signal_timer : Q;
  last_signal_time : Q;
  vehicle_history : list Z;
}.

Definition init (now : Q) : State := mkState green 0%Q now [].

(** [update_traffic_signal(self, vehicle_count)], reading the clock as
    [current_time]. *)
Definition update_traffic_signal (self : State) (current_time : Q)
    (vehicle_count : Z) : option (State * Congestion) :=
  let elapsed := (current_time - last_signal_time self)%Q in
  h ← append_history (vehicle_history self) vehicle_count;
  avg ← avg_vehicles h;
  let congestion_level := classify avg in
  let stay :=
    mkState (current_signal self) elapsed (last_signal_time self) h in
  let switch (to : Signal) := mkState to 0%Q current_time h in
  let self' :=
    match current_signal self with
    | green =>
        if Py.ge_int elapsed (green_timing congestion_level)
        then switch yellow else stay
    | yellow =>
        if Py.ge_int elapsed yellow_timing
        then switch red else stay
    | red =>
        if Py.ge_int elapsed (red_timing congestion_level)
        then switch green else stay
    end in
  Some (self', congestion_level).

End VideoDisplay.

(** ** [TrafficDetector] ([yolo_traffic_detector.py]) *)

Module TrafficDetector.

Import SignalTimings.

(** [collections.deque(maxlen=n).append(x)]: a full deque drops its
    leftmost element. *)
Definition deque_append {A} (maxlen : Z) (d : list A) (x : A) : list A :=
  if Py.len d =? maxlen then tl d ++ [x] else d ++ [x].

Record State : Type := mkState {
  vehicle_counts : list Z;               (* [deque(maxlen=30)] *)
  congestion_history : list Congestion;  (* [deque(maxlen=10)] *)
  current_signal : Signal;
  signal_timer : Q;
  websocket_clients : gset nat;
}.

Definition init : State := mkState [] [] green 0%Q ∅.

(** [calculate_congestion_level(self, vehicle_count)]. *)
Definition calculate_congestion_level (vehicle_count : Z) : Congestion :=
  classify (inject_Z vehicle_count).

(** [update_traffic_signal(self, congestion_level)], on the two attributes
    it touches. *)
Definition update_traffic_signal (sig : Signal) (timer : Q)
    (congestion_level : Congestion) : Signal * Q :=
  match sig with
  | green =>
      if Py.gt_int timer (green_timing congestion_level)
      then (yellow, 0%Q) else (sig, timer)
  | yellow =>
      if Py.gt_int timer yellow_timing
      then (red, 0%Q) else (sig, timer)
  | red =>
      if Py.gt_int timer (red_timing congestion_level)
      then (green, 0%Q) else (sig, timer)
  end.

(** The controller step of [process_video]:
    [self.signal_timer += current_time - last_time]
    [self.update_traffic_signal(congestion_level)],
    with [delta_time = current_time - last_time]. *)
Definition tick (st : Signal * Q) (delta_time : Q) (congestion : Congestion)
    : Signal * Q :=
  update_traffic_signal (fst st) (snd st + delta_time)%Q congestion.

(** The one [except] clause of [broadcast_data]:
    [except websockets.exceptions.ConnectionClosed]. *)
Definition catches (e : Exn) : bool :=
  match e with ExnConnectionClosed => true | ExnOther => false end.

(** [broadcast_data(self, data)] when no handler runs during the sends:
    catches only [ConnectionClosed]; another exception leaves the method
    before [self.websocket_clients -= disconnected]. *)
Definition broadcast_data (clients : gset nat) (send : SendBehaviour)
    : Broadcast :=
  if decide (clients = ∅) then mkBroadcast clients [] None
  else
    let st :=
      send_loop (λ e, match e with ExnConnectionClosed => true
                      | ExnOther => false end)
        send (elements clients) (mkSendLoop ∅ [] None) in
    match pending st with
    | Some e => mkBroadcast clients (sent st) (Some e)
    | None => mkBroadcast (clients ∖ disconnected st) (sent st) None
    end.

(** [broadcast_data(self, data)] in general: the loop runs over the set
    itself while handlers may change it. *)
Definition broadcast_data_live (clients : gset nat) (send : SendBehaviour)
    (interference : Interference) : Broadcast :=
  broadcast_live catches clients send interference.

(** The dictionary sent to the clients (the ISO [timestamp] string and the
    [vehicles] boxes are left out). *)
Record Data : Type := mkData {
  vehicle_count : Z;
  avg_vehicle_count : Q;
  congestion_level : Congestion;
  traffic_signal : Signal;
  data_signal_timer : Q;
}.

(** One frame of [process_video] after a successful [cap.read()]:
    [last_time] is the loop's local, [current_time] the clock reading, and
    [vehicle_count = len(vehicles)] the detector's result. *)
Definition process_frame (self : State) (last_time current_time : Q)
    (count : Z) (send : SendBehaviour)
    : option (State * Q * Data * Broadcast) :=
  let counts := deque_append 30 (vehicle_counts self) count in
  let level := calculate_congestion_level count in
  let hist := deque_append 10 (congestion_history self) level in
  let '(sig, timer) :=
    tick (current_signal self, signal_timer self)
      (current_time - last_time)%Q level in
  avg ← avg_vehicles counts;
  let d := mkData count avg level sig timer in
  let b := broadcast_data (websocket_clients self) send in
  Some (mkState counts hist sig timer (clients_after b), current_time, d, b).

End TrafficDetector.

(** ** [WorkingYoloDetector] ([working_yolo.py]) *)

Module WorkingYolo.

Record State : Type := mkState {
  websocket_clients : gset nat;
  current_signal : Signal;
  signal_timer : Q;
  frame_count : Z;
  vehicle_counts : list Z;
}.

Definition init : State := mkState ∅ green 0%Q 0 [].

(** The local dictionary [signal_timings] of [process_video], used for both
    the green and the red test. *)
Definition signal_timings (c : Congestion) : Z :=
  match c with low => 30 | medium => 20 | high => 15 end.

(** [broadcast_data(self, data)] when no handler runs during the sends: a
    bare [except:] around each send. *)
Definition broadcast_data (clients : gset nat) (send : SendBehaviour)
    : Broadcast :=
  if decide (clients = ∅) then mkBroadcast clients [] None
  else
    let st := send_loop (λ _, true) send (elements clients)
                (mkSendLoop ∅ [] None) in
    match pending st with
    | Some e => mkBroadcast clients (sent st) (Some e)
    | None => mkBroadcast (clients ∖ disconnected st) (sent st) None
    end.

(** [broadcast_data(self, data)] in general: the loop runs over the set
    itself while handlers may change it; the bare [except:] is around the
    send, not around the [for]. *)
Definition broadcast_data_live (clients : gset nat) (send : SendBehaviour)
    (interference : Interference) : Broadcast :=
  broadcast_live (λ _, true) clients send interference.

(** The dictionary sent to the clients (the ISO [timestamp] string is left
    out). *)
Record Data : Type := mkData {
  vehicle_count : Z;
  avg_vehicle_count : Q;
  congestion_level : Congestion;
  traffic_signal : Signal;
  data_signal_timer : Q;
  data_frame_count : Z;
}.

(** The [try: ... except Exception as e: ...; vehicle_count = 0] block
    around the detector: [None] is a detector call that raised. *)
Definition detect (detection : option Z) : Z :=
  match detection with
  | Some vehicle_count => vehicle_count
  | None => 0
  end.

(** The [if / elif / elif] signal logic of [process_video]. *)
Definition signal_logic (sig : Signal) (timer : Q) (level : Congestion)
    : Signal * Q :=
  if bool_decide (sig = green) && Py.gt_int timer (signal_timings level)
  then (yellow, 0%Q)
  else if bool_decide (sig = yellow) && Py.gt_int timer 3
  then (red, 0%Q)
  else if bool_decide (sig = red) && Py.gt_int timer (signal_timings level)
  then (green, 0%Q)
  else (sig, timer).

(** One frame of [process_video] after a successful [cap.read()], when no
    handler runs during the sends. *)
Definition process_frame (self : State) (last_time current_time : Q)
    (detection : option Z) (send : SendBehaviour)
    : option (State * Q * Data * Broadcast) :=
  let frame_count' := frame_count self + 1 in
  let vehicle_count := detect detection in
  counts ← append_history (vehicle_counts self) vehicle_count;
  let level := classify (inject_Z vehicle_count) in
  let timer := (signal_timer self + (current_time - last_time))%Q in
  let '(sig, timer') := signal_logic (current_signal self) timer level in
  avg ← avg_vehicles counts;
  let d := mkData vehicle_count avg level sig timer' frame_count' in
  let b := broadcast_data (websocket_clients self) send in
  Some (mkState (clients_after b) sig timer' frame_count' counts,
        current_time, d, b).

(** The same frame in general: handlers may run while
    [await self.broadcast_data(data)] awaits its sends.  The attributes and
    the dictionary are those built before the broadcast; [raised] of the
    result is the exception that leaves [broadcast_data], and with it the
    loop, since [process_video] has no handler around the call. *)
Definition process_frame_live (self : State) (last_time current_time : Q)
    (detection : option Z) (send : SendBehaviour)
    (interference : Interference)
    : option (State * Q * Data * Broadcast) :=
  let frame_count' := frame_count self + 1 in
  let vehicle_count := detect detection in
  counts ← append_history (vehicle_counts self) vehicle_count;
  let level := classify (inject_Z vehicle_count) in
  let timer := (signal_timer self + (current_time - last_time))%Q in
  let '(sig, timer') := signal_logic (current_signal self) timer level in
  avg ← avg_vehicles counts;
  let d := mkData vehicle_count avg level sig timer' frame_count' in
  let b := broadcast_data_live (websocket_clients self) send interference in
  Some (mkState (clients_after b) sig timer' frame_count' counts,
        current_time, d, b).

End WorkingYolo.

(** ** [WorkingTrafficDetector] ([simple_yolo.py])

    This variant keeps no history; it publishes
    [vehicle_count * 0.9] under the key [avg_vehicle_count]. *)

Module SimpleYolo.

(** [vehicle_count * 0.9]; the literal [0.9] is taken as the rational
    9/10. *)
Definition avg_vehicle_count (vehicle_count : Z) : Q :=
  (inject_Z vehicle_count * (9 # 10))%Q.

(** The attributes [process_video_thread] reads and writes. *)
Record State : Type := mkState {
  current_signal : Signal;
  signal_timer : Q;
  frame_count : Z;
}.

Definition init : State := mkState green 0%Q 0.

(** The local dictionary [signal_timings], used for both the green and the
    red test. *)
Definition signal_timings (c : Congestion) : Z :=
  match c with low => 30 | medium => 20 | high => 15 end.

(** The [if / elif / elif] signal logic of [process_video_thread]. *)
Definition signal_logic (sig : Signal) (timer : Q) (level : Congestion)
    : Signal * Q :=
  if bool_decide (sig = green) && Py.gt_int timer (signal_timings level)
  then (yellow, 0%Q)
  else if bool_decide (sig = yellow) && Py.gt_int timer 3
  then (red, 0%Q)
  else if bool_decide (sig = red) && Py.gt_int timer (signal_timings level)
  then (green, 0%Q)
  else (sig, timer).

(** The dictionary put in the queue (the ISO [timestamp] string is left
    out). *)
Record Data : Type := mkData {
  vehicle_count : Z;
  data_avg_vehicle_count : Q;
  congestion_level : Congestion;
  traffic_signal : Signal;
  data_signal_timer : Q;
  data_frame_count : Z;
}.

(** One frame of [process_video_thread] after a successful [cap.read()],
    with [vehicle_count] the result of the counting loop. *)
Definition process_frame (self : State) (last_time current_time : Q)
    (vehicle_count : Z) : State * Q * Data :=
  let frame_count' := frame_count self + 1 in
  let timer := (signal_timer self + (current_time - last_time))%Q in
  let level := classify (inject_Z vehicle_count) in
  let '(sig, timer') := signal_logic (current_signal self) timer level in
  let d := mkData vehicle_count (avg_vehicle_count vehicle_count) level sig
             timer' frame_count' in
  (mkState sig timer' frame_count', current_time, d).

End SimpleYolo.


(** ** Vocabulary of the specification *)

(** The last [k] elements of [l], in order. *)
Definition last_n {A} (k : nat) (l : list A) : list A :=
  drop (length l - k) l.

(** The arithmetic mean of a non-empty list of integers. *)
Definition arithmetic_mean (l : list Z) : Q :=
  Qmake (foldr Z.add 0 l) (Pos.of_nat (length l)).

(** The counts submitted by a sequence of [generate_frames] events. *)
Fixpoint submitted (es : list WebStreamer.Event) : list Z :=
  match es with
  | [] => []
  | WebStreamer.Frame c _ _ _ _ :: es' => c :: submitted es'
  | _ :: es' => submitted es'
  end.

(** The [frame_number] fields of a sequence of published dictionaries. *)
Definition frame_numbers (ps : list WebStreamer.Published) : list Z :=
  map (λ p, WebStreamer.frame_number (WebStreamer.data p)) ps.

(** An event other than the end of the video. *)
Definition same_pass (e : WebStreamer.Event) : Prop :=
  match e with WebStreamer.EndOfStream _ => False | _ => True end.

(** Accumulated time of a sequence of tick intervals. *)
Definition accumulated (dts : list Q) : Q := foldr Qplus 0%Q dts.

(** Repeated [TrafficDetector.tick] under a constant congestion level;
    [n] counts the calls that changed the signal. *)
Fixpoint run_ticks (st : Signal * Q) (n : nat) (c : Congestion)
    (dts : list Q) : Signal * Q * nat :=
  match dts with
  | [] => (st, n)
  | dt :: rest =>
      let st' := TrafficDetector.tick st dt c in
      run_ticks st' (if decide (fst st' = fst st) then n else S n) c rest
  end.

(** ** Detections

    What a call [self.model(frame, verbose=False)] returns, as far as the
    counting loops read it: a list of results whose [boxes] may be [None],
    each box with [int(box.cls[0])], [float(box.conf[0])] and the four
    coordinates of [box.xyxy[0]].  Confidences and coordinates are exact
    rationals; the literals [0.3] and [0.5] are [3/10] and [1/2]. *)

Record Box : Type := mkBox {
  box_cls : Z;
  box_conf : Q;
  box_xyxy : Q * Q * Q * Q;
}.

Record Result : Type := mkResult {
  boxes : option (list Box);
}.

#[global] Instance Qlt_decision (x y : Q) : Decision (x < y)%Q.
Proof.
  destruct (Qlt_le_dec x y) as [H|H];
    [left; exact H|right; intros H'; exact (Qle_not_lt _ _ H H')].
Defined.

(** [cls in classes and conf > threshold]. *)
Definition is_vehicle (classes : list Z) (threshold : Q) (box : Box) : bool :=
  bool_decide (box_cls box ∈ classes)
  && (if Qlt_le_dec threshold (box_conf box) then true else false).

(** [int(x)] on a float: truncation towards zero. *)
Definition py_int (x : Q) : Z := Z.quot (Qnum x) (Zpos (Qden x)).

(** The counting loops of [YoloWebStreamer.draw_detections] and
    [YoloVideoDisplay.draw_detections] (the drawing on the frame is left
    out): the returned [vehicle_count]. *)
Module StreamerDetections.

Definition vehicle_classes : list Z := [1; 2; 3; 5; 7].

Definition draw_detections (results : list Result) : Z :=
  fold_left
    (λ vehicle_count result,
       match boxes result with
       | Some bs =>
           fold_left
             (λ n box,
                if is_vehicle vehicle_classes (3 # 10) box then n + 1 else n)
             bs vehicle_count
       | None => vehicle_count
       end)
    results 0.

End StreamerDetections.

(** [TrafficDetector.detect_vehicles], given the results of the model
    call. *)
Module DetectorDetections.

Definition vehicle_classes : list Z := [2; 3; 5; 7].

(** One dictionary of the returned [vehicles] list. *)
Record Vehicle : Type := mkVehicle {
  class : Z;
  confidence : Q;
  bbox : Z * Z * Z * Z;
  center : Q * Q;
}.

Definition vehicle_of (box : Box) : Vehicle :=
  let '(x1, y1, x2, y2) := box_xyxy box in
  mkVehicle (box_cls box) (box_conf box)
    (py_int x1, py_int y1, py_int x2, py_int y2)
    (((x1 + x2) / 2)%Q, ((y1 + y2) / 2)%Q).

Definition detect_vehicles (results : list Result) : list Vehicle :=
  fold_left
    (λ vehicles result,
       match boxes result with
       | Some bs =>
           fold_left
             (λ vs box,
                if is_vehicle vehicle_classes (1 # 2) box
                then vs ++ [vehicle_of box] else vs)
             bs vehicles
       | None => vehicles
       end)
    results [].

(** [vehicle_count = len(vehicles)] in [process_video]. *)
Definition vehicle_count (results : list Result) : Z :=
  Py.len (detect_vehicles results).

(** [vehicles[:10]], the part of the list that is published. *)
Definition published_vehicles (vehicles : list Vehicle) : list Vehicle :=
  take 10 vehicles.

End DetectorDetections.

(** The counting loop inside the [try] of [WorkingYoloDetector.process_video]
    (and, without the [try], of [simple_yolo.py]); [None] is a model call
    that raised. *)
Module WorkingYoloDetections.

Definition vehicle_classes : list Z := [2; 3; 5; 7].

Definition count (results : list Result) : Z :=
  fold_left
    (λ vehicle_count result,
       match boxes result with
       | Some bs =>
           fold_left
             (λ n box,
                if is_vehicle vehicle_classes (1 # 2) box then n + 1 else n)
             bs vehicle_count
       | None => vehicle_count
       end)
    results 0.

Definition vehicle_count (model_call : option (list Result)) : Z :=
  WorkingYolo.detect (count <$> model_call).

End WorkingYoloDetections.

(** All boxes of a model call, in the order the loops visit them. *)
Definition all_boxes (results : list Result) : list Box :=
  concat (map (λ r, default [] (boxes r)) results).

(** ** Further vocabulary *)

(** The sum of the three dwell times at one congestion level. *)
Definition cycle_total (c : Congestion) : Z :=
  SignalTimings.green_timing c + SignalTimings.yellow_timing
  + SignalTimings.red_timing c.

(** After [n] signal changes from [(green, 0)] at the constant level [c],
    with ticks of at most [delta] and [T] the time accumulated so far. *)
Definition cycle_window_inv (c : Congestion) (delta T : Q) (n : nat)
    (st : Signal * Q) : Prop :=
  let g := inject_Z (SignalTimings.green_timing c) in
  let r := inject_Z (SignalTimings.red_timing c) in
  (0 <= snd st)%Q ∧
  (snd st <= inject_Z (SignalTimings.dwell (fst st) c))%Q ∧
  match n with
  | 0%nat => fst st = green ∧ (T == snd st)%Q
  | 1%nat => fst st = yellow ∧ (g + snd st < T)%Q ∧
             (T <= g + delta + snd st)%Q
  | 2%nat => fst st = red ∧ (g + 3 + snd st < T)%Q ∧
             (T <= g + 3 + 2 * delta + snd st)%Q
  | _ => (g + 3 + r + snd st < T)%Q
  end.

(** Repeated [YoloWebStreamer.update_traffic_signal], one call per clock
    reading and count; [n] counts the calls that changed the signal, and
    the levels the calls returned are collected in order. *)
Fixpoint run_updates (s : WebStreamer.State) (n : nat) (calls : list (Q * Z))
    : option (WebStreamer.State * nat * list Congestion) :=
  match calls with
  | [] => Some (s, n, [])
  | (current_time, vehicle_count) :: rest =>
      '(s', level) ←
        WebStreamer.update_traffic_signal s current_time vehicle_count;
      '(s'', n', levels) ←
        run_updates s'
          (if decide (WebStreamer.current_signal s'
                      = WebStreamer.current_signal s) then n else S n) rest;
      Some (s'', n', level :: levels)
  end.

(** One call per second, each with 20 vehicles: the first [k] calls. *)
Definition one_per_second (k : nat) : list (Q * Z) :=
  map (λ i, (inject_Z (Z.of_nat i), 20)) (seq 1 k).

(** After [n] signal changes of [YoloWebStreamer] from green at levels that
    were all high, with [t0] the [last_signal_time] at the start: what the
    clock reading of the latest change exceeds. *)
Definition clock_cycle_inv (t0 : Q) (n : nat) (s : WebStreamer.State) : Prop :=
  match n with
  | 0%nat => WebStreamer.current_signal s = green ∧
             (WebStreamer.last_signal_time s == t0)%Q
  | 1%nat => WebStreamer.current_signal s = yellow ∧
             (t0 + 15 < WebStreamer.last_signal_time s)%Q
  | 2%nat => WebStreamer.current_signal s = red ∧
             (t0 + 18 < WebStreamer.last_signal_time s)%Q
  | _ => (t0 + 53 < WebStreamer.last_signal_time s)%Q
  end.

(** Repeated controller steps of a variant driven by time differences,
    [self.signal_timer += current_time - last_time] followed by its signal
    logic, at the constant level [c]; [n] counts the steps that changed the
    signal. *)
Fixpoint run_logic (logic : Signal → Q → Congestion → Signal * Q)
    (st : Signal * Q) (n : nat) (c : Congestion) (dts : list Q)
    : Signal * Q * nat :=
  match dts with
  | [] => (st, n)
  | dt :: rest =>
      let st' := logic (fst st) (snd st + dt)%Q c in
      run_logic logic st'
        (if decide (fst st' = fst st) then n else S n) c rest
  end.

(** After [n] signal changes from [(green, 0)] under high congestion in a
    variant whose red test looks up the green table, with [T] the time
    accumulated so far: what [T] must exceed. *)
Definition short_cycle_inv (T : Q) (n : nat) (st : Signal * Q) : Prop :=
  (0 <= snd st)%Q ∧
  match n with
  | 0%nat => fst st = green ∧ (snd st <= T)%Q
  | 1%nat => fst st = yellow ∧ (15 + snd st < T)%Q
  | 2%nat => fst st = red ∧ (18 + snd st < T)%Q
  | _ => (33 + snd st < T)%Q
  end.

(** An event that leaves client [c] connected: its send completes on every
    frame and it is not disconnected. *)
Definition keeps (c : nat) (e : WebStreamer.Event) : Prop :=
  match e with
  | WebStreamer.Frame _ _ _ _ send => send c = None
  | WebStreamer.Disconnect c' => c' ≠ c
  | _ => True
  end.

(** The number of frames met since the video last started over. *)
Fixpoint frames_in_pass (n : Z) (es : list WebStreamer.Event) : Z :=
  match es with
  | [] => n
  | WebStreamer.EndOfStream _ :: es' => frames_in_pass 0 es'
  | WebStreamer.Frame _ _ _ _ _ :: es' => frames_in_pass (n + 1) es'
  | _ :: es' => frames_in_pass n es'
  end.

(** ** Drawing ([draw_traffic_light], [add_live_indicator])

    The OpenCV calls a drawing method makes, in order, as a display list. *)

Module Overlay.

Definition Color : Type := Z * Z * Z.   (* BGR *)

Inductive Shape : Type :=
| Rectangle (p1 p2 : Z * Z) (color : Color) (thickness : Z)
| Circle (center : Z * Z) (radius : Z) (color : Color) (thickness : Z)
| TimerText (org : Z * Z) (seconds : Q).

(** [draw_traffic_light(self, frame)] of [YoloWebStreamer] and
    [YoloVideoDisplay], for a frame [width] pixels wide. *)
Definition draw_traffic_light (width : Z) (current_signal : Signal)
    (signal_timer : Q) : list Shape :=
  let light_x := width - 120 in
  let light_y := 20 in
  let light_width := 80 in
  let light_height := 200 in
  let red_center := (light_x + light_width / 2, light_y + 40) in
  let yellow_center := (light_x + light_width / 2, light_y + 100) in
  let green_center := (light_x + light_width / 2, light_y + 160) in
  let light_radius := 25 in
  let red_color :=
    if decide (current_signal = red) then (0, 0, 255) else (0, 0, 80) in
  let yellow_color :=
    if decide (current_signal = yellow) then (0, 255, 255) else (0, 80, 80) in
  let green_color :=
    if decide (current_signal = green) then (0, 255, 0) else (0, 80, 0) in
  [ Rectangle (light_x, light_y)
      (light_x + light_width, light_y + light_height) (0, 0, 0) (-1);
    Rectangle (light_x, light_y)
      (light_x + light_width, light_y + light_height) (255, 255, 255) 3;
    Circle red_center light_radius red_color (-1);
    Circle red_center light_radius (255, 255, 255) 2;
    Circle yellow_center light_radius yellow_color (-1);
    Circle yellow_center light_radius (255, 255, 255) 2;
    Circle green_center light_radius green_color (-1);
    Circle green_center light_radius (255, 255, 255) 2 ]
  ++ match current_signal with
     | red => [Circle red_center (light_radius + 5) (0, 0, 255) 2]
     | yellow => [Circle yellow_center (light_radius + 5) (0, 255, 255) 2]
     | green => [Circle green_center (light_radius + 5) (0, 255, 0) 2]
     end
  ++ [TimerText (light_x, light_y + light_height + 25) signal_timer].

(** [live_color] of [add_live_indicator], where [sine] is the value of
    [np.sin(time.time() * 3)]. *)
Definition live_color (sine : Q) : Color :=
  let pulse := py_int (Qabs (sine * 255)) in
  (0, 0, Z.max 128 pulse).

End Overlay.

(** ** [demo.py]: the synthetic traffic video *)

Module Demo.

Definition width : Z := 640.
Definition height : Z := 480.
Definition fps : Z := 30.
Definition duration : Z := 30.
Definition total_frames : Z := fps * duration.
Definition num_vehicles : Z := 8.

Definition colors : list (Z * Z * Z) :=
  [(0, 255, 0); (255, 0, 0); (0, 0, 255); (255, 255, 0); (255, 0, 255)].

(** One dictionary of the [vehicles] list. *)
Record Vehicle : Type := mkVehicle {
  x : Z;
  y : Z;
  dx : Z;
  dy : Z;
  color : Z * Z * Z;
  vwidth : Z;
  vheight : Z;
}.

(** The body of [for vehicle in vehicles:] up to the drawing: move, bounce
    off the edges, keep in bounds. *)
Definition move (v : Vehicle) : Vehicle :=
  let x1 := x v + dx v in
  let y1 := y v + dy v in
  let dx1 :=
    if (x1 <=? 0) || (x1 >=? width - vwidth v) then dx v * -1 else dx v in
  let dy1 :=
    if (y1 <=? 0) || (y1 >=? height - vheight v) then dy v * -1 else dy v in
  let x2 := Z.max 0 (Z.min (width - vwidth v) x1) in
  let y2 := Z.max 0 (Z.min (height - vheight v) y1) in
  mkVehicle x2 y2 dx1 dy1 (color v) (vwidth v) (vheight v).

(** The two rectangles drawn for a vehicle: body and windows, each as its
    two corners. *)
Definition rectangles (v : Vehicle) : list (Z * Z * (Z * Z)) :=
  [ ((x v, y v), (x v + vwidth v, y v + vheight v));
    ((x v + 5, y v + 3), (x v + vwidth v - 5, y v + vheight v - 3)) ].

(** The random draws one frame may consume: the two [np.random.random()]
    values and the fields of a new vehicle. *)
Record Draws : Type := mkDraws {
  r_add : Q;
  new_x : Z;
  new_y : Z;
  new_dx : Z;
  new_dy : Z;
  new_width : Z;
  new_height : Z;
  r_remove : Q;
}.

(** [colors[i % len(colors)]]. *)
Definition color_at (i : Z) : Z * Z * Z :=
  nth (Z.to_nat (i mod Py.len colors)) colors (0, 0, 0).

(** The block under [if frame_num % (fps * 5) == 0:]. *)
Definition vary (vehicles : list Vehicle) (d : Draws) : list Vehicle :=
  if (Py.len vehicles <? 12) && bool_decide (1 # 2 < r_add d)%Q
  then vehicles ++
       [mkVehicle (new_x d) (new_y d) (new_dx d) (new_dy d)
          (color_at (Py.len vehicles)) (new_width d) (new_height d)]
  else if (3 <? Py.len vehicles) && bool_decide (7 # 10 < r_remove d)%Q
  then removelast vehicles
  else vehicles.

(** What one frame shows: the caption's vehicle number and the rectangles
    drawn. *)
Record Picture : Type := mkPicture {
  caption_vehicles : Z;
  drawn : list (Z * Z * (Z * Z));
}.

(** One iteration of [for frame_num in range(total_frames):]. *)
Definition frame (vehicles : list Vehicle) (frame_num : Z) (d : Draws)
    : Picture * list Vehicle :=
  let moved := map move vehicles in
  let picture := mkPicture num_vehicles (concat (map rectangles moved)) in
  let vehicles' :=
    if frame_num mod (fps * 5) =? 0 then vary moved d else moved in
  (picture, vehicles').

(** The iterations from [frame_num] on, one per element of [ds]. *)
Fixpoint frames (vehicles : list Vehicle) (frame_num : Z) (ds : list Draws)
    : list Picture * list Vehicle :=
  match ds with
  | [] => ([], vehicles)
  | d :: ds' =>
      let '(picture, vehicles1) := frame vehicles frame_num d in
      let '(pictures, vehicles2) := frames vehicles1 (frame_num + 1) ds' in
      (picture :: pictures, vehicles2)
  end.

End Demo.

(** The sizes [np.random.randint(30, 50)] and [np.random.randint(15, 25)]
    give a vehicle. *)
Definition sized (w h : Z) : Prop := 30 ≤ w < 50 ∧ 15 ≤ h < 25.

(** A point of the 640 x 480 frame. *)
Definition in_frame (p : Z * Z) : Prop :=
  0 ≤ fst p ≤ Demo.width ∧ 0 ≤ snd p ≤ Demo.height.

(** ** [debug_yolo.py]: the simulated signal of [SimpleTrafficDetector] *)

Module DebugYolo.

Definition signal_states : list Signal := [green; yellow; red].

(** [signal_states[(self.frame_count // 30) % 3]]. *)
Definition current_signal (frame_count : Z) : Signal :=
  nth (Z.to_nat ((frame_count / 30) mod 3)) signal_states green.

(** [self.frame_count % 30]. *)
Definition signal_timer (frame_count : Z) : Z := frame_count mod 30.

(** [vehicle_count * 0.8]. *)
Definition avg_vehicle_count (vehicle_count : Z) : Q :=
  (inject_Z vehicle_count * (8 # 10))%Q.

End DebugYolo.

(** ** [parse_traffic.py]: road segments, graph, intersections

    Floating point numbers are a type [F] with decidable, countable
    equality; [round5] is [round(x, 5)], [fsub] is float subtraction and
    [hypot] is [math.hypot].  JSON property values are a type [J]; [zero] is
    the literal [0].  A coordinate is the pair of its first two
    components. *)

Module ParseTraffic.

Section Model.

Context {F J : Type} `{Countable F} `{Inhabited F} `{Countable J}.
Context (round5 : F → F) (fsub : F → F → F) (hypot : F → F → F) (zero : J).

Definition Coord : Type := F * F.
Definition Point : Type := F * F.

(** One element of [geojson['features']]: [feature['geometry']['type']],
    [feature['geometry']['coordinates']] and [feature['properties']]. *)
Record Feature : Type := mkFeature {
  geometry_type : string;
  coordinates : list Coord;
  properties : gmap string J;
}.

(** One dictionary of the [roads] list. *)
Record Road : Type := mkRoad {
  id : J;
  geometry : list Coord;
  avg_speed_kmph : J;
  congestion : J;
  vehicle_count : J;
  travel_time_sec : J;
}.

(** The body of the loop of [extract_road_segments]. *)
Definition extract_step (roads : list Road) (feature : Feature)
    : list Road :=
  if decide (geometry_type feature = "LineString")
  then
    match properties feature !! "road_id",
          properties feature !! "avg_speed_kmph",
          properties feature !! "congestion" with
    | Some road_id, Some speed, Some cong =>
        roads ++
        [mkRoad road_id (coordinates feature) speed cong
           (default zero (properties feature !! "vehicle_count"))
           (default zero (properties feature !! "travel_time_sec"))]
    | _, _, _ => roads
    end
  else roads.

Definition extract_road_segments (features : list Feature) : list Road :=
  fold_left extract_step features [].

(** [round_point(coord)]. *)
Definition round_point (coord : Coord) : Point :=
  (round5 (fst coord), round5 (snd coord)).

(** [calculate_distance(p1, p2)]. *)
Definition calculate_distance (p1 p2 : Coord) : F :=
  hypot (fsub (fst p1) (fst p2)) (fsub (snd p1) (snd p2)).

(** An element of a [point_to_roads] list. *)
Record PointEntry : Type := mkPointEntry {
  pe_road_id : J;
  pe_index : nat;
  pe_properties : Road;
}.

Record EdgeData : Type := mkEdgeData {
  ed_road_id : J;
  ed_avg_speed_kmph : J;
  ed_congestion : J;
  ed_vehicle_count : J;
  ed_travel_time_sec : J;
  ed_length : F;
}.

(** An element of [all_edges]. *)
Record Edge : Type := mkEdge {
  e_start : Point;
  e_end : Point;
  e_data : EdgeData;
}.

(** An element of an adjacency list of [graph]. *)
Record Neighbour : Type := mkNeighbour {
  node : Point;
  n_data : EdgeData;
}.

(** [d[k].append(x)] on a [defaultdict(list)]. *)
Definition dd_append {A} (d : gmap Point (list A)) (k : Point) (x : A)
    : gmap Point (list A) :=
  <[k := default [] (d !! k) ++ [x]]> d.

(** [d[k]] read as a list (no key: the empty list). *)
Definition dd_get {A} (d : gmap Point (list A)) (k : Point) : list A :=
  default [] (d !! k).

(** The three structures [build_graph] fills. *)
Record Graph : Type := mkGraph {
  graph : gmap Point (list Neighbour);
  all_edges : list Edge;
  point_to_roads : gmap Point (list PointEntry);
}.

(** The first inner loop: [for i, p in enumerate(rounded_coords)]. *)
Definition add_points (road : Road) (rounded_coords : list Point)
    (ptr : gmap Point (list PointEntry)) : gmap Point (list PointEntry) :=
  fold_left
    (λ m ip, dd_append m (snd ip) (mkPointEntry (id road) (fst ip) road))
    (zip (seq 0 (length rounded_coords)) rounded_coords) ptr.

(** The body of the second inner loop, for one [i]. *)
Definition add_edge (road : Road) (rounded_coords : list Point) (g : Graph)
    (i : nat) : Graph :=
  let coords := geometry road in
  let p1 := rounded_coords !!! i in
  let p2 := rounded_coords !!! (i + 1)%nat in
  let edge_data :=
    mkEdgeData (id road) (avg_speed_kmph road) (congestion road)
      (vehicle_count road) (travel_time_sec road)
      (calculate_distance (coords !!! i) (coords !!! (i + 1)%nat)) in
  mkGraph
    (dd_append (dd_append (graph g) p1 (mkNeighbour p2 edge_data))
       p2 (mkNeighbour p1 edge_data))
    (all_edges g ++ [mkEdge p1 p2 edge_data])
    (point_to_roads g).

(** The body of [for road in roads:]. *)
Definition add_road (g : Graph) (road : Road) : Graph :=
  let rounded_coords := map round_point (geometry road) in
  let g1 :=
    mkGraph (graph g) (all_edges g)
      (add_points road rounded_coords (point_to_roads g)) in
  fold_left (add_edge road rounded_coords)
    (seq 0 (length rounded_coords - 1)) g1.

(** [build_graph(roads)]; the source returns
    [(graph, all_edges, point_to_roads)]. *)
Definition build_graph (roads : list Road) : Graph :=
  fold_left add_road roads (mkGraph ∅ [] ∅).

(** The test of [detect_intersections] on one item of
    [point_to_roads]. *)
Definition is_intersection (roads_at_point : list PointEntry) : Prop :=
  let unique_roads : gset J :=
    list_to_set (map pe_road_id roads_at_point) in
  (1 < size unique_roads)%nat ∨
  Exists
    (λ r, pe_index r = 0%nat ∨
          Z.of_nat (pe_index r)
            = Py.len (geometry (pe_properties r)) - 1)
    roads_at_point.

#[global] Instance is_intersection_dec rs : Decision (is_intersection rs).
Proof. unfold is_intersection. apply _. Defined.

(** [detect_intersections(point_to_roads)]. *)
Definition detect_intersections (ptr : gmap Point (list PointEntry))
    : gmap Point (list PointEntry) :=
  filter (λ item, is_intersection (snd item)) ptr.

(** The pairs of consecutive coordinates of a road, as edges. *)
Definition road_edges (road : Road) : list Edge :=
  map
    (λ cc,
       mkEdge (round_point (fst cc)) (round_point (snd cc))
         (mkEdgeData (id road) (avg_speed_kmph road) (congestion road)
            (vehicle_count road) (travel_time_sec road)
            (calculate_distance (fst cc) (snd cc))))
    (zip (geometry road) (tail (geometry road))).

(** What one edge puts into the adjacency list of [p]. *)
Definition contribution (p : Point) (e : Edge) : list Neighbour :=
  (if decide (e_start e = p) then [mkNeighbour (e_end e) (e_data e)] else [])
  ++ (if decide (e_end e = p) then [mkNeighbour (e_start e) (e_data e)]
      else []).

Definition neighbours_at (p : Point) (es : list Edge) : list Neighbour :=
  concat (map (contribution p) es).

(** The [i]-th coordinate of [road] rounds to [p]. *)
Definition passes (road : Road) (i : nat) (p : Point) : Prop :=
  ∃ c, geometry road !! i = Some c ∧ round_point c = p.

(** [i] is the first or the last index of the geometry of [road]. *)
Definition is_end (road : Road) (i : nat) : Prop :=
  i = 0%nat ∨ S i = length (geometry road).

(** The road a feature yields, if it yields one. *)
Definition feature_road (feature : Feature) : option Road :=
  if decide (geometry_type feature = "LineString")
  then
    road_id ← properties feature !! "road_id";
    speed ← properties feature !! "avg_speed_kmph";
    cong ← properties feature !! "congestion";
    Some (mkRoad road_id (coordinates feature) speed cong
            (default zero (properties feature !! "vehicle_count"))
            (default zero (properties feature !! "travel_time_sec")))
  else None.

End Model.

End ParseTraffic.

(** ** The loop of [WorkingYoloDetector.process_video] *)

Module WorkingYoloLoop.

(** What one pass through the [while self.running] body meets. *)
Inductive Event : Type :=
| EndOfStream
    (* [cap.read()] returned [ret = False]: rewind and [continue] *)
| Frame (current_time : Q) (detection : option Z) (send : SendBehaviour)
    (* a frame, the clock reading, the outcome of the detector block and
       how each client's [send] behaves *)
| Connect (client : nat)
| Disconnect (client : nat).

(** [self] and the loop's local [last_time]. *)
Record Loop : Type := mkLoop {
  self : WorkingYolo.State;
  last_time : Q;
}.

Definition with_clients (s : WorkingYolo.State) (clients : gset nat)
    : WorkingYolo.State :=
  WorkingYolo.mkState clients (WorkingYolo.current_signal s)
    (WorkingYolo.signal_timer s) (WorkingYolo.frame_count s)
    (WorkingYolo.vehicle_counts s).

Definition iteration (l : Loop) (e : Event)
    : option (Loop * option (WorkingYolo.Data * Broadcast)) :=
  match e with
  | EndOfStream => Some (l, None)
  | Connect c =>
      Some (mkLoop
              (with_clients (self l)
                 ({[c]} ∪ WorkingYolo.websocket_clients (self l)))
              (last_time l), None)
  | Disconnect c =>
      Some (mkLoop
              (with_clients (self l)
                 (WorkingYolo.websocket_clients (self l) ∖ {[c]}))
              (last_time l), None)
  | Frame current_time detection send =>
      '(s, t, d, b) ←
        WorkingYolo.process_frame (self l) (last_time l) current_time
          detection send;
      Some (mkLoop s t, Some (d, b))
  end.

Fixpoint process_video (l : Loop) (es : list Event)
    : option (Loop * list (WorkingYolo.Data * Broadcast)) :=
  match es with
  | [] => Some (l, [])
  | e :: es' =>
      '(l1, p) ← iteration l e;
      '(l2, ps) ← process_video l1 es';
      Some (l2, from_option (λ x, [x]) [] p ++ ps)
  end.

(** The counts a sequence of events feeds to the window: a detector block
    that raised counts as 0. *)
Fixpoint fed (es : list Event) : list Z :=
  match es with
  | [] => []
  | Frame _ detection _ :: es' => WorkingYolo.detect detection :: fed es'
  | _ :: es' => fed es'
  end.

(** An event together with what the handlers do while the sends of that
    pass are awaited (of use on a frame only). *)
Definition LiveEvent : Type := Event * Interference.

(** What a run of the loop leaves behind: the loop state, the dictionaries
    built with the outcome of their broadcasts, oldest first, and the
    exception that ended the loop, if one did. *)
Record Run : Type := mkRun {
  final : Loop;
  built : list (WorkingYolo.Data * Broadcast);
  stopped : option Exn;
}.

(** The loop over a finite prefix of events when handlers may run during
    the sends: an exception that leaves [broadcast_data] leaves
    [process_video], before [last_time = current_time]. *)
Fixpoint run (l : Loop) (es : list LiveEvent) : option Run :=
  match es with
  | [] => Some (mkRun l [] None)
  | (Frame current_time detection send, interference) :: es' =>
      '(s, t, d, b) ←
        WorkingYolo.process_frame_live (self l) (last_time l) current_time
          detection send interference;
      match raised b with
      | Some e => Some (mkRun (mkLoop s (last_time l)) [(d, b)] (Some e))
      | None =>
          r ← run (mkLoop s t) es';
          Some (mkRun (final r) ((d, b) :: built r) (stopped r))
      end
  | (e, _) :: es' =>
      '(l1, _) ← iteration l e;
      run l1 es'
  end.

End WorkingYoloLoop.

(** ** The estimator *)

Section Estimator.

Lemma Py_sum_foldr (l : list Z) : Py.sum l = foldr Z.add 0 l.
Proof.
  unfold Py.sum.
  assert (G : ∀ a, fold_left Z.add l a = a + foldr Z.add 0 l).
  { induction l as [|x l IH]; intros a; simpl; [lia|]. rewrite IH. lia. }
  rewrite G. lia.
Qed.

Lemma append_history_Some (h : list Z) (c : Z) :
  append_history h c =
    Some (if 30 <? Py.len (h ++ [c]) then drop 1 (h ++ [c]) else h ++ [c]).
Proof.
  unfold append_history. cbv zeta.
  destruct (30 <? Py.len (h ++ [c])); [|done].
  destruct h; done.
Qed.

Lemma append_history_nonempty (h h' : list Z) (c : Z) :
  append_history h c = Some h' → h' ≠ [].
Proof.
  rewrite append_history_Some. intros [= <-].
  destruct (30 <? Py.len (h ++ [c])) eqn:E.
  - apply Z.ltb_lt in E. unfold Py.len in E. rewrite length_app in E.
    simpl in E. destruct h as [|x [|y h]]; simpl in *; try lia; done.
  - destruct h; done.
Qed.

Lemma append_history_last_n (l : list Z) (c : Z) :
  append_history (last_n 30 l) c = Some (last_n 30 (l ++ [c])).
Proof.
  rewrite append_history_Some. f_equal. unfold last_n, Py.len.
  rewrite !length_app, length_drop. simpl length.
  destruct (30 <? _) eqn:E.
  - apply Z.ltb_lt in E.
    rewrite drop_app_le by (rewrite length_drop; lia).
    rewrite drop_drop.
    rewrite (drop_app_le l) by lia.
    do 2 f_equal. lia.
  - apply Z.ltb_ge in E.
    replace (length l - 30)%nat with 0%nat by lia.
    replace (length l + 1 - 30)%nat with 0%nat by lia.
    done.
Qed.

Lemma length_last_n {A} (k : nat) (l : list A) :
  length (last_n k l) = (length l `min` k)%nat.
Proof. unfold last_n. rewrite length_drop. lia. Qed.

Lemma avg_vehicles_arm_cons (x : Z) (h : list Z) :
  avg_vehicles_arm (x :: h) = Some (arithmetic_mean (x :: h), DivisionArm).
Proof.
  unfold avg_vehicles_arm, arithmetic_mean, Py.len.
  rewrite Py_sum_foldr.
  change (length (x :: h)) with (S (length h)).
  rewrite Nat2Z.inj_succ, <- Z.add_1_r.
  destruct (Z.of_nat (length h)) as [|p|p] eqn:E; try lia; simpl.
  - destruct h; [|done]. done.
  - do 3 f_equal.
    replace (S (length h)) with (Pos.to_nat (p + 1)) by lia.
    by rewrite Pos2Nat.id.
Qed.

Lemma avg_vehicles_nonempty (h : list Z) :
  h ≠ [] → avg_vehicles h = Some (arithmetic_mean h).
Proof.
  destruct h as [|x h]; [done|]. intros _.
  unfold avg_vehicles. by rewrite avg_vehicles_arm_cons.
Qed.

End Estimator.

(** ** [YoloWebStreamer]: one call of [update_traffic_signal] *)

Section WebStreamerUpdate.

Import WebStreamer SignalTimings.

(** Every call returns; the result is described by the window after the
    append, the level of its mean, and one strict test on the elapsed time. *)
Lemma update_traffic_signal_inv (s : State) (t : Q) (c : Z) :
  ∃ s' h,
    append_history (vehicle_history s) c = Some h ∧ h ≠ [] ∧
    update_traffic_signal s t c = Some (s', classify (arithmetic_mean h)) ∧
    vehicle_history s' = h ∧
    websocket_clients s' = websocket_clients s ∧
    let elapsed := (t - last_signal_time s)%Q in
    let d := dwell (current_signal s) (classify (arithmetic_mean h)) in
    (Py.gt_int elapsed d = true ∧
       current_signal s' = next_signal (current_signal s) ∧
       signal_timer s' = 0%Q ∧ last_signal_time s' = t)
    ∨ (Py.gt_int elapsed d = false ∧
       current_signal s' = current_signal s ∧
       signal_timer s' = elapsed ∧
       last_signal_time s' = last_signal_time s).
Proof.
  destruct (append_history (vehicle_history s) c) as [h|] eqn:Hh;
    [|by rewrite append_history_Some in Hh].
  pose proof (append_history_nonempty _ _ _ Hh) as Hne.
  unfold update_traffic_signal. rewrite Hh. simpl.
  rewrite (avg_vehicles_nonempty h Hne). simpl.
  eexists _, h. split_and!; [done|done|reflexivity|..];
    destruct (current_signal s); simpl;
    destruct (Py.gt_int _ _); simpl; auto.
Qed.

End WebStreamerUpdate.

(** ** [YoloVideoDisplay]: one call of [update_traffic_signal] *)

Section VideoDisplayUpdate.

Import VideoDisplay SignalTimings.

(** Every call returns; the result is described by the window after the
    append, the level of its mean, and one [>=] test on the elapsed time. *)
Lemma video_display_update_inv (s : State) (t : Q) (c : Z) :
  ∃ s' h,
    append_history (vehicle_history s) c = Some h ∧ h ≠ [] ∧
    update_traffic_signal s t c = Some (s', classify (arithmetic_mean h)) ∧
    vehicle_history s' = h ∧
    let elapsed := (t - last_signal_time s)%Q in
    let d := dwell (current_signal s) (classify (arithmetic_mean h)) in
    (Py.ge_int elapsed d = true ∧
       current_signal s' = next_signal (current_signal s) ∧
       signal_timer s' = 0%Q ∧ last_signal_time s' = t)
    ∨ (Py.ge_int elapsed d = false ∧
       current_signal s' = current_signal s ∧
       signal_timer s' = elapsed ∧
       last_signal_time s' = last_signal_time s).
Proof.
  destruct (append_history (vehicle_history s) c) as [h|] eqn:Hh;
    [|by rewrite append_history_Some in Hh].
  pose proof (append_history_nonempty _ _ _ Hh) as Hne.
  unfold update_traffic_signal. rewrite Hh. simpl.
  rewrite (avg_vehicles_nonempty h Hne). simpl.
  eexists _, h. split_and!; [done|done|reflexivity|..];
    destruct (current_signal s); simpl;
    destruct (Py.ge_int _ _); simpl; auto.
Qed.

End VideoDisplayUpdate.

(** ** [YoloWebStreamer]: the loop of [generate_frames] *)

Section WebStreamerLoop.

Import WebStreamer.

(** One iteration on a frame: the update, then either nothing is published
    (no client) or one dictionary is broadcast. *)
Lemma iteration_Frame_inv (l : Loop) (c : Z) (t1 t2 t3 : Q)
    (send : SendBehaviour) :
  ∃ s h,
    append_history (vehicle_history (self l)) c = Some h ∧ h ≠ [] ∧
    update_traffic_signal (self l) t1 c
      = Some (s, classify (arithmetic_mean h)) ∧
    vehicle_history s = h ∧
    ((websocket_clients s = ∅ ∧
      iteration l (Frame c t1 t2 t3 send)
        = Some (mkLoop s (frame_count l + 1) (start_time l), None))
     ∨
     (websocket_clients s ≠ ∅ ∧
      ∃ fps,
        iteration l (Frame c t1 t2 t3 send)
          = Some (mkLoop
                    (mkState (current_signal s) (signal_timer s)
                       (last_signal_time s) (vehicle_history s)
                       (clients_after
                          (broadcast_data (websocket_clients s) send)))
                    (frame_count l + 1) (start_time l),
                  Some (mkPublished
                          (mkData t3 c (arithmetic_mean h)
                             (classify (arithmetic_mean h))
                             (current_signal s) (signal_timer s) fps
                             (frame_count l + 1))
                          (broadcast_data (websocket_clients s) send))))).
Proof.
  destruct (update_traffic_signal_inv (self l) t1 c)
    as (s & h & Hh & Hne & Hu & Hs & _).
  exists s, h. split_and!; try done.
  unfold iteration. rewrite Hu. simpl.
  destruct (decide (websocket_clients s = ∅)) as [E|E]; [left; done|].
  right. split; [done|]. rewrite Hs, (avg_vehicles_nonempty h Hne). simpl.
  eexists. reflexivity.
Qed.

Lemma iteration_total (l : Loop) (e : Event) : is_Some (iteration l e).
Proof.
  destruct e as [t|c t1 t2 t3 send|c|c]; try (simpl; eauto; fail).
  destruct (iteration_Frame_inv l c t1 t2 t3 send)
    as (s & h & _ & _ & _ & _ & [[_ ->]|[_ [fps ->]]]); eauto.
Qed.

(** The window held after an iteration is the last 30 of all counts
    submitted so far. *)
Lemma iteration_history (l l' : Loop) (e : Event) (o : option Published)
    (cs : list Z) :
  iteration l e = Some (l', o) →
  vehicle_history (self l) = last_n 30 cs →
  vehicle_history (self l') = last_n 30 (cs ++ submitted [e]).
Proof.
  intros Hi Hinv.
  destruct e as [t|c t1 t2 t3 send|c|c];
    try (simpl in *; injection Hi as <- <-; simpl;
         by rewrite app_nil_r).
  destruct (iteration_Frame_inv l c t1 t2 t3 send)
    as (s & h & Hh & _ & _ & Hs & [[_ E]|[_ [fps E]]]);
    rewrite E in Hi; injection Hi as <- <-; simpl;
    rewrite Hinv, append_history_last_n in Hh; congruence.
Qed.

Lemma generate_frames_total (es : list Event) (l : Loop) :
  is_Some (generate_frames l es).
Proof.
  revert l. induction es as [|e es IH]; intros l; simpl; [eauto|].
  destruct (iteration_total l e) as [[l1 p] ->]. simpl.
  destruct (IH l1) as [[l2 ps] ->]. simpl. eauto.
Qed.

Lemma generate_frames_history (es : list Event) (l l' : Loop)
    (ps : list Published) (cs : list Z) :
  generate_frames l es = Some (l', ps) →
  vehicle_history (self l) = last_n 30 cs →
  vehicle_history (self l') = last_n 30 (cs ++ submitted es).
Proof.
  revert l ps cs. induction es as [|e es IH]; intros l ps cs; simpl.
  - intros [= <- <-] H. by rewrite app_nil_r.
  - destruct (iteration l e) as [[l1 p]|] eqn:E1; [|done]. simpl.
    destruct (generate_frames l1 es) as [[l2 ps2]|] eqn:E2; [|done]. simpl.
    intros [= <- <-] H.
    pose proof (iteration_history _ _ _ _ _ E1 H) as H1.
    rewrite (IH _ _ _ E2 H1), <- app_assoc. do 2 f_equal.
    by destruct e.
Qed.

(** From a fresh streamer the window is the last 30 submitted counts. *)
Lemma generate_frames_window (t0 t : Q) (es : list Event) :
  ∃ l ps,
    generate_frames (start (init t0) t) es = Some (l, ps) ∧
    vehicle_history (self l) = last_n 30 (submitted es).
Proof.
  destruct (generate_frames_total es (start (init t0) t)) as [[l ps] E].
  exists l, ps. split; [done|].
  by apply (generate_frames_history es _ _ ps [] E).
Qed.

End WebStreamerLoop.

(** ** The threshold ladder *)

Lemma classify_spec (a : Q) :
  ((a < 5)%Q → classify a = low) ∧
  ((5 <= a)%Q ∧ (a < 15)%Q → classify a = medium) ∧
  ((15 <= a)%Q → classify a = high).
Proof.
  unfold classify, Py.lt_int.
  destruct (Qlt_le_dec a (inject_Z 5)) as [H5|H5];
    destruct (Qlt_le_dec a (inject_Z 15)) as [H15|H15];
    unfold inject_Z in *; split_and!; intros; try done; lra.
Qed.

(** ** Claims about the estimator *)

(** The ladder on an integer count. *)
Lemma classify_count_spec (c : Z) :
  (c < 5 → classify (inject_Z c) = low) ∧
  (5 ≤ c < 15 → classify (inject_Z c) = medium) ∧
  (15 ≤ c → classify (inject_Z c) = high).
Proof.
  destruct (classify_spec (inject_Z c)) as (H1 & H2 & H3).
  split_and!; intros H.
  - apply H1. unfold Qlt. simpl. lia.
  - apply H2. split; [unfold Qle|unfold Qlt]; simpl; lia.
  - apply H3. unfold Qle. simpl. lia.
Qed.

Lemma deque_append_nonempty {A} (m : Z) (d : list A) (x : A) :
  TrafficDetector.deque_append m d x ≠ [].
Proof.
  unfold TrafficDetector.deque_append.
  destruct (_ =? _); intros H; apply app_eq_nil in H as [_ H]; discriminate.
Qed.

(** Feed any sequence of counts to a fresh [YoloWebStreamer]; whatever the
    next count [c] is, [update_traffic_signal] returns, and the level it
    returns is the threshold ladder applied to the arithmetic mean of the
    last 30 counts submitted (including [c]). *)
Lemma web_streamer_level_from_window
    (t0 t now : Q) (es : list WebStreamer.Event) (c : Z) :
  ∃ l ps s' lvl,
    WebStreamer.generate_frames (WebStreamer.start (WebStreamer.init t0) t) es
      = Some (l, ps) ∧
    WebStreamer.update_traffic_signal (WebStreamer.self l) now c
      = Some (s', lvl) ∧
    let a := arithmetic_mean (last_n 30 (submitted es ++ [c])) in
    ((a < 5)%Q → lvl = low) ∧
    ((5 <= a)%Q ∧ (a < 15)%Q → lvl = medium) ∧
    ((15 <= a)%Q → lvl = high).
Proof.
  destruct (generate_frames_window t0 t es) as (l & ps & Hg & Hw).
  destruct (update_traffic_signal_inv (WebStreamer.self l) now c)
    as (s' & h & Hh & _ & Hu & _).
  rewrite Hw, append_history_last_n in Hh. injection Hh as <-.
  exists l, ps, s', (classify (arithmetic_mean (last_n 30 (submitted es ++ [c])))).
  split; [done|split; [done|]]. apply classify_spec.
Qed.

(** One frame of [TrafficDetector.process_video] always builds its
    dictionary: the window serves the published average, the level is that
    of the current count. *)
Lemma detector_frame_level
    (self : TrafficDetector.State) (last_time current_time : Q)
    (count : Z) (send : SendBehaviour) :
  ∃ s' d b,
    TrafficDetector.process_frame self last_time current_time count send
      = Some (s', current_time, d, b) ∧
    TrafficDetector.vehicle_counts s'
      = TrafficDetector.deque_append 30 (TrafficDetector.vehicle_counts self)
          count ∧
    TrafficDetector.avg_vehicle_count d
      = arithmetic_mean (TrafficDetector.vehicle_counts s') ∧
    TrafficDetector.congestion_level d
      = TrafficDetector.calculate_congestion_level count.
Proof.
  unfold TrafficDetector.process_frame.
  destruct (TrafficDetector.tick _ _ _) as [sg timer].
  rewrite (avg_vehicles_nonempty _ (deque_append_nonempty 30 _ count)).
  simpl. eexists _, _, _. split; [reflexivity|]. done.
Qed.

(** One frame of [WorkingYoloDetector.process_video] always builds its
    dictionary, in the same way. *)
Lemma working_yolo_frame_level
    (self : WorkingYolo.State) (last_time current_time : Q)
    (detection : option Z) (send : SendBehaviour) :
  ∃ s' d b h,
    WorkingYolo.process_frame self last_time current_time detection send
      = Some (s', current_time, d, b) ∧
    append_history (WorkingYolo.vehicle_counts self)
      (WorkingYolo.detect detection) = Some h ∧
    WorkingYolo.vehicle_counts s' = h ∧
    WorkingYolo.vehicle_count d = WorkingYolo.detect detection ∧
    WorkingYolo.avg_vehicle_count d = arithmetic_mean h ∧
    WorkingYolo.congestion_level d
      = classify (inject_Z (WorkingYolo.detect detection)).
Proof.
  destruct (append_history (WorkingYolo.vehicle_counts self)
              (WorkingYolo.detect detection)) as [h|] eqn:Hh;
    [|by rewrite append_history_Some in Hh].
  pose proof (append_history_nonempty _ _ _ Hh) as Hne.
  unfold WorkingYolo.process_frame. simpl. rewrite Hh. simpl.
  destruct (WorkingYolo.signal_logic _ _ _) as [sg timer'].
  rewrite (avg_vehicles_nonempty h Hne). simpl.
  eexists _, _, _, h. split; [reflexivity|]. done.
Qed.

(** C1 (as the code has it).  The three cited estimators share the
    thresholds 5 and 15 but not what they are applied to.
    [YoloWebStreamer.update_traffic_signal], fed any sequence of counts,
    returns the level of the arithmetic mean of the last 30 counts
    submitted: mean < 5 gives low, 5 <= mean < 15 gives medium, mean >= 15
    gives high.  [TrafficDetector] ([calculate_congestion_level], called on
    the count of the frame) and the loop of [working_yolo.py] publish the
    level of the count of the current frame, whatever their window holds,
    next to the mean of the window as [avg_vehicle_count]. *)
Theorem C1_congestion_level_by_variant
    (t0 t now : Q) (es : list WebStreamer.Event) (c : Z)
    (detector : TrafficDetector.State) (working : WorkingYolo.State)
    (last_time current_time : Q) (detection : option Z)
    (send : SendBehaviour) :
  (∃ l ps s' lvl,
     WebStreamer.generate_frames
       (WebStreamer.start (WebStreamer.init t0) t) es = Some (l, ps) ∧
     WebStreamer.update_traffic_signal (WebStreamer.self l) now c
       = Some (s', lvl) ∧
     let a := arithmetic_mean (last_n 30 (submitted es ++ [c])) in
     ((a < 5)%Q → lvl = low) ∧
     ((5 <= a)%Q ∧ (a < 15)%Q → lvl = medium) ∧
     ((15 <= a)%Q → lvl = high)) ∧
  (∃ s' d b,
     TrafficDetector.process_frame detector last_time current_time c send
       = Some (s', current_time, d, b) ∧
     TrafficDetector.congestion_level d
       = TrafficDetector.calculate_congestion_level c ∧
     TrafficDetector.avg_vehicle_count d
       = arithmetic_mean (TrafficDetector.vehicle_counts s') ∧
     (c < 5 → TrafficDetector.congestion_level d = low) ∧
     (5 ≤ c < 15 → TrafficDetector.congestion_level d = medium) ∧
     (15 ≤ c → TrafficDetector.congestion_level d = high)) ∧
  (∃ s' d b,
     WorkingYolo.process_frame working last_time current_time detection send
       = Some (s', current_time, d, b) ∧
     let v := WorkingYolo.detect detection in
     WorkingYolo.vehicle_count d = v ∧
     WorkingYolo.avg_vehicle_count d
       = arithmetic_mean (WorkingYolo.vehicle_counts s') ∧
     (v < 5 → WorkingYolo.congestion_level d = low) ∧
     (5 ≤ v < 15 → WorkingYolo.congestion_level d = medium) ∧
     (15 ≤ v → WorkingYolo.congestion_level d = high)).
Proof.
  split_and!.
  - apply web_streamer_level_from_window.
  - destruct (detector_frame_level detector last_time current_time c send)
      as (s' & d & b & E & _ & Ha & Hl).
    exists s', d, b. rewrite Hl.
    unfold TrafficDetector.calculate_congestion_level.
    split_and!; [done|done|done|apply classify_count_spec..].
  - destruct (working_yolo_frame_level working last_time current_time
                detection send) as (s' & d & b & h & E & _ & Hs & Hv & Ha & Hl).
    exists s', d, b. cbv zeta. rewrite Hl, Hs.
    split_and!; [done|done|done|apply classify_count_spec..].
Qed.

(** C1 as stated fails on two of its three sources.  After four frames
    without a vehicle, a frame with 20 vehicles leaves the mean of the
    window at 4, which the thresholds call low; [TrafficDetector] and
    [working_yolo.py] publish that mean and, with it, the level high. *)
Lemma C1_level_of_the_current_count :
  ('(s1, t1, _, _) ←
     TrafficDetector.process_frame TrafficDetector.init 0 1 0 (λ _, None);
   '(s2, t2, _, _) ← TrafficDetector.process_frame s1 t1 2 0 (λ _, None);
   '(s3, t3, _, _) ← TrafficDetector.process_frame s2 t2 3 0 (λ _, None);
   '(s4, t4, _, _) ← TrafficDetector.process_frame s3 t3 4 0 (λ _, None);
   '(_, _, d, _) ← TrafficDetector.process_frame s4 t4 5 20 (λ _, None);
   Some (TrafficDetector.avg_vehicle_count d,
         TrafficDetector.congestion_level d))
    = Some ((20 # 5)%Q, high)
  ∧ ('(_, ps) ←
       WorkingYoloLoop.process_video
         (WorkingYoloLoop.mkLoop WorkingYolo.init 0)
         [WorkingYoloLoop.Frame 1 (Some 0) (λ _, None);
          WorkingYoloLoop.Frame 2 (Some 0) (λ _, None);
          WorkingYoloLoop.Frame 3 (Some 0) (λ _, None);
          WorkingYoloLoop.Frame 4 (Some 0) (λ _, None);
          WorkingYoloLoop.Frame 5 (Some 20) (λ _, None)];
     d ← fst <$> last ps;
     Some (WorkingYolo.avg_vehicle_count d, WorkingYolo.congestion_level d))
    = Some ((20 # 5)%Q, high)
  ∧ (20 # 5 < 5)%Q ∧ classify (20 # 5) = low.
Proof. split_and!; vm_compute; reflexivity. Qed.

(** In [YoloWebStreamer] the level follows the window, not the latest
    count: after four empty frames a frame with 20 vehicles is still
    classified low, although 20 on its own is high. *)
Lemma congestion_is_not_instantaneous :
  (snd <$> (l ← fst <$> WebStreamer.generate_frames
                  (WebStreamer.start (WebStreamer.init 0) 0)
                  (map (λ k, WebStreamer.Frame 0 (inject_Z k) 0 0 (λ _, None))
                     [1; 2; 3; 4]);
            WebStreamer.update_traffic_signal (WebStreamer.self l) 5 20))
    = Some low
  ∧ classify (inject_Z 20) = high.
Proof. split; vm_compute; reflexivity. Qed.

(** Feed any sequence of counts to a fresh [YoloWebStreamer] and then one
    more frame with count [c]: the iteration returns, the window it leaves
    holds the last [min(n, 30)] of the [n] counts submitted, in submission
    order, and the [avg_vehicle_count] of the dictionary it publishes (when
    there is a client) is their arithmetic mean. *)
Lemma web_streamer_average_is_window_mean
    (t0 t : Q) (es : list WebStreamer.Event) (c : Z) (t1 t2 t3 : Q)
    (send : SendBehaviour) :
  ∃ l ps l' o,
    WebStreamer.generate_frames (WebStreamer.start (WebStreamer.init t0) t) es
      = Some (l, ps) ∧
    WebStreamer.iteration l (WebStreamer.Frame c t1 t2 t3 send)
      = Some (l', o) ∧
    let cs := submitted es ++ [c] in
    length (last_n 30 cs) = (length cs `min` 30)%nat ∧
    WebStreamer.vehicle_history (WebStreamer.self l') = last_n 30 cs ∧
    ∀ p, o = Some p →
      WebStreamer.avg_vehicle_count (WebStreamer.data p)
        = arithmetic_mean (last_n 30 cs) ∧
      WebStreamer.vehicle_count (WebStreamer.data p) = c.
Proof.
  destruct (generate_frames_window t0 t es) as (l & ps & Hg & Hw).
  destruct (iteration_Frame_inv l c t1 t2 t3 send)
    as (s & h & Hh & _ & _ & Hs & Hit).
  rewrite Hw, append_history_last_n in Hh. injection Hh as <-.
  destruct Hit as [[_ E]|[_ [fps E]]]; exists l, ps; eexists _, _;
    (split; [done|split; [exact E|]]); cbv zeta;
    (split; [apply length_last_n|split; [by simpl|]]).
  - by intros p.
  - by intros p [= <-].
Qed.

(** C2 (as the code has it).  In [YoloWebStreamer], for every sequence of
    counts submitted from a fresh streamer, the window holds the last
    [min(n, 30)] of the [n] counts in submission order and the published
    [avg_vehicle_count] is their arithmetic mean.  [simple_yolo.py] keeps
    no window: whatever came before, the dictionary of a frame carries nine
    tenths of that frame's count as [avg_vehicle_count], which is the mean
    of the submitted counts on the first frame only if the count is 0. *)
Theorem C2_published_average_by_variant
    (t0 t : Q) (es : list WebStreamer.Event) (c : Z) (t1 t2 t3 : Q)
    (send : SendBehaviour)
    (simple : SimpleYolo.State) (last_time current_time : Q) :
  (∃ l ps l' o,
     WebStreamer.generate_frames
       (WebStreamer.start (WebStreamer.init t0) t) es = Some (l, ps) ∧
     WebStreamer.iteration l (WebStreamer.Frame c t1 t2 t3 send)
       = Some (l', o) ∧
     let cs := submitted es ++ [c] in
     length (last_n 30 cs) = (length cs `min` 30)%nat ∧
     WebStreamer.vehicle_history (WebStreamer.self l') = last_n 30 cs ∧
     ∀ p, o = Some p →
       WebStreamer.avg_vehicle_count (WebStreamer.data p)
         = arithmetic_mean (last_n 30 cs) ∧
       WebStreamer.vehicle_count (WebStreamer.data p) = c) ∧
  (let d := snd (SimpleYolo.process_frame simple last_time current_time c) in
   SimpleYolo.vehicle_count d = c ∧
   SimpleYolo.data_avg_vehicle_count d = (inject_Z c * (9 # 10))%Q ∧
   ((SimpleYolo.data_avg_vehicle_count d == arithmetic_mean [c])%Q ↔ c = 0)).
Proof.
  split; [apply web_streamer_average_is_window_mean|].
  unfold SimpleYolo.process_frame.
  destruct (SimpleYolo.signal_logic _ _ _) as [sg timer']. cbn [snd].
  cbn [SimpleYolo.vehicle_count SimpleYolo.data_avg_vehicle_count].
  split_and!; [done|done|].
  unfold SimpleYolo.avg_vehicle_count, arithmetic_mean, Qeq.
  cbn [foldr length Pos.of_nat Qnum Qden Qmult inject_Z]. lia.
Qed.

(** C2 as stated fails on [simple_yolo.py]: the first frame, with 10
    vehicles, is published with [avg_vehicle_count] 9, while the mean of
    the one submitted count is 10. *)
Lemma C2_simple_yolo_average_is_scaled_count :
  (let d := snd (SimpleYolo.process_frame SimpleYolo.init 0 1 10) in
   (SimpleYolo.vehicle_count d, SimpleYolo.data_avg_vehicle_count d))
    = (10, (90 # 10)%Q)
  ∧ arithmetic_mean [10] = (10 # 1)%Q
  ∧ ¬ (90 # 10 == 10 # 1)%Q.
Proof. split_and!; [reflexivity|reflexivity|discriminate]. Qed.

(** C8.  In every state a fresh [YoloWebStreamer] reaches, an update
    returns and leaves at most 30 entries in the window; applied to a window
    of exactly 30 entries it drops the oldest one and keeps the other 29, in
    order, followed by the new count; applied to a shorter window it only
    appends. *)
Theorem C8_history_window_bounded_fifo
    (t0 t now : Q) (es : list WebStreamer.Event) (c : Z) :
  ∃ l ps s' lvl,
    WebStreamer.generate_frames (WebStreamer.start (WebStreamer.init t0) t) es
      = Some (l, ps) ∧
    WebStreamer.update_traffic_signal (WebStreamer.self l) now c
      = Some (s', lvl) ∧
    let h := WebStreamer.vehicle_history (WebStreamer.self l) in
    let h' := WebStreamer.vehicle_history s' in
    (length h ≤ 30)%nat ∧ (length h' ≤ 30)%nat ∧
    (length h = 30%nat → h' = drop 1 h ++ [c]) ∧
    ((length h < 30)%nat → h' = h ++ [c]).
Proof.
  destruct (generate_frames_window t0 t es) as (l & ps & Hg & Hw).
  destruct (update_traffic_signal_inv (WebStreamer.self l) now c)
    as (s' & h & Hh & _ & Hu & Hs & _).
  exists l, ps, s', (classify (arithmetic_mean h)).
  split; [done|split; [done|]]. cbv zeta. rewrite Hs. split_and!.
  - rewrite Hw, length_last_n. lia.
  - rewrite Hw, append_history_last_n in Hh. injection Hh as <-.
    rewrite length_last_n. lia.
  - intros L. rewrite append_history_Some in Hh. injection Hh as <-.
    unfold Py.len. rewrite length_app, L. simpl.
    rewrite drop_app_le by lia. done.
  - intros L. rewrite append_history_Some in Hh. injection Hh as <-.
    unfold Py.len. rewrite length_app. simpl length.
    rewrite (proj2 (Z.ltb_ge _ _)); [done|lia].
Qed.

(** The guard arm is taken on the empty window only, and gives 0. *)
Lemma guard_arm_only_when_empty (h : list Z) (q : Q) :
  avg_vehicles_arm h = Some (q, GuardArm) → h = [] ∧ q = 0%Q.
Proof.
  destruct h as [|x h]; [by intros [= <-]|].
  rewrite avg_vehicles_arm_cons. done.
Qed.

(** The window after the append ends with the new count. *)
Lemma append_history_last (h h' : list Z) (c : Z) :
  append_history h c = Some h' → last h' = Some c.
Proof.
  rewrite append_history_Some. intros [= <-].
  destruct h as [|x r]; [done|].
  destruct (30 <? _);
    [change (drop 1 ((x :: r) ++ [c])) with (r ++ [c])|]; apply last_snoc.
Qed.

(** C10.  In [update_traffic_signal], both of [YoloWebStreamer] and of
    [YoloVideoDisplay], the average that decides the returned level is the
    one of the window after the append: that window ends with the new
    count, is never empty, its length is not zero, the conditional
    expression takes its division arm on it, and the level returned is the
    level of that quotient.  The guard arm (average 0) is taken on the
    empty window only, and a fresh streamer holds the empty window exactly
    as long as no count has been submitted. *)
Theorem C10_average_taken_after_append
    (s : WebStreamer.State) (v : VideoDisplay.State) (now : Q) (c : Z) :
  (∃ s' h q,
     append_history (WebStreamer.vehicle_history s) c = Some h ∧
     last h = Some c ∧ h ≠ [] ∧ Py.len h ≠ 0 ∧
     avg_vehicles_arm h = Some (q, DivisionArm) ∧
     q = arithmetic_mean h ∧
     WebStreamer.update_traffic_signal s now c = Some (s', classify q) ∧
     WebStreamer.vehicle_history s' = h) ∧
  (∃ v' h q,
     append_history (VideoDisplay.vehicle_history v) c = Some h ∧
     last h = Some c ∧ h ≠ [] ∧ Py.len h ≠ 0 ∧
     avg_vehicles_arm h = Some (q, DivisionArm) ∧
     q = arithmetic_mean h ∧
     VideoDisplay.update_traffic_signal v now c = Some (v', classify q) ∧
     VideoDisplay.vehicle_history v' = h) ∧
  (∀ h0 q0, avg_vehicles_arm h0 = Some (q0, GuardArm) → h0 = [] ∧ q0 = 0%Q) ∧
  (∀ t0 t es l ps,
     WebStreamer.generate_frames
       (WebStreamer.start (WebStreamer.init t0) t) es = Some (l, ps) →
     WebStreamer.vehicle_history (WebStreamer.self l) = [] ↔
     submitted es = []).
Proof.
  assert (L : ∀ h : list Z, h ≠ [] →
            Py.len h ≠ 0 ∧
            avg_vehicles_arm h = Some (arithmetic_mean h, DivisionArm)).
  { intros [|x h] Hne; [done|]. split; [|apply avg_vehicles_arm_cons].
    unfold Py.len. simpl length. lia. }
  split_and!.
  - destruct (update_traffic_signal_inv s now c)
      as (s' & h & Hh & Hne & Hu & Hs & _).
    destruct (L h Hne) as [Hl Ha].
    exists s', h, (arithmetic_mean h).
    split_and!; try done. by apply (append_history_last _ _ _ Hh).
  - destruct (video_display_update_inv v now c)
      as (v' & h & Hh & Hne & Hu & Hs & _).
    destruct (L h Hne) as [Hl Ha].
    exists v', h, (arithmetic_mean h).
    split_and!; try done. by apply (append_history_last _ _ _ Hh).
  - apply guard_arm_only_when_empty.
  - intros t0 t es l ps Hg.
    destruct (generate_frames_window t0 t es) as (l1 & ps1 & Hg1 & Hw).
    rewrite Hg in Hg1. injection Hg1 as <- <-. rewrite Hw. split.
    + intros He. apply (f_equal length) in He.
      rewrite length_last_n in He. simpl in He.
      destruct (submitted es); [done|]. simpl in He. lia.
    + by intros ->.
Qed.

(** The order matters: the first update of a fresh streamer, with 20
    vehicles, returns high, the level of the window after the append; the
    window before the append is empty, its guarded average is 0 and its
    level would be low. *)
Lemma first_update_counts_the_new_frame :
  snd <$> WebStreamer.update_traffic_signal (WebStreamer.init 0) 1 20
    = Some high
  ∧ snd <$> VideoDisplay.update_traffic_signal (VideoDisplay.init 0) 1 20
    = Some high
  ∧ avg_vehicles_arm (WebStreamer.vehicle_history (WebStreamer.init 0))
    = Some (0%Q, GuardArm)
  ∧ classify 0 = low.
Proof. split_and!; vm_compute; reflexivity. Qed.

(** ** The signal logic *)

Lemma gt_int_true (x : Q) (n : Z) :
  Py.gt_int x n = true ↔ (inject_Z n < x)%Q.
Proof.
  unfold Py.gt_int. destruct (Qlt_le_dec (inject_Z n) x) as [H|H].
  - tauto.
  - split; [done|]. intros H'. exfalso. exact (Qle_not_lt _ _ H H').
Qed.

Lemma gt_int_false (x : Q) (n : Z) :
  Py.gt_int x n = false ↔ (x <= inject_Z n)%Q.
Proof.
  unfold Py.gt_int. destruct (Qlt_le_dec (inject_Z n) x) as [H|H].
  - split; [done|]. intros H'. exfalso. exact (Qle_not_lt _ _ H' H).
  - tauto.
Qed.

Lemma ge_int_true (x : Q) (n : Z) :
  Py.ge_int x n = true ↔ (inject_Z n <= x)%Q.
Proof.
  unfold Py.ge_int. destruct (Qlt_le_dec x (inject_Z n)) as [H|H].
  - split; [done|]. intros H'. exfalso. exact (Qle_not_lt _ _ H' H).
  - tauto.
Qed.

Lemma ge_int_false (x : Q) (n : Z) :
  Py.ge_int x n = false ↔ (x < inject_Z n)%Q.
Proof.
  unfold Py.ge_int. destruct (Qlt_le_dec x (inject_Z n)) as [H|H].
  - tauto.
  - split; [done|]. intros H'. exfalso. exact (Qle_not_lt _ _ H H').
Qed.

Lemma next_signal_ne (s : Signal) : next_signal s ≠ s.
Proof. by destruct s. Qed.

Lemma dwell_bounds (s : Signal) (c : Congestion) :
  (0 < inject_Z (SignalTimings.dwell s c))%Q ∧
  (inject_Z (SignalTimings.dwell s c) <= 35)%Q.
Proof. destruct s, c; split; reflexivity || discriminate. Qed.

(** [TrafficDetector.update_traffic_signal] in terms of the dwell table. *)
Lemma detector_update_dwell (sig : Signal) (timer : Q) (c : Congestion) :
  TrafficDetector.update_traffic_signal sig timer c =
    if Py.gt_int timer (SignalTimings.dwell sig c)
    then (next_signal sig, 0%Q) else (sig, timer).
Proof. by destruct sig. Qed.

(** [TrafficDetector.update_traffic_signal] makes the same strict test on
    its [signal_timer]. *)
Lemma detector_transition_iff (sig : Signal) (timer : Q) (c : Congestion) :
  let d := inject_Z (SignalTimings.dwell sig c) in
  let r := TrafficDetector.update_traffic_signal sig timer c in
  (fst r ≠ sig ↔ (d < timer)%Q) ∧
  ((d < timer)%Q → r = (next_signal sig, 0%Q)) ∧
  ((timer <= d)%Q → r = (sig, timer)) ∧
  ((timer == d)%Q → r = (sig, timer)).
Proof.
  cbv zeta. rewrite detector_update_dwell.
  destruct (Py.gt_int timer (SignalTimings.dwell sig c)) eqn:G.
  - apply gt_int_true in G. simpl. split_and!; try done.
    + split; [done|]. intros _. apply next_signal_ne.
    + intros H. exfalso. exact (Qle_not_lt _ _ H G).
    + intros H. exfalso. rewrite H in G. exact (Qlt_irrefl _ G).
  - apply gt_int_false in G. simpl. split_and!; try done.
    + split; [done|]. intros H. exfalso. exact (Qle_not_lt _ _ G H).
    + intros H. exfalso. exact (Qle_not_lt _ _ G H).
Qed.

(** C4 (as the code has it).  The two cited controllers test the elapsed
    time (the clock reading minus [last_signal_time]) against the dwell
    time of the current state differently.
    [YoloWebStreamer.update_traffic_signal] changes the signal if and only
    if the elapsed time is strictly greater than the dwell time, and at an
    elapsed time equal to the dwell time nothing changes.
    [YoloVideoDisplay.update_traffic_signal] changes the signal if and only
    if the elapsed time is greater than or equal to the dwell time, so at
    equality it moves to the next state.  In both, a change goes to the
    next state of the cycle, sets the timer to 0 and [last_signal_time] to
    the clock reading. *)
Theorem C4_transition_test_by_variant
    (s : WebStreamer.State) (v : VideoDisplay.State) (now : Q) (count : Z) :
  (∃ s' lvl,
     WebStreamer.update_traffic_signal s now count = Some (s', lvl) ∧
     let elapsed := (now - WebStreamer.last_signal_time s)%Q in
     let d := inject_Z (SignalTimings.dwell (WebStreamer.current_signal s) lvl) in
     (WebStreamer.current_signal s' ≠ WebStreamer.current_signal s
        ↔ (d < elapsed)%Q) ∧
     ((d < elapsed)%Q →
        WebStreamer.current_signal s'
          = next_signal (WebStreamer.current_signal s) ∧
        WebStreamer.signal_timer s' = 0%Q ∧
        WebStreamer.last_signal_time s' = now) ∧
     ((elapsed <= d)%Q →
        WebStreamer.current_signal s' = WebStreamer.current_signal s ∧
        WebStreamer.signal_timer s' = elapsed ∧
        WebStreamer.last_signal_time s' = WebStreamer.last_signal_time s) ∧
     ((elapsed == d)%Q →
        WebStreamer.current_signal s' = WebStreamer.current_signal s)) ∧
  (∃ v' lvl,
     VideoDisplay.update_traffic_signal v now count = Some (v', lvl) ∧
     let elapsed := (now - VideoDisplay.last_signal_time v)%Q in
     let d :=
       inject_Z (SignalTimings.dwell (VideoDisplay.current_signal v) lvl) in
     (VideoDisplay.current_signal v' ≠ VideoDisplay.current_signal v
        ↔ (d <= elapsed)%Q) ∧
     ((d <= elapsed)%Q →
        VideoDisplay.current_signal v'
          = next_signal (VideoDisplay.current_signal v) ∧
        VideoDisplay.signal_timer v' = 0%Q ∧
        VideoDisplay.last_signal_time v' = now) ∧
     ((elapsed < d)%Q →
        VideoDisplay.current_signal v' = VideoDisplay.current_signal v ∧
        VideoDisplay.signal_timer v' = elapsed ∧
        VideoDisplay.last_signal_time v' = VideoDisplay.last_signal_time v) ∧
     ((elapsed == d)%Q →
        VideoDisplay.current_signal v'
          = next_signal (VideoDisplay.current_signal v))).
Proof.
  split.
  - destruct (update_traffic_signal_inv s now count)
      as (s' & h & _ & _ & Hu & _ & _ & Hc).
    exists s', (classify (arithmetic_mean h)). split; [done|].
    cbv zeta in *.
    destruct Hc as [(G & -> & -> & ->)|(G & -> & -> & ->)].
    + apply gt_int_true in G. split_and!; try done.
      * split; [done|]. intros _. apply next_signal_ne.
      * intros H. exfalso. exact (Qle_not_lt _ _ H G).
      * intros H. exfalso. rewrite H in G. exact (Qlt_irrefl _ G).
    + apply gt_int_false in G. split_and!; try done.
      * split; [done|]. intros H. exfalso. exact (Qle_not_lt _ _ G H).
      * intros H. exfalso. exact (Qle_not_lt _ _ G H).
  - destruct (video_display_update_inv v now count)
      as (v' & h & _ & _ & Hu & _ & Hc).
    exists v', (classify (arithmetic_mean h)). split; [done|].
    cbv zeta in *.
    destruct Hc as [(G & -> & -> & ->)|(G & -> & -> & ->)].
    + apply ge_int_true in G. split_and!; try done.
      * split; [done|]. intros _. apply next_signal_ne.
      * intros H. exfalso. exact (Qle_not_lt _ _ G H).
    + apply ge_int_false in G. split_and!; try done.
      * split; [done|]. intros H. exfalso. exact (Qle_not_lt _ _ H G).
      * intros H. exfalso. exact (Qle_not_lt _ _ H G).
      * intros H. exfalso. rewrite H in G. exact (Qlt_irrefl _ G).
Qed.

(** C4 as stated fails on [YoloVideoDisplay]: in yellow, at a clock reading
    exactly 3 seconds after [last_signal_time], the display changes to red;
    [YoloWebStreamer] stays in yellow on the same input. *)
Lemma C4_video_display_switches_at_equality :
  (fst <$> VideoDisplay.update_traffic_signal
             (VideoDisplay.mkState yellow 0 100 []) 103 0)
    = Some (VideoDisplay.mkState red 0 103 [0])
  ∧ (WebStreamer.current_signal ∘ fst <$>
       WebStreamer.update_traffic_signal
         (WebStreamer.mkState yellow 0 100 [] ∅) 103 0)
    = Some yellow
  ∧ (103 - 100 == inject_Z SignalTimings.yellow_timing)%Q.
Proof. split_and!; vm_compute; reflexivity. Qed.

(** C7.  One call moves the signal by at most one step of the cycle,
    however large the elapsed time, and a call that moves it leaves the
    timer at zero: for [YoloWebStreamer.update_traffic_signal] at any clock
    reading, and for [TrafficDetector]'s tick at any [delta_time]. *)
Theorem C7_at_most_one_transition_per_tick
    (s : WebStreamer.State) (now : Q) (count : Z)
    (st : Signal * Q) (delta_time : Q) (c : Congestion) :
  (∃ s' lvl,
     WebStreamer.update_traffic_signal s now count = Some (s', lvl) ∧
     (WebStreamer.current_signal s' = WebStreamer.current_signal s ∨
      (WebStreamer.current_signal s'
         = next_signal (WebStreamer.current_signal s) ∧
       WebStreamer.signal_timer s' = 0%Q))) ∧
  (let st' := TrafficDetector.tick st delta_time c in
   fst st' = fst st ∨ (fst st' = next_signal (fst st) ∧ snd st' = 0%Q)).
Proof.
  split.
  - destruct (update_traffic_signal_inv s now count)
      as (s' & h & _ & _ & Hu & _ & _ & Hc).
    exists s', (classify (arithmetic_mean h)). split; [done|].
    destruct Hc as [(_ & -> & -> & _)|(_ & -> & _)]; auto.
  - cbv zeta. unfold TrafficDetector.tick.
    rewrite detector_update_dwell.
    destruct (Py.gt_int _ _); simpl; auto.
Qed.

(** The two controllers share their logic: the signal and timer that
    [YoloWebStreamer.update_traffic_signal] leaves are those of
    [TrafficDetector.update_traffic_signal] run on the elapsed time
    [current_time - last_signal_time]. *)
Lemma web_streamer_signal_step
    (s : WebStreamer.State) (now : Q) (count : Z) :
  ∃ s' lvl,
    WebStreamer.update_traffic_signal s now count = Some (s', lvl) ∧
    (WebStreamer.current_signal s', WebStreamer.signal_timer s')
      = TrafficDetector.update_traffic_signal (WebStreamer.current_signal s)
          (now - WebStreamer.last_signal_time s)%Q lvl.
Proof.
  destruct (update_traffic_signal_inv s now count)
    as (s' & h & _ & _ & Hu & _ & _ & Hc).
  exists s', (classify (arithmetic_mean h)). split; [done|].
  rewrite detector_update_dwell. cbv zeta in Hc.
  destruct Hc as [(-> & -> & -> & _)|(-> & -> & -> & _)]; done.
Qed.

(** A tick of a thousand seconds from green still ends in yellow. *)
Lemma large_delta_single_step :
  TrafficDetector.tick (green, 0%Q) 1000 low = (yellow, 0%Q).
Proof. reflexivity. Qed.

(** ** A full cycle under constant high congestion *)

Section ClockCycle.

Import WebStreamer.

(** One call that returned the level high keeps the invariant of the
    cycle. *)
Lemma update_clock_cycle (t0 : Q) (n : nat) (s s' : State) (t : Q) (c : Z) :
  clock_cycle_inv t0 n s →
  update_traffic_signal s t c = Some (s', high) →
  clock_cycle_inv t0
    (if decide (current_signal s' = current_signal s) then n else S n) s'.
Proof.
  intros Hinv Hu.
  destruct (update_traffic_signal_inv s t c)
    as (s1 & h & _ & _ & Hu1 & _ & _ & Hc).
  rewrite Hu in Hu1. injection Hu1 as <- Hl. rewrite <- Hl in Hc.
  cbv zeta in Hc.
  destruct Hc as [(G & Hs & _ & Ht)|(G & Hs & _ & Ht)].
  - apply gt_int_true in G. rewrite Hs.
    destruct (decide (next_signal (current_signal s) = current_signal s))
      as [E|_]; [by apply next_signal_ne in E|].
    pose proof (dwell_bounds (current_signal s) high) as [B _].
    destruct n as [|[|[|n]]]; simpl in Hinv |- *.
    + destruct Hinv as [Hg H0]. rewrite Hg in *. simpl in G.
      unfold inject_Z in G. rewrite Hs, Ht. split; [done|lra].
    + destruct Hinv as [Hg H0]. rewrite Hg in *. simpl in G.
      unfold SignalTimings.yellow_timing, inject_Z in G.
      rewrite Hs, Ht. split; [done|lra].
    + destruct Hinv as [Hg H0]. rewrite Hg in *. simpl in G.
      unfold inject_Z in G. rewrite Ht. lra.
    + rewrite Ht. lra.
  - rewrite Hs. destruct (decide (current_signal s = current_signal s))
      as [_|E]; [|done].
    destruct n as [|[|[|n]]]; simpl in Hinv |- *; rewrite ?Hs, ?Ht; done.
Qed.

Lemma run_updates_total (calls : list (Q * Z)) (s : State) (n : nat) :
  is_Some (run_updates s n calls).
Proof.
  revert s n. induction calls as [|[t c] calls IH]; intros s n; simpl;
    [eauto|].
  destruct (update_traffic_signal_inv s t c) as (s' & h & _ & _ & -> & _).
  simpl. destruct (IH s' (if decide (current_signal s' = current_signal s)
                          then n else S n)) as [[[s2 n2] lvls] ->].
  simpl. eauto.
Qed.

Lemma run_updates_clock_cycle (calls : list (Q * Z)) (t0 : Q) (n n' : nat)
    (s s' : State) (lvls : list Congestion) :
  clock_cycle_inv t0 n s →
  run_updates s n calls = Some (s', n', lvls) →
  Forall (eq high) lvls →
  clock_cycle_inv t0 n' s'.
Proof.
  revert n s lvls. induction calls as [|[t c] calls IH]; intros n s lvls Hinv;
    simpl.
  - by intros [= <- <- <-] _.
  - destruct (update_traffic_signal s t c) as [[s1 lvl]|] eqn:Hu; [|done].
    simpl.
    destruct (run_updates s1 _ calls) as [[[s2 n2] lvls2]|] eqn:Hr; [|done].
    simpl. intros [= <- <- <-] Hl. apply Forall_cons in Hl as [<- Hl].
    eapply IH; [|exact Hr|exact Hl]. by eapply update_clock_cycle.
Qed.

End ClockCycle.

Section ShortCycle.

Variable logic : Signal → Q → Congestion → Signal * Q.

Hypothesis logic_high : ∀ sg timer,
  logic sg timer high
    = if Py.gt_int timer (match sg with yellow => 3 | _ => 15 end)
      then (next_signal sg, 0%Q) else (sg, timer).

Lemma step_short_cycle (T dt : Q) (n : nat) (st : Signal * Q) :
  (0 <= dt)%Q → short_cycle_inv T n st →
  let st' := logic (fst st) (snd st + dt)%Q high in
  short_cycle_inv (T + dt) (if decide (fst st' = fst st) then n else S n) st'.
Proof.
  intros Hdt [H0 Hn]. destruct st as [s timer]. cbn [fst snd] in *.
  cbv zeta. rewrite logic_high.
  destruct (Py.gt_int (timer + dt) _) eqn:G.
  - apply gt_int_true in G. cbn [fst snd].
    destruct (decide (next_signal s = s)) as [E|_]; [by destruct s|].
    unfold short_cycle_inv. cbn [fst snd]. split; [lra|].
    destruct n as [|[|[|n]]].
    + destruct Hn as [-> Hn]. unfold inject_Z in G. split; [done|lra].
    + destruct Hn as [-> Hn]. unfold inject_Z in G. split; [done|lra].
    + destruct Hn as [-> Hn]. unfold inject_Z in G. simpl. lra.
    + lra.
  - apply gt_int_false in G. cbn [fst snd].
    destruct (decide (s = s)) as [_|E]; [|done].
    unfold short_cycle_inv. cbn [fst snd]. split; [lra|].
    destruct n as [|[|[|n]]].
    + destruct Hn as [-> Hn]. split; [done|lra].
    + destruct Hn as [-> Hn]. split; [done|lra].
    + destruct Hn as [-> Hn]. split; [done|lra].
    + lra.
Qed.

Lemma short_cycle_inv_proper (T T' : Q) (n : nat) (st : Signal * Q) :
  (T == T')%Q → short_cycle_inv T n st → short_cycle_inv T' n st.
Proof.
  intros E [H0 Hn]. split; [done|].
  destruct n as [|[|[|n]]].
  - destruct Hn as [Hs Hn]. split; [done|lra].
  - destruct Hn as [Hs Hn]. split; [done|lra].
  - destruct Hn as [Hs Hn]. split; [done|lra].
  - lra.
Qed.

Lemma run_logic_short_cycle (dts : list Q) (T : Q) (n : nat)
    (st : Signal * Q) :
  Forall (λ dt, (0 <= dt)%Q) dts → short_cycle_inv T n st →
  short_cycle_inv (T + accumulated dts)
    (snd (run_logic logic st n high dts))
    (fst (run_logic logic st n high dts)).
Proof.
  intros Hdts. revert T n st.
  induction Hdts as [|dt dts Hdt _ IH]; intros T n st Hinv; simpl.
  - apply (short_cycle_inv_proper T); [lra|done].
  - apply (short_cycle_inv_proper (T + dt + accumulated dts)); [lra|].
    apply IH. by apply step_short_cycle.
Qed.

Lemma short_cycle_exceeds_33 (dts : list Q) (st : Signal * Q) (n : nat) :
  Forall (λ dt, (0 <= dt)%Q) dts →
  run_logic logic (green, 0%Q) 0 high dts = (st, n) →
  (3 ≤ n)%nat →
  (33 < accumulated dts)%Q.
Proof.
  intros Hdts Hrun Hn.
  assert (Hinit : short_cycle_inv 0 0 (green, 0%Q)).
  { split; simpl; [lra|split; [done|lra]]. }
  pose proof (run_logic_short_cycle dts 0 0 (green, 0%Q) Hdts Hinit)
    as [H0 H].
  rewrite Hrun in H0, H. simpl in H0, H.
  destruct n as [|[|[|n]]]; try lia. lra.
Qed.

End ShortCycle.

Lemma working_yolo_logic_high (sg : Signal) (timer : Q) :
  WorkingYolo.signal_logic sg timer high
    = if Py.gt_int timer (match sg with yellow => 3 | _ => 15 end)
      then (next_signal sg, 0%Q) else (sg, timer).
Proof.
  unfold WorkingYolo.signal_logic. destruct sg; simpl;
    by destruct (Py.gt_int timer _).
Qed.

Lemma simple_yolo_logic_high (sg : Signal) (timer : Q) :
  SimpleYolo.signal_logic sg timer high
    = if Py.gt_int timer (match sg with yellow => 3 | _ => 15 end)
      then (next_signal sg, 0%Q) else (sg, timer).
Proof.
  unfold SimpleYolo.signal_logic. destruct sg; simpl;
    by destruct (Py.gt_int timer _).
Qed.




(** ** The broadcast *)

Section Broadcast.

(** A loop whose handlers catch everything: nothing stays pending, the
    clients whose send completed are recorded in order, the others are
    collected as disconnected. *)
Lemma send_loop_catch_all (send : SendBehaviour) (cs : list nat)
    (st : SendLoop) :
  pending st = None →
  let r := send_loop (λ _, true) send cs st in
  pending r = None ∧
  sent r = sent st ++ filter (λ c, send c = None) cs ∧
  disconnected r
    = list_to_set (filter (λ c, send c ≠ None) cs) ∪ disconnected st.
Proof.
  revert st. induction cs as [|c cs IH]; intros st Hp; cbv zeta.
  - simpl. rewrite app_nil_r. split_and!; [done|done|].
    apply set_eq. intros x. rewrite elem_of_union, elem_of_empty. tauto.
  - simpl. rewrite !filter_cons. destruct (send c) as [e|] eqn:E.
    + destruct (IH (mkSendLoop ({[c]} ∪ disconnected st) (sent st) None))
        as (H1 & H2 & H3); [done|].
      rewrite H1, H2, H3. simpl.
      split_and!; [done|done|].
      apply set_eq. intros x. rewrite !elem_of_union. tauto.
    + destruct (IH (mkSendLoop (disconnected st) (sent st ++ [c]) None))
        as (H1 & H2 & H3); [done|].
      rewrite H1, H2, H3. simpl.
      rewrite <- app_assoc. done.
Qed.

(** A loop whose handlers catch every exception the sends raise behaves as
    a loop that catches everything. *)
Lemma send_loop_all_caught (catches : Exn → bool) (send : SendBehaviour)
    (cs : list nat) (st : SendLoop) :
  (∀ c e, c ∈ cs → send c = Some e → catches e = true) →
  send_loop catches send cs st = send_loop (λ _, true) send cs st.
Proof.
  revert st. induction cs as [|c cs IH]; intros st Hc; [done|].
  simpl. destruct (send c) as [e|] eqn:E.
  - rewrite (Hc c e) by (done || apply list_elem_of_here).
    apply IH. intros c' e' Hin. apply Hc. by apply list_elem_of_further.
  - apply IH. intros c' e' Hin. apply Hc. by apply list_elem_of_further.
Qed.

(** An exception no handler catches ends the loop at once: it stays
    pending, and the message went to exactly the clients met before whose
    send completed. *)
Lemma send_loop_stops (catches : Exn → bool) (send : SendBehaviour)
    (cs : list nat) (st : SendLoop) :
  (∃ c e, c ∈ cs ∧ send c = Some e ∧ catches e = false) →
  ∃ pre c e post,
    cs = pre ++ c :: post ∧ send c = Some e ∧ catches e = false ∧
    pending (send_loop catches send cs st) = Some e ∧
    sent (send_loop catches send cs st)
      = sent st ++ filter (λ c', send c' = None) pre.
Proof.
  revert st. induction cs as [|c0 cs IH]; intros st (c & e & Hin & Hs & Hc).
  - by apply elem_of_nil in Hin.
  - assert (Hrest : (send c0 = None ∨
                     ∃ e0, send c0 = Some e0 ∧ catches e0 = true) →
                    ∃ c e, c ∈ cs ∧ send c = Some e ∧ catches e = false).
    { intros H0. exists c, e. split; [|done].
      apply elem_of_cons in Hin as [->|Hin]; [|done].
      destruct H0 as [H0|(e0 & H0 & H1)]; congruence. }
    simpl. destruct (send c0) as [e0|] eqn:E0.
    + destruct (catches e0) eqn:C0.
      * destruct (IH (mkSendLoop ({[c0]} ∪ disconnected st) (sent st) None))
          as (pre & c1 & e1 & post & -> & H1 & H2 & H3 & H4); [eauto|].
        exists (c0 :: pre), c1, e1, post. split_and!; try done.
        rewrite H4. simpl. rewrite filter_cons_False; [done|congruence].
      * exists [], c0, e0, cs. simpl. by rewrite app_nil_r.
    + destruct (IH (mkSendLoop (disconnected st) (sent st ++ [c0]) None))
        as (pre & c1 & e1 & post & -> & H1 & H2 & H3 & H4); [eauto|].
      exists (c0 :: pre), c1, e1, post. split_and!; try done.
      rewrite H4. simpl. rewrite filter_cons_True by done.
      by rewrite <- app_assoc.
Qed.

(** While no handler runs during the sends, the loop over the set itself
    is the loop over its elements. *)
Lemma live_send_loop_quiet (catches : Exn → bool) (send : SendBehaviour)
    (cs : list nat) (clients : gset nat) (st : SendLoop) :
  live_send_loop catches send quiet (size clients) cs clients st
    = (clients, send_loop catches send cs st).
Proof.
  revert st. induction cs as [|c cs IH]; intros st; simpl;
    (destruct (decide (size clients = size clients)) as [_|E]; [|done]);
    [done|].
  destruct (send c) as [e|]; [destruct (catches e)|]; by rewrite ?IH.
Qed.

Lemma broadcast_live_quiet (catches : Exn → bool) (clients : gset nat)
    (send : SendBehaviour) :
  broadcast_live catches clients send quiet
    = if decide (clients = ∅) then mkBroadcast clients [] None
      else
        let st := send_loop catches send (elements clients)
                    (mkSendLoop ∅ [] None) in
        match pending st with
        | Some e => mkBroadcast clients (sent st) (Some e)
        | None => mkBroadcast (clients ∖ disconnected st) (sent st) None
        end.
Proof.
  unfold broadcast_live. destruct (decide (clients = ∅)); [done|].
  by rewrite live_send_loop_quiet.
Qed.

End Broadcast.

(** For every client set and every behaviour of the clients' sends,
    [YoloWebStreamer.broadcast_data] returns without raising; afterwards
    the client set holds exactly the clients whose send completed, and the
    message was delivered, once, to exactly those clients. *)
Lemma web_streamer_broadcast_isolates
    (clients : gset nat) (send : SendBehaviour) :
  let b := WebStreamer.broadcast_data clients send in
  raised b = None ∧
  (∀ c, c ∈ clients_after b ↔ c ∈ clients ∧ send c = None) ∧
  (∀ c e, c ∈ clients → send c = Some e → c ∉ clients_after b) ∧
  (∀ c, c ∈ delivered b ↔ c ∈ clients ∧ send c = None) ∧
  NoDup (delivered b).
Proof.
  cbv zeta. unfold WebStreamer.broadcast_data.
  destruct (decide (clients = ∅)) as [->|Hne]; simpl.
  - split_and!; [done| | | |constructor].
    + intros c. rewrite elem_of_empty. tauto.
    + intros c e Hc. by apply elem_of_empty in Hc.
    + intros c. rewrite elem_of_nil, elem_of_empty. tauto.
  - destruct (send_loop_catch_all send (elements clients)
                (mkSendLoop ∅ [] None) eq_refl) as (H1 & H2 & H3).
    rewrite H1. simpl. rewrite H2, H3. simpl.
    assert (Hin : ∀ c, c ∈ clients ∖
              (list_to_set (filter (λ c0, send c0 ≠ None) (elements clients))
                 ∪ ∅) ↔ c ∈ clients ∧ send c = None).
    { intros c. rewrite elem_of_difference, elem_of_union,
        elem_of_list_to_set, list_elem_of_filter, elem_of_elements.
      split.
      - intros [Hc Hn]. split; [done|].
        destruct (send c) eqn:E; [|done]. exfalso. apply Hn. left.
        split; [cbv beta; congruence|done].
      - intros [Hc Hs]. split; [done|].
        intros [[Hn _]|H]; [done|by apply elem_of_empty in H]. }
    split_and!.
    + done.
    + exact Hin.
    + intros c e Hc Hs [_ Hn]%Hin. congruence.
    + intros c. rewrite list_elem_of_filter, elem_of_elements. tauto.
    + apply NoDup_filter, NoDup_elements.
Qed.

(** C5 (as the code has it).  [YoloWebStreamer.broadcast_data] isolates
    every failure of a send: it returns without raising, removes exactly
    the clients whose send raised, whatever the exception, and delivers the
    message, once, to every other client.  [TrafficDetector.broadcast_data],
    while no handler changes the set during the sends, does the same as
    long as every failure is a [ConnectionClosed]; when the send to some
    client raises another exception, the loop stops at the first such
    client: the exception leaves [broadcast_data], no client is removed,
    the message went to the clients served before whose send completed,
    and no client after that one is served. *)
Theorem C5_failure_isolation_by_variant
    (clients : gset nat) (send : SendBehaviour) :
  (let b := WebStreamer.broadcast_data clients send in
   raised b = None ∧
   (∀ c, c ∈ clients_after b ↔ c ∈ clients ∧ send c = None) ∧
   (∀ c e, c ∈ clients → send c = Some e → c ∉ clients_after b) ∧
   (∀ c, c ∈ delivered b ↔ c ∈ clients ∧ send c = None) ∧
   NoDup (delivered b)) ∧
  (let b := TrafficDetector.broadcast_data clients send in
   b = TrafficDetector.broadcast_data_live clients send quiet ∧
   ((∀ c e, c ∈ clients → send c = Some e → e = ExnConnectionClosed) →
    raised b = None ∧
    (∀ c, c ∈ clients_after b ↔ c ∈ clients ∧ send c = None) ∧
    (∀ c, c ∈ delivered b ↔ c ∈ clients ∧ send c = None) ∧
    NoDup (delivered b)) ∧
   ((∃ c, c ∈ clients ∧ send c = Some ExnOther) →
    ∃ pre c post,
      elements clients = pre ++ c :: post ∧ send c = Some ExnOther ∧
      raised b = Some ExnOther ∧
      clients_after b = clients ∧
      delivered b = filter (λ c', send c' = None) pre ∧
      (∀ c', c' ∈ post → c' ∉ delivered b))).
Proof.
  split; [apply web_streamer_broadcast_isolates|].
  cbv zeta. split_and!.
  - unfold TrafficDetector.broadcast_data_live.
    rewrite broadcast_live_quiet. reflexivity.
  - intros Hcc.
    assert (E : TrafficDetector.broadcast_data clients send
                = WebStreamer.broadcast_data clients send).
    { unfold TrafficDetector.broadcast_data, WebStreamer.broadcast_data.
      destruct (decide (clients = ∅)); [done|].
      rewrite send_loop_all_caught; [done|].
      intros c e Hc%elem_of_elements Hs. by rewrite (Hcc c e Hc Hs). }
    rewrite E.
    destruct (web_streamer_broadcast_isolates clients send)
      as (H1 & H2 & _ & H4 & H5). done.
  - intros (c & Hc & Hs).
    unfold TrafficDetector.broadcast_data.
    destruct (decide (clients = ∅)) as [->|Hne];
      [by apply elem_of_empty in Hc|].
    destruct (send_loop_stops TrafficDetector.catches send
                (elements clients) (mkSendLoop ∅ [] None))
      as (pre & c1 & e & post & He & H1 & H2 & H3 & H4).
    { exists c, ExnOther. by rewrite elem_of_elements. }
    change (λ e0, match e0 with ExnConnectionClosed => true
                  | ExnOther => false end) with TrafficDetector.catches.
    rewrite H3. simpl. destruct e; [done|]. rewrite H4. simpl.
    exists pre, c1, post. split_and!; try done.
    intros c' Hpost [_ Hpre]%list_elem_of_filter.
    pose proof (NoDup_elements clients) as Hnd. rewrite He in Hnd.
    apply NoDup_app in Hnd as (_ & Hnd & _).
    apply (Hnd c' Hpre). by apply list_elem_of_further.
Qed.

(** C5 as stated fails on [TrafficDetector]: with one client whose send
    raises an exception other than [ConnectionClosed], the exception leaves
    [broadcast_data] and the client stays in the set, where
    [YoloWebStreamer.broadcast_data] removes the client and returns; with
    two clients of which the one served first fails in that way, the other
    one, whose send would complete, receives nothing. *)
Lemma C5_detector_failure_propagates :
  TrafficDetector.broadcast_data {[7%nat]} (λ _, Some ExnOther)
    = mkBroadcast {[7%nat]} [] (Some ExnOther)
  ∧ WebStreamer.broadcast_data {[7%nat]} (λ _, Some ExnOther)
    = mkBroadcast ∅ [] None
  ∧ TrafficDetector.broadcast_data {[1%nat; 2%nat]}
      (λ c, if decide (c = 2%nat) then Some ExnOther else None)
    = mkBroadcast {[1%nat; 2%nat]} [] (Some ExnOther)
  ∧ WebStreamer.broadcast_data {[1%nat; 2%nat]}
      (λ c, if decide (c = 2%nat) then Some ExnOther else None)
    = mkBroadcast {[1%nat]} [1%nat] None.
Proof. split_and!; vm_compute; reflexivity. Qed.

(** A handler that runs during a send ends the loop over the set itself
    with [RuntimeError]: a client that connects while the only client of
    [TrafficDetector] is served; a client that disconnects while the first
    of two clients of [WorkingYoloDetector] is served, so that the second
    is not served. *)
Lemma handler_during_send_raises :
  TrafficDetector.broadcast_data_live {[1%nat]} (λ _, None)
    (λ _, Some (Joins 2))
    = mkBroadcast {[1%nat; 2%nat]} [1%nat] (Some RuntimeError)
  ∧ WorkingYolo.broadcast_data_live {[1%nat; 2%nat]} (λ _, None)
      (λ c, if decide (c = 2%nat) then Some (Leaves 1) else None)
    = mkBroadcast {[2%nat]} [2%nat] (Some RuntimeError).
Proof. split; vm_compute; reflexivity. Qed.

(** ** The frame counter of [generate_frames] *)

Section FrameCounter.

Import WebStreamer.

(** Within one pass of the video an iteration never lowers the counter, and
    what it publishes carries the counter it leaves, which is larger than
    the one it found. *)
Lemma iteration_frame_count (l l1 : Loop) (e : Event) (o : option Published) :
  same_pass e →
  iteration l e = Some (l1, o) →
  frame_count l ≤ frame_count l1 ∧
  ∀ p, o = Some p →
    frame_number (data p) = frame_count l1 ∧ frame_count l < frame_count l1.
Proof.
  intros Hp Hi.
  destruct e as [t|c t1 t2 t3 send|c|c]; [done|..];
    try (simpl in Hi; injection Hi as <- <-; simpl; split; [lia|done]).
  destruct (iteration_Frame_inv l c t1 t2 t3 send)
    as (s & h & _ & _ & _ & _ & [[_ E]|[_ [fps E]]]);
    rewrite E in Hi; injection Hi as <- <-; simpl.
  - split; [lia|done].
  - split; [lia|]. intros p [= <-]. simpl. lia.
Qed.

Lemma generate_frames_frame_numbers (es : list Event) (l l' : Loop)
    (ps : list Published) :
  Forall same_pass es →
  generate_frames l es = Some (l', ps) →
  frame_count l ≤ frame_count l' ∧
  StronglySorted Z.lt (frame_numbers ps) ∧
  Forall (λ k, frame_count l < k ≤ frame_count l') (frame_numbers ps).
Proof.
  intros Hes. revert l l' ps.
  induction Hes as [|e es He _ IH]; intros l l' ps; simpl.
  - intros [= <- <-]. split_and!; [lia|constructor|constructor].
  - destruct (iteration l e) as [[l1 o]|] eqn:E1; [|done]. simpl.
    destruct (generate_frames l1 es) as [[l2 ps2]|] eqn:E2; [|done]. simpl.
    intros [= <- <-].
    destruct (iteration_frame_count _ _ _ _ He E1) as [H1 Ho].
    destruct (IH _ _ _ E2) as (H2 & Hs & Hf).
    assert (Hf' : Forall (λ k, frame_count l < k ≤ frame_count l2)
                    (frame_numbers ps2)).
    { eapply Forall_impl; [exact Hf|]. simpl. intros k Hk. lia. }
    destruct o as [p|]; simpl.
    + destruct (Ho p eq_refl) as [Hn Hlt].
      split_and!; [lia| |].
      * constructor; [done|]. rewrite Hn.
        eapply Forall_impl; [exact Hf|]. simpl. intros k Hk. lia.
      * constructor; [lia|done].
    + split_and!; [lia|done|done].
Qed.

End FrameCounter.




(** ** A failing detector call in [WorkingYoloDetector] *)

(** C9 (as the code has it).  When the detector raises on a frame,
    [process_video] goes on with [vehicle_count = 0]: the frame is handled
    exactly as a successful detection of no vehicle.  The count 0 enters
    the window, the dictionary of this frame is built and broadcast with
    [vehicle_count] 0, level low and the mean of the new window, the frame
    counter advances, and the signal logic runs on the timer advanced by
    [current_time - last_time]. *)
Theorem C9_detector_failure_counts_as_zero
    (self : WorkingYolo.State) (last_time current_time : Q)
    (send : SendBehaviour) :
  ∃ s' d b h,
    WorkingYolo.process_frame self last_time current_time None send
      = Some (s', current_time, d, b) ∧
    WorkingYolo.process_frame self last_time current_time None send
      = WorkingYolo.process_frame self last_time current_time (Some 0) send ∧
    append_history (WorkingYolo.vehicle_counts self) 0 = Some h ∧
    WorkingYolo.vehicle_counts s' = h ∧
    last h = Some 0 ∧
    WorkingYolo.vehicle_count d = 0 ∧
    WorkingYolo.congestion_level d = low ∧
    WorkingYolo.avg_vehicle_count d = arithmetic_mean h ∧
    WorkingYolo.data_frame_count d = WorkingYolo.frame_count self + 1 ∧
    (WorkingYolo.current_signal s', WorkingYolo.signal_timer s')
      = WorkingYolo.signal_logic (WorkingYolo.current_signal self)
          (WorkingYolo.signal_timer self + (current_time - last_time))%Q low ∧
    b = WorkingYolo.broadcast_data (WorkingYolo.websocket_clients self) send.
Proof.
  destruct (append_history (WorkingYolo.vehicle_counts self) 0)
    as [h|] eqn:Hh; [|by rewrite append_history_Some in Hh].
  pose proof (append_history_nonempty _ _ _ Hh) as Hne.
  unfold WorkingYolo.process_frame. simpl. rewrite Hh. simpl.
  change (classify (inject_Z 0)) with low.
  destruct (WorkingYolo.signal_logic _ _ low) as [sg timer'] eqn:Hl.
  rewrite (avg_vehicles_nonempty h Hne). simpl.
  eexists _, _, _, h. split; [reflexivity|]. simpl.
  split_and!; try done.
  rewrite append_history_Some in Hh. injection Hh as <-.
  destruct (WorkingYolo.vehicle_counts self) as [|x r]; [done|].
  destruct (30 <? _);
    [change (drop 1 ((x :: r) ++ [0])) with (r ++ [0])|]; apply last_snoc.
Qed.

(** C9 as stated fails: after a frame with 20 vehicles, a frame on which
    the detector raises is not skipped.  The window grows from [[20]] to
    [[20; 0]], and the published count, average and level change from
    20, 20, high to 0, 10, low. *)
Lemma C9_detector_failure_is_recorded :
  match WorkingYolo.process_frame WorkingYolo.init 0 1 (Some 20) (λ _, None)
  with
  | Some (s1, last_time, d1, _) =>
      WorkingYolo.vehicle_counts s1 = [20] ∧
      WorkingYolo.vehicle_count d1 = 20 ∧
      WorkingYolo.avg_vehicle_count d1 = (20 # 1)%Q ∧
      WorkingYolo.congestion_level d1 = high ∧
      match WorkingYolo.process_frame s1 last_time 2 None (λ _, None) with
      | Some (s2, _, d2, _) =>
          WorkingYolo.vehicle_counts s2 = [20; 0] ∧
          WorkingYolo.vehicle_count d2 = 0 ∧
          WorkingYolo.avg_vehicle_count d2 = (20 # 2)%Q ∧
          WorkingYolo.congestion_level d2 = low ∧
          d2 ≠ d1
      | None => False
      end
  | None => False
  end.
Proof. vm_compute. split_and!; try reflexivity. discriminate. Qed.

(** ** The counting loops *)

Section Detections.

(** A counting loop adds the number of boxes that pass the test. *)
Lemma count_loop (P : Box → bool) (bs : list Box) (a : Z) :
  fold_left (λ n box, if P box then n + 1 else n) bs a
    = a + Py.len (filter (λ b, P b = true) bs).
Proof.
  revert a. induction bs as [|b bs IH]; intros a; simpl.
  - unfold Py.len. simpl. lia.
  - rewrite IH, filter_cons. unfold Py.len.
    destruct (P b); simpl.
    + destruct (decide (true = true)) as [_|?]; [|done].
      simpl length. lia.
    + destruct (decide (false = true)) as [?|_]; [done|]. lia.
Qed.

Lemma count_results (P : Box → bool) (results : list Result) (a : Z) :
  fold_left
    (λ vehicle_count result,
       match boxes result with
       | Some bs =>
           fold_left (λ n box, if P box then n + 1 else n) bs vehicle_count
       | None => vehicle_count
       end)
    results a
    = a + Py.len (filter (λ b, P b = true) (all_boxes results)).
Proof.
  revert a. induction results as [|[[bs|]] rs IH]; intros a; simpl.
  - unfold Py.len. simpl. lia.
  - rewrite IH, count_loop. unfold all_boxes. simpl.
    rewrite filter_app. unfold Py.len. rewrite length_app. lia.
  - rewrite IH. done.
Qed.

Lemma collect_loop (P : Box → bool) (bs : list Box)
    (vs : list DetectorDetections.Vehicle) :
  fold_left
    (λ vs box, if P box then vs ++ [DetectorDetections.vehicle_of box] else vs)
    bs vs
    = vs ++ (DetectorDetections.vehicle_of <$> filter (λ b, P b = true) bs).
Proof.
  revert vs. induction bs as [|b bs IH]; intros vs; simpl.
  - by rewrite app_nil_r.
  - rewrite IH, filter_cons. destruct (P b); simpl.
    + destruct (decide (true = true)) as [_|?]; [|done].
      by rewrite <- app_assoc.
    + destruct (decide (false = true)) as [?|_]; done.
Qed.

Lemma filter_length_mono {A} (P Q : A → Prop)
    `{∀ x, Decision (P x)} `{∀ x, Decision (Q x)} (l : list A) :
  (∀ x, P x → Q x) →
  (length (filter P l) ≤ length (filter Q l))%nat.
Proof.
  intros HPQ. induction l as [|x l IH]; [done|].
  rewrite !filter_cons.
  destruct (decide (P x)) as [HP|HP]; destruct (decide (Q x)) as [HQ|HQ];
    simpl; try lia.
  exfalso. auto.
Qed.

Lemma is_vehicle_true (classes : list Z) (threshold : Q) (b : Box) :
  is_vehicle classes threshold b = true ↔
  box_cls b ∈ classes ∧ (threshold < box_conf b)%Q.
Proof.
  unfold is_vehicle. rewrite andb_true_iff, bool_decide_eq_true.
  destruct (Qlt_le_dec threshold (box_conf b)) as [H|H].
  - tauto.
  - split; [intros [_ ?]; done|].
    intros [_ H']. exfalso. exact (Qle_not_lt _ _ H H').
Qed.

End Detections.

(** The nested loops of [detect_vehicles] as one filter. *)
Lemma detect_vehicles_fold (results : list Result) :
  DetectorDetections.detect_vehicles results
    = DetectorDetections.vehicle_of <$>
        filter (λ b, box_cls b ∈ [2; 3; 5; 7] ∧ (1 # 2 < box_conf b)%Q)
          (all_boxes results).
Proof.
  unfold DetectorDetections.detect_vehicles.
  assert (G : ∀ rs vs,
    fold_left
      (λ vehicles result,
         match boxes result with
         | Some bs =>
             fold_left
               (λ vs box,
                  if is_vehicle DetectorDetections.vehicle_classes
                       (1 # 2) box
                  then vs ++ [DetectorDetections.vehicle_of box] else vs)
               bs vehicles
         | None => vehicles
         end) rs vs
    = vs ++ (DetectorDetections.vehicle_of <$>
               filter (λ b, box_cls b ∈ [2; 3; 5; 7]
                            ∧ (1 # 2 < box_conf b)%Q) (all_boxes rs))).
  { induction rs as [|[[bs|]] rs IH]; intros vs; simpl.
    - by rewrite app_nil_r.
    - rewrite IH, collect_loop. unfold all_boxes. simpl.
      rewrite filter_app, fmap_app, <- app_assoc. do 3 f_equal.
      apply list_filter_iff. intros b. apply is_vehicle_true.
    - by rewrite IH. }
  by rewrite G.
Qed.

(** X1.  [TrafficDetector.detect_vehicles] returns, in the order the model
    reported them, exactly the boxes whose class is car, motorcycle, bus or
    truck (2, 3, 5, 7) and whose confidence is above 0.5; results whose
    [boxes] is [None] contribute nothing. *)
Theorem detect_vehicles_is_filter (results : list Result) :
  DetectorDetections.detect_vehicles results
    = DetectorDetections.vehicle_of <$>
        filter (λ b, box_cls b ∈ [2; 3; 5; 7] ∧ (1 # 2 < box_conf b)%Q)
          (all_boxes results)
  ∧ ∀ v, v ∈ DetectorDetections.detect_vehicles results →
      DetectorDetections.class v ∈ [2; 3; 5; 7] ∧
      (1 # 2 < DetectorDetections.confidence v)%Q.
Proof.
  pose proof (detect_vehicles_fold results) as E.
  split; [exact E|].
  intros v. rewrite E, list_elem_of_fmap.
  intros (b & -> & Hb%list_elem_of_filter). destruct Hb as [[Hc Hq] _].
  unfold DetectorDetections.vehicle_of.
  destruct (box_xyxy b) as [[[x1 y1] x2] y2]. done.
Qed.

(** X2.  On the same model output the three counting loops are ordered: the
    count of [working_yolo.py] equals the [len(vehicles)] of
    [TrafficDetector], neither is negative, neither exceeds the count of
    [YoloWebStreamer.draw_detections] (which also admits bicycles and
    confidences above 0.3), and that one never exceeds the number of
    boxes. *)
Theorem detection_counts_ordered (results : list Result) :
  0 ≤ WorkingYoloDetections.count results ∧
  WorkingYoloDetections.count results
    = DetectorDetections.vehicle_count results ∧
  DetectorDetections.vehicle_count results
    ≤ StreamerDetections.draw_detections results ∧
  StreamerDetections.draw_detections results ≤ Py.len (all_boxes results).
Proof.
  pose proof (detect_vehicles_fold results) as E.
  unfold DetectorDetections.vehicle_count, WorkingYoloDetections.count,
    StreamerDetections.draw_detections.
  rewrite !count_results, E. unfold Py.len. rewrite length_fmap.
  assert (F : filter (λ b, is_vehicle WorkingYoloDetections.vehicle_classes
                             (1 # 2) b = true) (all_boxes results)
              = filter (λ b, box_cls b ∈ [2; 3; 5; 7]
                             ∧ (1 # 2 < box_conf b)%Q) (all_boxes results)).
  { apply list_filter_iff. intros b. apply is_vehicle_true. }
  rewrite F.
  assert (M : Nat.le
                (length (filter (λ b, box_cls b ∈ [2; 3; 5; 7]
                                      ∧ (1 # 2 < box_conf b)%Q)
                           (all_boxes results)))
                (length (filter (λ b, is_vehicle
                                        StreamerDetections.vehicle_classes
                                        (3 # 10) b = true)
                           (all_boxes results)))).
  { apply filter_length_mono. intros b [Hc Hq]. apply is_vehicle_true.
    split.
    - unfold StreamerDetections.vehicle_classes.
      apply elem_of_cons. by right.
    - eapply Qlt_trans; [|exact Hq]. reflexivity. }
  pose proof (length_filter
                (λ b, is_vehicle StreamerDetections.vehicle_classes
                        (3 # 10) b = true) (all_boxes results)) as L.
  split_and!; lia.
Qed.

(** ** More on the signal logic *)

(** X3.  After every call the timer is at most the dwell time of the state
    the signal is then in, hence at most 35 seconds: for
    [YoloWebStreamer.update_traffic_signal] (whose timer is also not
    negative when the clock has not gone back behind [last_signal_time])
    and for [TrafficDetector]'s tick. *)
Theorem timer_never_exceeds_dwell
    (s : WebStreamer.State) (now : Q) (count : Z)
    (st : Signal * Q) (delta_time : Q) (c : Congestion) :
  (∃ s' lvl,
     WebStreamer.update_traffic_signal s now count = Some (s', lvl) ∧
     (WebStreamer.signal_timer s'
        <= inject_Z (SignalTimings.dwell (WebStreamer.current_signal s') lvl))%Q ∧
     (WebStreamer.signal_timer s' <= 35)%Q ∧
     ((WebStreamer.last_signal_time s <= now)%Q →
      (0 <= WebStreamer.signal_timer s')%Q)) ∧
  (let st' := TrafficDetector.tick st delta_time c in
   (snd st' <= inject_Z (SignalTimings.dwell (fst st') c))%Q ∧
   (snd st' <= 35)%Q).
Proof.
  split.
  - destruct (update_traffic_signal_inv s now count)
      as (s' & h & _ & _ & Hu & _ & _ & Hc).
    exists s', (classify (arithmetic_mean h)). split; [done|].
    cbv zeta in Hc.
    destruct Hc as [(_ & -> & -> & _)|(G & -> & -> & _)].
    + pose proof (dwell_bounds (next_signal (WebStreamer.current_signal s))
                    (classify (arithmetic_mean h))) as [B1 B2].
      split_and!; [lra|lra|intros _; lra].
    + apply gt_int_false in G.
      pose proof (dwell_bounds (WebStreamer.current_signal s)
                    (classify (arithmetic_mean h))) as [B1 B2].
      split_and!; [done|lra|intros H; lra].
  - cbv zeta. unfold TrafficDetector.tick. rewrite detector_update_dwell.
    destruct st as [sg timer]. simpl.
    destruct (Py.gt_int (timer + delta_time) (SignalTimings.dwell sg c))
      eqn:G; simpl.
    + pose proof (dwell_bounds (next_signal sg) c) as [B1 B2].
      split; lra.
    + apply gt_int_false in G.
      pose proof (dwell_bounds sg c) as [B1 B2]. split; [done|lra].
Qed.

Section Liveness.

Lemma run_ticks_count_mono (dts : list Q) (st : Signal * Q) (n : nat)
    (c : Congestion) :
  (n ≤ snd (run_ticks st n c dts))%nat.
Proof.
  revert st n. induction dts as [|dt dts IH]; intros st n; simpl; [done|].
  etrans; [|apply IH]. destruct (decide _); lia.
Qed.

End Liveness.

(** X4.  The signal cannot be starved: in any non-empty run of
    [TrafficDetector] ticks at a constant congestion level, if the timer
    plus the accumulated tick time exceeds the dwell time of the current
    state, the signal changes at least once. *)
Theorem signal_changes_once_dwell_is_exceeded
    (dts : list Q) (st : Signal * Q) (n : nat) (c : Congestion) :
  dts ≠ [] →
  (inject_Z (SignalTimings.dwell (fst st) c) < snd st + accumulated dts)%Q →
  (n < snd (run_ticks st n c dts))%nat.
Proof.
  revert st n. induction dts as [|dt dts IH]; intros [sg timer] n Hne H;
    [done|].
  simpl in *. unfold TrafficDetector.tick. simpl.
  rewrite detector_update_dwell.
  destruct (Py.gt_int (timer + dt) (SignalTimings.dwell sg c)) eqn:G; simpl.
  - destruct (decide (next_signal sg = sg)) as [E|_];
      [by apply next_signal_ne in E|].
    apply run_ticks_count_mono.
  - apply gt_int_false in G.
    destruct (decide (sg = sg)) as [_|?]; [|done].
    destruct dts as [|dt' dts].
    + simpl in H. exfalso. lra.
    + apply IH; [done|]. simpl in *. lra.
Qed.

(** Two ticks of twenty seconds in green at low congestion. *)
Lemma signal_changes_once_dwell_is_exceeded_witness :
  (0 < snd (run_ticks (green, 0%Q) 0 low [20%Q; 20%Q]))%nat.
Proof.
  apply (signal_changes_once_dwell_is_exceeded [20%Q; 20%Q] (green, 0%Q) 0 low).
  - discriminate.
  - reflexivity.
Defined.

Section CycleWindow.

Lemma cycle_window_proper (c : Congestion) (delta T T' : Q) (n : nat)
    (st : Signal * Q) :
  (T == T')%Q → cycle_window_inv c delta T n st →
  cycle_window_inv c delta T' n st.
Proof.
  intros E (H0 & H1 & Hn). split_and!; [done|done|].
  destruct n as [|[|[|n]]]; cbv zeta in *.
  - destruct Hn as [Hs Hn]. split; [done|lra].
  - destruct Hn as (Hs & Hl & Hu). split_and!; [done|lra|lra].
  - destruct Hn as (Hs & Hl & Hu). split_and!; [done|lra|lra].
  - lra.
Qed.

Lemma tick_cycle_window (c : Congestion) (delta T dt : Q) (n : nat)
    (st : Signal * Q) :
  (0 <= dt)%Q → (dt <= delta)%Q → cycle_window_inv c delta T n st →
  let st' := TrafficDetector.tick st dt c in
  cycle_window_inv c delta (T + dt)
    (if decide (fst st' = fst st) then n else S n) st'.
Proof.
  intros Hdt Hdelta (H0 & H1 & Hn). destruct st as [s timer].
  cbn [fst snd] in H0, H1, Hn. cbv zeta.
  unfold TrafficDetector.tick. rewrite detector_update_dwell. simpl.
  destruct (Py.gt_int (timer + dt) (SignalTimings.dwell s c)) eqn:G.
  - apply gt_int_true in G. simpl.
    destruct (decide (next_signal s = s)) as [E|_]; [by destruct s|].
    pose proof (dwell_bounds (next_signal s) c) as [B1 B2].
    unfold cycle_window_inv. simpl. split_and!; [lra|lra|].
    destruct n as [|[|[|n]]]; cbv zeta in Hn.
    + destruct Hn as [-> Hn]. simpl in *. split_and!; [done|lra|lra].
    + destruct Hn as (-> & Hl & Hu). simpl in *.
      unfold SignalTimings.yellow_timing, inject_Z in G, H1.
      split_and!; [done|lra|lra].
    + destruct Hn as (-> & Hl & Hu). simpl in *. lra.
    + lra.
  - apply gt_int_false in G. simpl.
    destruct (decide (s = s)) as [_|E]; [|done].
    unfold cycle_window_inv. simpl. split_and!; [lra|done|].
    destruct n as [|[|[|n]]]; cbv zeta in Hn.
    + destruct Hn as [-> Hn]. split; [done|lra].
    + destruct Hn as (-> & Hl & Hu). split_and!; [done|lra|lra].
    + destruct Hn as (-> & Hl & Hu). split_and!; [done|lra|lra].
    + lra.
Qed.

Lemma run_ticks_cycle_window (c : Congestion) (delta : Q) (dts : list Q)
    (T : Q) (n : nat) (st : Signal * Q) :
  Forall (λ dt, (0 <= dt)%Q ∧ (dt <= delta)%Q) dts →
  cycle_window_inv c delta T n st →
  cycle_window_inv c delta (T + accumulated dts)
    (snd (run_ticks st n c dts)) (fst (run_ticks st n c dts)).
Proof.
  intros Hdts. revert T n st.
  induction Hdts as [|dt dts [Hdt Hdelta] _ IH]; intros T n st Hinv; simpl.
  - apply (cycle_window_proper c delta T); [lra|done].
  - apply (cycle_window_proper c delta (T + dt + accumulated dts)); [lra|].
    apply IH. by apply tick_cycle_window.
Qed.

End CycleWindow.

(** X5.  At any constant congestion level, start [TrafficDetector]'s
    controller in green with timer 0 and tick it with intervals between 0
    and [delta].  If the signal has changed three times (a full cycle), the
    accumulated time exceeds the sum of the three dwell times (48 seconds
    at low and medium, 53 at high); and once the accumulated time exceeds
    that sum by more than [2 * delta], the signal has changed three
    times. *)
Theorem full_cycle_time_window
    (c : Congestion) (delta : Q) (dts : list Q) (st : Signal * Q) (n : nat) :
  (0 <= delta)%Q →
  Forall (λ dt, (0 <= dt)%Q ∧ (dt <= delta)%Q) dts →
  run_ticks (green, 0%Q) 0 c dts = (st, n) →
  ((3 ≤ n)%nat → (inject_Z (cycle_total c) < accumulated dts)%Q) ∧
  ((inject_Z (cycle_total c) + 2 * delta < accumulated dts)%Q → (3 ≤ n)%nat).
Proof.
  intros Hdelta Hdts Hrun.
  assert (Hinit : cycle_window_inv c delta 0 0 (green, 0%Q)).
  { pose proof (dwell_bounds green c) as [B1 B2].
    unfold cycle_window_inv. cbn [fst snd].
    split; [lra|split; [by apply Qlt_le_weak|split; [done|lra]]]. }
  pose proof (run_ticks_cycle_window c delta dts 0 0 (green, 0%Q) Hdts Hinit)
    as (H0 & H1 & H).
  rewrite Hrun in H0, H1, H. simpl in H0, H1, H.
  assert (Ht : (inject_Z (cycle_total c)
                == inject_Z (SignalTimings.green_timing c) + 3
                   + inject_Z (SignalTimings.red_timing c))%Q).
  { destruct c; reflexivity. }
  destruct st as [sg timer]. simpl in *.
  split.
  - intros Hn. destruct n as [|[|[|n]]]; try lia. cbv zeta in H. lra.
  - intros Hacc. destruct n as [|[|[|n]]]; try lia; exfalso; cbv zeta in H.
    + destruct H as [-> H]. simpl in H1.
      assert ((0 <= inject_Z (SignalTimings.red_timing c))%Q)
        by (destruct c; discriminate).
      lra.
    + destruct H as (-> & Hl & Hu). simpl in H1.
      unfold SignalTimings.yellow_timing, inject_Z in H1. 
      assert ((0 <= inject_Z (SignalTimings.red_timing c))%Q)
        by (destruct c; discriminate).
      lra.
    + destruct H as (-> & Hl & Hu). simpl in H1. lra.
Qed.

(** Ticks of one second at low congestion: the cycle is complete after 51
    seconds, between 48 and 48 + 3. *)
Lemma full_cycle_time_window_witness :
  run_ticks (green, 0%Q) 0 low (repeat 1%Q 51) = ((green, 0%Q), 3%nat) ∧
  (inject_Z (cycle_total low) < accumulated (repeat 1%Q 51))%Q.
Proof.
  assert (R : run_ticks (green, 0%Q) 0 low (repeat 1%Q 51)
              = ((green, 0%Q), 3%nat)) by (vm_compute; reflexivity).
  split; [exact R|].
  refine (proj1 (full_cycle_time_window low 1 (repeat 1%Q 51) (green, 0%Q) 3
                   _ _ R) _).
  - discriminate.
  - apply Forall_forall. intros x Hx%list_elem_of_In%repeat_spec. subst x.
    split; discriminate.
  - lia.
Defined.

(** ** The variants side by side *)

(** X6.  [YoloVideoDisplay.update_traffic_signal] and
    [YoloWebStreamer.update_traffic_signal], run on the same attributes at
    the same clock reading with the same count, return the same congestion
    level and leave the same window; they leave the same signal, timer and
    [last_signal_time] unless the elapsed time is exactly the dwell time,
    in which case the display moves to the next state and the streamer
    stays. *)
Theorem display_and_streamer_differ_only_at_equality
    (s : WebStreamer.State) (now : Q) (count : Z) :
  ∃ s' d' lvl,
    WebStreamer.update_traffic_signal s now count = Some (s', lvl) ∧
    VideoDisplay.update_traffic_signal
      (VideoDisplay.mkState (WebStreamer.current_signal s)
         (WebStreamer.signal_timer s) (WebStreamer.last_signal_time s)
         (WebStreamer.vehicle_history s)) now count = Some (d', lvl) ∧
    VideoDisplay.vehicle_history d' = WebStreamer.vehicle_history s' ∧
    let elapsed := (now - WebStreamer.last_signal_time s)%Q in
    let d := inject_Z (SignalTimings.dwell (WebStreamer.current_signal s) lvl) in
    (¬ (elapsed == d)%Q →
       d' = VideoDisplay.mkState (WebStreamer.current_signal s')
              (WebStreamer.signal_timer s') (WebStreamer.last_signal_time s')
              (WebStreamer.vehicle_history s')) ∧
    ((elapsed == d)%Q →
       VideoDisplay.current_signal d'
         = next_signal (WebStreamer.current_signal s) ∧
       WebStreamer.current_signal s' = WebStreamer.current_signal s).
Proof.
  destruct (append_history (WebStreamer.vehicle_history s) count)
    as [h|] eqn:Hh; [|by rewrite append_history_Some in Hh].
  pose proof (append_history_nonempty _ _ _ Hh) as Hne.
  unfold WebStreamer.update_traffic_signal, VideoDisplay.update_traffic_signal.
  simpl. rewrite Hh. simpl. rewrite (avg_vehicles_nonempty h Hne). simpl.
  eexists _, _, _. split; [reflexivity|]. split; [reflexivity|].
  set (lvl := classify (arithmetic_mean h)).
  set (elapsed := (now - WebStreamer.last_signal_time s)%Q).
  assert (K : ∀ n : Z,
    (Py.gt_int elapsed n = true ∧ Py.ge_int elapsed n = true
       ∧ ¬ (elapsed == inject_Z n)%Q)
    ∨ (Py.gt_int elapsed n = false ∧ Py.ge_int elapsed n = false
       ∧ ¬ (elapsed == inject_Z n)%Q)
    ∨ (Py.gt_int elapsed n = false ∧ Py.ge_int elapsed n = true
       ∧ (elapsed == inject_Z n)%Q)).
  { intros n. destruct (Py.gt_int elapsed n) eqn:G;
      destruct (Py.ge_int elapsed n) eqn:G'.
    - left. split_and!; [done|done|].
      apply gt_int_true in G. intros E. rewrite E in G.
      exact (Qlt_irrefl _ G).
    - exfalso. apply gt_int_true in G.
      assert (Py.ge_int elapsed n = true)
        by (apply ge_int_true; by apply Qlt_le_weak).
      congruence.
    - right. right. split_and!; [done|done|].
      apply gt_int_false in G. apply ge_int_true in G'.
      by apply Qle_antisym.
    - right. left. split_and!; [done|done|].
      intros E. assert (Py.ge_int elapsed n = true)
        by (apply ge_int_true; rewrite E; apply Qle_refl).
      congruence. }
  destruct (WebStreamer.current_signal s); simpl;
    match goal with |- context [Py.gt_int elapsed ?n] =>
      destruct (K n) as [(-> & -> & Hk)|[(-> & -> & Hk)|(-> & -> & Hk)]]
    end; simpl; (split; [done|]); split; try done; intros E; by exfalso.
Qed.

(** X7.  The signal logic of [working_yolo.py] (and [simple_yolo.py]) is
    the logic of [TrafficDetector] in the green and yellow states; in the
    red state it tests the timer against the green durations (30, 20, 15
    seconds), not the red ones (15, 25, 35). *)
Theorem working_yolo_red_uses_green_table
    (s : Signal) (timer : Q) (lvl : Congestion) :
  (s ≠ red →
     WorkingYolo.signal_logic s timer lvl
       = TrafficDetector.update_traffic_signal s timer lvl) ∧
  WorkingYolo.signal_logic red timer lvl
    = (if Py.gt_int timer (SignalTimings.green_timing lvl)
       then (green, 0%Q) else (red, timer)).
Proof.
  split.
  - intros Hs. unfold WorkingYolo.signal_logic.
    destruct s; [| |done]; simpl.
    + change (WorkingYolo.signal_timings lvl)
        with (SignalTimings.green_timing lvl).
      by destruct (Py.gt_int timer (SignalTimings.green_timing lvl)).
    + change 3 with SignalTimings.yellow_timing.
      by destruct (Py.gt_int timer SignalTimings.yellow_timing).
  - unfold WorkingYolo.signal_logic. simpl.
    change (WorkingYolo.signal_timings lvl)
      with (SignalTimings.green_timing lvl).
    by destruct (Py.gt_int timer (SignalTimings.green_timing lvl)).
Qed.

(** X8.  On a window of at most 30 entries the hand-written
    [append] / [pop(0)] of [YoloWebStreamer], [YoloVideoDisplay] and
    [working_yolo.py] and the [deque(maxlen=30)] of [TrafficDetector]
    produce the same window. *)
Theorem list_window_equals_deque (h : list Z) (c : Z) :
  (length h ≤ 30)%nat →
  append_history h c = Some (TrafficDetector.deque_append 30 h c).
Proof.
  intros L. rewrite append_history_Some. f_equal.
  unfold TrafficDetector.deque_append, Py.len. rewrite length_app.
  simpl length.
  destruct (Z.of_nat (length h) =? 30) eqn:E.
  - apply Z.eqb_eq in E.
    rewrite (proj2 (Z.ltb_lt _ _)) by lia.
    rewrite drop_app_le by lia. by destruct h.
  - apply Z.eqb_neq in E. rewrite (proj2 (Z.ltb_ge _ _)) by lia. done.
Qed.

Lemma list_window_equals_deque_witness :
  append_history [4; 5] 6 = Some (TrafficDetector.deque_append 30 [4; 5] 6).
Proof. apply (list_window_equals_deque [4; 5] 6). simpl. lia. Defined.

(** X9.  One frame of [TrafficDetector.process_video] on windows within
    their bounds (30 counts, 10 levels) always produces its dictionary and
    keeps both bounds; the published average is the arithmetic mean of the
    new count window, whose last entry is the current count, while the
    published level is the level of the current count alone; and the
    published timer is at most the dwell time of the published signal. *)
Theorem traffic_detector_frame_invariants
    (self : TrafficDetector.State) (last_time current_time : Q)
    (count : Z) (send : SendBehaviour) :
  (length (TrafficDetector.vehicle_counts self) ≤ 30)%nat →
  (length (TrafficDetector.congestion_history self) ≤ 10)%nat →
  ∃ s' d b,
    TrafficDetector.process_frame self last_time current_time count send
      = Some (s', current_time, d, b) ∧
    (length (TrafficDetector.vehicle_counts s') ≤ 30)%nat ∧
    (length (TrafficDetector.congestion_history s') ≤ 10)%nat ∧
    last (TrafficDetector.vehicle_counts s') = Some count ∧
    last (TrafficDetector.congestion_history s')
      = Some (TrafficDetector.congestion_level d) ∧
    TrafficDetector.avg_vehicle_count d
      = arithmetic_mean (TrafficDetector.vehicle_counts s') ∧
    TrafficDetector.congestion_level d = classify (inject_Z count) ∧
    (TrafficDetector.data_signal_timer d
       <= inject_Z (SignalTimings.dwell (TrafficDetector.traffic_signal d)
                      (TrafficDetector.congestion_level d)))%Q.
Proof.
  intros L30 L10.
  assert (D : ∀ {A} (m : nat) (d : list A) (x : A),
            (0 < m)%nat → (length d ≤ m)%nat →
            (length (TrafficDetector.deque_append (Z.of_nat m) d x) ≤ m)%nat ∧
            last (TrafficDetector.deque_append (Z.of_nat m) d x) = Some x ∧
            TrafficDetector.deque_append (Z.of_nat m) d x ≠ []).
  { intros A m d x Hm Hd. unfold TrafficDetector.deque_append, Py.len.
    destruct (Z.of_nat (length d) =? Z.of_nat m) eqn:E.
    - apply Z.eqb_eq in E. rewrite length_app, last_snoc.
      destruct d; simpl in *; [lia|].
      split_and!; [lia|done|by destruct d].
    - apply Z.eqb_neq in E. rewrite length_app, last_snoc. simpl.
      split_and!; [lia|done|by destruct d]. }
  destruct (D Z 30%nat (TrafficDetector.vehicle_counts self) count)
    as (C1 & C2 & C3); [lia|lia|].
  destruct (D Congestion 10%nat (TrafficDetector.congestion_history self)
              (TrafficDetector.calculate_congestion_level count))
    as (G1 & G2 & _); [lia|lia|].
  change (Z.of_nat 30) with 30 in *. change (Z.of_nat 10) with 10 in *.
  unfold TrafficDetector.process_frame.
  pose proof (timer_after_tick :=
    detector_update_dwell (TrafficDetector.current_signal self)
      (TrafficDetector.signal_timer self + (current_time - last_time))
      (TrafficDetector.calculate_congestion_level count)).
  unfold TrafficDetector.tick. simpl fst. simpl snd.
  destruct (TrafficDetector.update_traffic_signal _ _ _) as [sg timer] eqn:U.
  rewrite (avg_vehicles_nonempty _ C3). simpl.
  eexists _, _, _. split; [reflexivity|]. simpl.
  split_and!; try done.
  destruct (Py.gt_int _ _) eqn:G in timer_after_tick;
    injection timer_after_tick as -> ->.
  - pose proof (dwell_bounds
                  (next_signal (TrafficDetector.current_signal self))
                  (TrafficDetector.calculate_congestion_level count))
      as [B _]. by apply Qlt_le_weak.
  - by apply gt_int_false in G.
Qed.

Lemma traffic_detector_frame_invariants_witness :
  ∃ s' d b,
    TrafficDetector.process_frame TrafficDetector.init 0 1 7 (λ _, None)
      = Some (s', 1%Q, d, b) ∧
    TrafficDetector.vehicle_counts s' = [7] ∧
    TrafficDetector.congestion_level d = medium.
Proof.
  destruct (traffic_detector_frame_invariants TrafficDetector.init 0 1 7
              (λ _, None)) as (s' & d & b & E & _ & _ & Hl & _ & _ & Hc & _);
    [simpl; lia|simpl; lia|].
  exists s', d, b. split; [exact E|].
  vm_compute in E. injection E as <- <- <-. split; reflexivity.
Defined.

(** ** Clients over a run of [generate_frames] *)

Section Hub.

Import WebStreamer.

(** Membership after a broadcast whose handlers catch everything. *)
Lemma broadcast_data_members (clients : gset nat) (send : SendBehaviour) :
  (∀ c, c ∈ clients_after (broadcast_data clients send)
        ↔ c ∈ clients ∧ send c = None) ∧
  (∀ c, c ∈ delivered (broadcast_data clients send)
        ↔ c ∈ clients ∧ send c = None).
Proof.
  unfold broadcast_data.
  destruct (decide (clients = ∅)) as [->|Hne]; simpl.
  - split; intros c; rewrite ?elem_of_nil, elem_of_empty; tauto.
  - destruct (send_loop_catch_all send (elements clients)
                (mkSendLoop ∅ [] None) eq_refl) as (H1 & H2 & H3).
    rewrite H1. simpl. rewrite H2, H3. simpl. split; intros c.
    + rewrite elem_of_difference, elem_of_union, elem_of_list_to_set,
        list_elem_of_filter, elem_of_elements, elem_of_empty.
      destruct (send c) eqn:E; split.
      * intros [Hc Hn]. exfalso. apply Hn. left. split; [congruence|done].
      * intros [_ ?]. congruence.
      * intros [Hc _]. done.
      * intros [Hc _]. split; [done|]. intros [[Hn _]|[]]. congruence.
    + rewrite list_elem_of_filter, elem_of_elements. tauto.
Qed.

(** One iteration on a frame, with the client set and the fps figure
    spelled out. *)
Lemma iteration_Frame_full (l : Loop) (c : Z) (t1 t2 t3 : Q)
    (send : SendBehaviour) :
  ∃ s h,
    update_traffic_signal (self l) t1 c
      = Some (s, classify (arithmetic_mean h)) ∧
    vehicle_history s = h ∧
    websocket_clients s = websocket_clients (self l) ∧
    let fps :=
      if Qlt_le_dec 0 (t2 - start_time l)
      then (inject_Z (frame_count l + 1) / (t2 - start_time l))%Q
      else 0%Q in
    let b := broadcast_data (websocket_clients (self l)) send in
    ((websocket_clients (self l) = ∅ ∧
      iteration l (Frame c t1 t2 t3 send)
        = Some (mkLoop s (frame_count l + 1) (start_time l), None))
     ∨
     (websocket_clients (self l) ≠ ∅ ∧
      iteration l (Frame c t1 t2 t3 send)
        = Some (mkLoop
                  (mkState (current_signal s) (signal_timer s)
                     (last_signal_time s) (vehicle_history s)
                     (clients_after b))
                  (frame_count l + 1) (start_time l),
                Some (mkPublished
                        (mkData t3 c (arithmetic_mean h)
                           (classify (arithmetic_mean h))
                           (current_signal s) (signal_timer s) fps
                           (frame_count l + 1))
                        b)))).
Proof.
  destruct (update_traffic_signal_inv (self l) t1 c)
    as (s & h & _ & Hne & Hu & Hs & Hc & _).
  exists s, h. split_and!; try done. cbv zeta.
  unfold iteration. rewrite Hu. simpl. rewrite Hc.
  destruct (decide (websocket_clients (self l) = ∅)) as [E|E];
    [left; done|].
  right. split; [done|]. rewrite Hs, (avg_vehicles_nonempty h Hne). done.
Qed.

(** What an iteration does to one client [c]. *)
Lemma iteration_client (l l1 : Loop) (e : Event) (o : option Published)
    (c : nat) :
  iteration l e = Some (l1, o) →
  match e with
  | EndOfStream _ =>
      o = None ∧
      (c ∈ websocket_clients (self l1) ↔ c ∈ websocket_clients (self l))
  | Connect c' =>
      o = None ∧
      (c ∈ websocket_clients (self l1)
       ↔ c = c' ∨ c ∈ websocket_clients (self l))
  | Disconnect c' =>
      o = None ∧
      (c ∈ websocket_clients (self l1)
       ↔ c ≠ c' ∧ c ∈ websocket_clients (self l))
  | Frame count _ _ _ send =>
      (c ∈ websocket_clients (self l1)
       ↔ c ∈ websocket_clients (self l) ∧ send c = None) ∧
      (websocket_clients (self l) = ∅ → o = None) ∧
      (websocket_clients (self l) ≠ ∅ →
       ∃ p, o = Some p ∧ vehicle_count (data p) = count ∧
            (c ∈ delivered (outcome p)
             ↔ c ∈ websocket_clients (self l) ∧ send c = None))
  end.
Proof.
  intros Hi. destruct e as [t|count t1 t2 t3 send|c'|c'].
  - simpl in Hi. by injection Hi as <- <-.
  - destruct (iteration_Frame_full l count t1 t2 t3 send)
      as (s & h & _ & _ & Hc & Hcases).
    cbv zeta in Hcases.
    destruct (broadcast_data_members (websocket_clients (self l)) send)
      as [Ha Hd].
    destruct Hcases as [[E Hit]|[E Hit]];
      rewrite Hit in Hi; injection Hi as <- <-; simpl.
    + rewrite Hc, E. split_and!; [|done|done].
      rewrite elem_of_empty. tauto.
    + split_and!; [apply Ha|done|]. intros _. eexists. split; [done|].
      simpl. split; [done|apply Hd].
  - simpl in Hi. injection Hi as <- <-. simpl. split; [done|].
    rewrite elem_of_union, elem_of_singleton. tauto.
  - simpl in Hi. injection Hi as <- <-. simpl. split; [done|].
    rewrite elem_of_difference, elem_of_singleton. tauto.
Qed.

(** A client outside the set that does not connect stays outside and is
    sent nothing. *)
Lemma outsider_inv (es : list Event) (l l' : Loop) (ps : list Published)
    (c : nat) :
  (c ∉ websocket_clients (self l)) →
  (Connect c ∉ es) →
  generate_frames l es = Some (l', ps) →
  (c ∉ websocket_clients (self l')) ∧
  Forall (λ p, c ∉ delivered (outcome p)) ps.
Proof.
  revert l l' ps. induction es as [|e es IH]; intros l l' ps Hc Hn; simpl.
  - intros [= <- <-]. split; [done|constructor].
  - destruct (iteration l e) as [[l1 o]|] eqn:E1; [|done]. simpl.
    destruct (generate_frames l1 es) as [[l2 ps2]|] eqn:E2; [|done]. simpl.
    intros [= <- <-].
    apply not_elem_of_cons in Hn as [Hne Hn].
    pose proof (iteration_client l l1 e o c E1) as Hcl.
    assert (Hc1 : (c ∉ websocket_clients (self l1)) ∧
                  ∀ p, o = Some p → c ∉ delivered (outcome p)).
    { destruct e as [t|count t1 t2 t3 send|c'|c'].
      - destruct Hcl as [-> Hcl]. split; [by rewrite Hcl|done].
      - destruct Hcl as (Hm & He & Hp). split; [rewrite Hm; tauto|].
        intros p ->.
        destruct (decide (websocket_clients (self l) = ∅)) as [E|E].
        + by specialize (He E).
        + destruct (Hp E) as (p' & [= <-] & _ & Hd). rewrite Hd. tauto.
      - destruct Hcl as [-> Hcl]. split; [|done]. rewrite Hcl.
        intros [->|?]; [by apply Hne|done].
      - destruct Hcl as [-> Hcl]. split; [|done]. rewrite Hcl. tauto. }
    destruct Hc1 as [Hc1 Ho].
    destruct (IH _ _ _ Hc1 Hn E2) as [H2 Hf]. split; [done|].
    apply Forall_app. split; [|done].
    destruct o as [p|]; simpl; [|constructor].
    constructor; [by apply Ho|constructor].
Qed.

End Hub.

(** X10.  A client that is not in [websocket_clients] and does not connect
    during a run of [generate_frames] is never sent a message in that run,
    and is still not in the set at its end. *)
Theorem never_delivers_to_unconnected
    (es : list WebStreamer.Event) (l l' : WebStreamer.Loop)
    (ps : list WebStreamer.Published) (c : nat) :
  (c ∉ WebStreamer.websocket_clients (WebStreamer.self l)) →
  (WebStreamer.Connect c ∉ es) →
  WebStreamer.generate_frames l es = Some (l', ps) →
  (c ∉ WebStreamer.websocket_clients (WebStreamer.self l')) ∧
  Forall (λ p, c ∉ delivered (WebStreamer.outcome p)) ps.
Proof. apply outsider_inv. Qed.

(** X11.  Once a send to a client has raised during a frame, that client
    is sent nothing more, in that frame or any later one, for as long as
    it does not connect again. *)
Theorem failed_client_is_silent_until_reconnect
    (l l' : WebStreamer.Loop) (count : Z) (t1 t2 t3 : Q)
    (send : SendBehaviour) (es : list WebStreamer.Event)
    (ps : list WebStreamer.Published) (c : nat) (e : Exn) :
  send c = Some e →
  (WebStreamer.Connect c ∉ es) →
  WebStreamer.generate_frames l (WebStreamer.Frame count t1 t2 t3 send :: es)
    = Some (l', ps) →
  (c ∉ WebStreamer.websocket_clients (WebStreamer.self l')) ∧
  Forall (λ p, c ∉ delivered (WebStreamer.outcome p)) ps.
Proof.
  intros Hs Hn. cbn [WebStreamer.generate_frames].
  destruct (WebStreamer.iteration l
              (WebStreamer.Frame count t1 t2 t3 send)) as [[l1 o]|] eqn:E1;
    [|done].
  simpl.
  destruct (WebStreamer.generate_frames l1 es) as [[l2 ps2]|] eqn:E2;
    [|done]. simpl.
  intros [= <- <-].
  pose proof (iteration_client l l1 _ o c E1) as (Hm & He & Hp).
  assert (Hc1 : c ∉ WebStreamer.websocket_clients (WebStreamer.self l1)).
  { rewrite Hm. intros [_ ?]. congruence. }
  destruct (outsider_inv es l1 l2 ps2 c Hc1 Hn E2) as [H2 Hf].
  split; [done|]. apply Forall_app. split; [|done].
  destruct o as [p|]; simpl; [|constructor].
  constructor; [|constructor].
  destruct (decide (WebStreamer.websocket_clients (WebStreamer.self l) = ∅))
    as [E|E].
  - by specialize (He E).
  - destruct (Hp E) as (p' & [= <-] & _ & Hd). rewrite Hd.
    intros [_ ?]. congruence.
Qed.

(** X12.  A client that is in [websocket_clients], whose sends all
    complete and which is not disconnected during a run of
    [generate_frames], is still in the set at the end and was sent one
    dictionary per frame, in order, each carrying the count of its
    frame. *)
Theorem connected_client_receives_every_frame
    (es : list WebStreamer.Event) (l l' : WebStreamer.Loop)
    (ps : list WebStreamer.Published) (c : nat) :
  c ∈ WebStreamer.websocket_clients (WebStreamer.self l) →
  Forall (keeps c) es →
  WebStreamer.generate_frames l es = Some (l', ps) →
  c ∈ WebStreamer.websocket_clients (WebStreamer.self l') ∧
  Forall (λ p, c ∈ delivered (WebStreamer.outcome p)) ps ∧
  map (λ p, WebStreamer.vehicle_count (WebStreamer.data p)) ps
    = submitted es.
Proof.
  intros Hc Hk. revert l l' ps Hc.
  induction Hk as [|e es He _ IH]; intros l l' ps Hc; simpl.
  - intros [= <- <-]. split_and!; [done|constructor|done].
  - destruct (WebStreamer.iteration l e) as [[l1 o]|] eqn:E1; [|done].
    simpl.
    destruct (WebStreamer.generate_frames l1 es) as [[l2 ps2]|] eqn:E2;
      [|done]. simpl.
    intros [= <- <-].
    pose proof (iteration_client l l1 e o c E1) as Hcl.
    destruct e as [t|count t1 t2 t3 send|c'|c']; simpl in He.
    + destruct Hcl as [-> Hcl].
      destruct (IH l1 l2 ps2) as (H1 & H2 & H3); [by rewrite Hcl|done|].
      done.
    + destruct Hcl as (Hm & _ & Hp).
      assert (E : WebStreamer.websocket_clients (WebStreamer.self l) ≠ ∅).
      { intros E. rewrite E in Hc. by apply elem_of_empty in Hc. }
      destruct (Hp E) as (p & -> & Hv & Hd).
      destruct (IH l1 l2 ps2) as (H1 & H2 & H3); [by rewrite Hm|done|].
      simpl. split_and!; [done| |by rewrite Hv, H3].
      constructor; [by rewrite Hd|done].
    + destruct Hcl as [-> Hcl].
      destruct (IH l1 l2 ps2) as (H1 & H2 & H3);
        [rewrite Hcl; by right|done|].
      done.
    + destruct Hcl as [-> Hcl].
      destruct (IH l1 l2 ps2) as (H1 & H2 & H3);
        [rewrite Hcl; split; [congruence|done]|done|].
      done.
Qed.

Lemma never_delivers_to_unconnected_witness :
  let l := WebStreamer.start (WebStreamer.init 0) 0 in
  let es := [WebStreamer.Connect 7; WebStreamer.Frame 3 1 1 1 (λ _, None)] in
  ∃ l' ps,
    WebStreamer.generate_frames l es = Some (l', ps) ∧
    (9%nat ∉ WebStreamer.websocket_clients (WebStreamer.self l')) ∧
    Forall (λ p, 9%nat ∉ delivered (WebStreamer.outcome p)) ps.
Proof.
  cbv zeta.
  destruct (generate_frames_total
              [WebStreamer.Connect 7; WebStreamer.Frame 3 1 1 1 (λ _, None)]
              (WebStreamer.start (WebStreamer.init 0) 0)) as [[l' ps] E].
  exists l', ps. split; [exact E|].
  refine (never_delivers_to_unconnected _ _ l' ps 9%nat _ _ E).
  - apply not_elem_of_empty.
  - intros H. apply elem_of_cons in H as [H|H]; [discriminate|].
    apply elem_of_cons in H as [H|H]; [discriminate|].
    by apply elem_of_nil in H.
Defined.

Lemma failed_client_is_silent_until_reconnect_witness :
  let l := WebStreamer.start (WebStreamer.mkState green 0 0 [] {[7%nat]}) 0 in
  let es := [WebStreamer.Frame 4 2 2 2 (λ _, None)] in
  ∃ l' ps,
    WebStreamer.generate_frames l
      (WebStreamer.Frame 3 1 1 1 (λ _, Some ExnOther) :: es) = Some (l', ps) ∧
    (7%nat ∉ WebStreamer.websocket_clients (WebStreamer.self l')) ∧
    Forall (λ p, 7%nat ∉ delivered (WebStreamer.outcome p)) ps.
Proof.
  cbv zeta.
  destruct (generate_frames_total
              [WebStreamer.Frame 3 1 1 1 (λ _, Some ExnOther);
               WebStreamer.Frame 4 2 2 2 (λ _, None)]
              (WebStreamer.start
                 (WebStreamer.mkState green 0 0 [] {[7%nat]}) 0))
    as [[l' ps] E].
  exists l', ps. split; [exact E|].
  refine (failed_client_is_silent_until_reconnect _ l' 3 1 1 1
            (λ _, Some ExnOther) [WebStreamer.Frame 4 2 2 2 (λ _, None)]
            ps 7%nat ExnOther eq_refl _ E).
  intros H. apply elem_of_cons in H as [H|H]; [discriminate|].
  by apply elem_of_nil in H.
Defined.

Lemma connected_client_receives_every_frame_witness :
  let l := WebStreamer.start (WebStreamer.mkState green 0 0 [] {[7%nat]}) 0 in
  let es := [WebStreamer.Frame 3 1 1 1 (λ _, None);
             WebStreamer.EndOfStream 2;
             WebStreamer.Frame 4 3 3 3 (λ _, None)] in
  ∃ l' ps,
    WebStreamer.generate_frames l es = Some (l', ps) ∧
    7%nat ∈ WebStreamer.websocket_clients (WebStreamer.self l') ∧
    Forall (λ p, 7%nat ∈ delivered (WebStreamer.outcome p)) ps ∧
    map (λ p, WebStreamer.vehicle_count (WebStreamer.data p)) ps = [3; 4].
Proof.
  cbv zeta.
  destruct (generate_frames_total
              [WebStreamer.Frame 3 1 1 1 (λ _, None);
               WebStreamer.EndOfStream 2;
               WebStreamer.Frame 4 3 3 3 (λ _, None)]
              (WebStreamer.start
                 (WebStreamer.mkState green 0 0 [] {[7%nat]}) 0))
    as [[l' ps] E].
  exists l', ps. split; [exact E|].
  refine (connected_client_receives_every_frame _ _ l' ps 7%nat _ _ E).
  - simpl. by apply elem_of_singleton.
  - repeat (constructor; [done|]). constructor.
Defined.

(** ** The frame counter, continued *)

Section FrameNumbers.

Import WebStreamer.

Lemma frames_in_pass_app (es1 es2 : list Event) (n : Z) :
  frames_in_pass n (es1 ++ es2) = frames_in_pass (frames_in_pass n es1) es2.
Proof.
  revert n. induction es1 as [|[] es1 IH]; intros n; simpl; by rewrite ?IH.
Qed.

Lemma iteration_frames_in_pass (l l1 : Loop) (e : Event)
    (o : option Published) :
  iteration l e = Some (l1, o) →
  frame_count l1 = frames_in_pass (frame_count l) [e].
Proof.
  intros Hi. destruct e as [t|c t1 t2 t3 send|c|c];
    try (simpl in Hi; by injection Hi as <- <-).
  destruct (iteration_Frame_inv l c t1 t2 t3 send)
    as (s & h & _ & _ & _ & _ & [[_ E]|[_ [fps E]]]);
    rewrite E in Hi; by injection Hi as <- <-.
Qed.

Lemma generate_frames_frames_in_pass (es : list Event) (l l' : Loop)
    (ps : list Published) :
  generate_frames l es = Some (l', ps) →
  frame_count l' = frames_in_pass (frame_count l) es.
Proof.
  revert l l' ps. induction es as [|e es IH]; intros l l' ps.
  - simpl. by intros [= <- <-].
  - cbn [generate_frames].
    destruct (iteration l e) as [[l1 o]|] eqn:E1; [|done]. simpl.
    destruct (generate_frames l1 es) as [[l2 ps2]|] eqn:E2; [|done]. simpl.
    intros [= <- <-].
    rewrite (IH _ _ _ E2), (iteration_frames_in_pass _ _ _ _ E1).
    by destruct e.
Qed.

Lemma frames_in_pass_nonneg (es : list Event) (n : Z) :
  0 ≤ n → 0 ≤ frames_in_pass n es.
Proof.
  revert n. induction es as [|[] es IH]; intros n Hn; simpl;
    try done; apply IH; lia.
Qed.

End FrameNumbers.

(** X13.  Run [generate_frames] from a counter that is not negative (it
    starts at 0).  The [frame_number] a frame is published with is the
    number of frames read since the video last started over, that frame
    included; it is at least 1, and the published [fps] is not negative. *)
Theorem frame_number_is_position_in_pass
    (es : list WebStreamer.Event) (l l1 l2 : WebStreamer.Loop)
    (ps : list WebStreamer.Published) (e : WebStreamer.Event)
    (p : WebStreamer.Published) :
  0 ≤ WebStreamer.frame_count l →
  WebStreamer.generate_frames l es = Some (l1, ps) →
  WebStreamer.iteration l1 e = Some (l2, Some p) →
  WebStreamer.frame_number (WebStreamer.data p)
    = frames_in_pass (WebStreamer.frame_count l) (es ++ [e]) ∧
  1 ≤ WebStreamer.frame_number (WebStreamer.data p) ∧
  (0 <= WebStreamer.fps (WebStreamer.data p))%Q.
Proof.
  intros H0 Hg Hi.
  pose proof (generate_frames_frames_in_pass _ _ _ _ Hg) as Hc.
  pose proof (frames_in_pass_nonneg es _ H0) as Hn. rewrite <- Hc in Hn.
  rewrite frames_in_pass_app, <- Hc.
  destruct e as [t|c t1 t2 t3 send|c|c];
    try (simpl in Hi; by injection Hi).
  destruct (iteration_Frame_full l1 c t1 t2 t3 send)
    as (s & h & _ & _ & _ & Hcases).
  cbv zeta in Hcases.
  destruct Hcases as [[_ E]|[_ E]]; rewrite E in Hi; [by injection Hi|].
  injection Hi as _ <-. simpl. split_and!; [done|lia|].
  destruct (Qlt_le_dec 0 (t2 - WebStreamer.start_time l1)) as [Hpos|_];
    [|apply Qle_refl].
  apply Qle_shift_div_l; [done|].
  rewrite Qmult_0_l. change 0%Q with (inject_Z 0).
  rewrite <- Zle_Qle. lia.
Qed.

Lemma frame_number_is_position_in_pass_witness :
  let l := WebStreamer.start (WebStreamer.mkState green 0 0 [] {[7%nat]}) 0 in
  let es := [WebStreamer.Frame 3 1 1 1 (λ _, None);
             WebStreamer.EndOfStream 2] in
  let e := WebStreamer.Frame 4 3 3 3 (λ _, None) in
  ∃ l1 ps l2 p,
    WebStreamer.generate_frames l es = Some (l1, ps) ∧
    WebStreamer.iteration l1 e = Some (l2, Some p) ∧
    WebStreamer.frame_number (WebStreamer.data p) = 1.
Proof.
  cbv zeta.
  destruct (generate_frames_total
              [WebStreamer.Frame 3 1 1 1 (λ _, None);
               WebStreamer.EndOfStream 2]
              (WebStreamer.start
                 (WebStreamer.mkState green 0 0 [] {[7%nat]}) 0))
    as [[l1 ps] E].
  destruct (WebStreamer.iteration l1 (WebStreamer.Frame 4 3 3 3 (λ _, None)))
    as [[l2 [p|]]|] eqn:Ei.
  - exists l1, ps, l2, p. split; [exact E|]. split; [exact Ei|].
    destruct (frame_number_is_position_in_pass _
                (WebStreamer.start
                   (WebStreamer.mkState green 0 0 [] {[7%nat]}) 0)
                l1 l2 ps _ p (Z.le_refl 0) E Ei) as (-> & _).
    reflexivity.
  - exfalso. vm_compute in E. injection E as <- <-.
    vm_compute in Ei. discriminate.
  - exfalso. vm_compute in E. injection E as <- <-.
    vm_compute in Ei. discriminate.
Defined.

(** ** The synthetic video of [demo.py] *)

Section DemoVideo.

Import Demo.

Lemma move_size (v : Vehicle) :
  vwidth (move v) = vwidth v ∧ vheight (move v) = vheight v.
Proof. done. Qed.

Lemma move_in_bounds (v : Vehicle) :
  vwidth v ≤ width → vheight v ≤ height →
  0 ≤ x (move v) ∧ x (move v) + vwidth v ≤ width ∧
  0 ≤ y (move v) ∧ y (move v) + vheight v ≤ height.
Proof. unfold move, width, height. simpl. lia. Qed.

Lemma rectangles_in_frame (v : Vehicle) :
  sized (vwidth v) (vheight v) →
  Forall (λ r, in_frame (fst r) ∧ in_frame (snd r)) (rectangles (move v)).
Proof.
  intros [Hw Hh].
  destruct (move_in_bounds v) as (X0 & X1 & Y0 & Y1);
    [unfold width; lia|unfold height; lia|].
  unfold rectangles, in_frame.
  destruct (move_size v) as [-> ->]. unfold width, height in *.
  constructor; [cbn [fst snd]; lia|].
  constructor; [cbn [fst snd]; lia|]. constructor.
Qed.

Lemma removelast_length {A} (l : list A) :
  length (removelast l) = Nat.pred (length l).
Proof.
  induction l as [|a l IH]; [done|]. simpl.
  destruct l; [done|]. simpl in *. by rewrite IH.
Qed.

Lemma vary_length (vehicles : list Vehicle) (d : Draws) :
  3 ≤ Py.len vehicles ≤ 12 →
  3 ≤ Py.len (vary vehicles d) ≤ 12 ∧
  Z.abs (Py.len (vary vehicles d) - Py.len vehicles) ≤ 1.
Proof.
  intros H. unfold vary.
  destruct (Py.len vehicles <? 12) eqn:E1; simpl.
  - apply Z.ltb_lt in E1. destruct (bool_decide _).
    + unfold Py.len in *. rewrite length_app. simpl. lia.
    + destruct (3 <? Py.len vehicles) eqn:E2; simpl; [|lia].
      apply Z.ltb_lt in E2. destruct (bool_decide _); [|lia].
      unfold Py.len in *. rewrite removelast_length. lia.
  - destruct (3 <? Py.len vehicles) eqn:E2; simpl; [|lia].
    apply Z.ltb_lt in E2. destruct (bool_decide _); [|lia].
    unfold Py.len in *. rewrite removelast_length. lia.
Qed.

Lemma Forall_removelast {A} (P : A → Prop) (l : list A) :
  Forall P l → Forall P (removelast l).
Proof.
  induction 1 as [|a l Ha Hl IH]; simpl; [constructor|].
  destruct l; [constructor|]. by constructor.
Qed.

Lemma vary_sized (vehicles : list Vehicle) (d : Draws) :
  Forall (λ v, sized (vwidth v) (vheight v)) vehicles →
  sized (new_width d) (new_height d) →
  Forall (λ v, sized (vwidth v) (vheight v)) (vary vehicles d).
Proof.
  intros Hv Hd. unfold vary.
  destruct (_ && _).
  - apply Forall_app. split; [done|]. constructor; [exact Hd|constructor].
  - destruct (_ && _); [by apply Forall_removelast|done].
Qed.

End DemoVideo.

(** X14.  In [demo.py] one movement step leaves a vehicle that fits in the
    frame entirely inside it ([0 <= x], [x + width <= 640], [0 <= y],
    [y + height <= 480]), wherever it was and however fast it moves; it
    keeps its size and colour, and each speed component keeps its
    magnitude (only its sign may flip). *)
Theorem demo_vehicle_stays_in_frame (v : Demo.Vehicle) :
  0 ≤ Demo.vwidth v ≤ Demo.width →
  0 ≤ Demo.vheight v ≤ Demo.height →
  let v' := Demo.move v in
  0 ≤ Demo.x v' ∧ Demo.x v' + Demo.vwidth v' ≤ Demo.width ∧
  0 ≤ Demo.y v' ∧ Demo.y v' + Demo.vheight v' ≤ Demo.height ∧
  Z.abs (Demo.dx v') = Z.abs (Demo.dx v) ∧
  Z.abs (Demo.dy v') = Z.abs (Demo.dy v) ∧
  Demo.vwidth v' = Demo.vwidth v ∧ Demo.vheight v' = Demo.vheight v ∧
  Demo.color v' = Demo.color v.
Proof.
  intros Hw Hh. cbv zeta.
  destruct (move_in_bounds v) as (X0 & X1 & Y0 & Y1); [lia|lia|].
  split_and!; try done.
  - unfold Demo.move. simpl. destruct (_ || _); lia.
  - unfold Demo.move. simpl. destruct (_ || _); lia.
Qed.

Lemma demo_vehicle_stays_in_frame_witness :
  Demo.x (Demo.move (Demo.mkVehicle 630 (-7) 3 (-2) (0, 255, 0) 40 20)) = 600
  ∧ Demo.dx (Demo.move (Demo.mkVehicle 630 (-7) 3 (-2) (0, 255, 0) 40 20))
    = -3.
Proof.
  pose proof (demo_vehicle_stays_in_frame
                (Demo.mkVehicle 630 (-7) 3 (-2) (0, 255, 0) 40 20)) as H.
  simpl in H. unfold Demo.width, Demo.height in H.
  specialize (H ltac:(lia) ltac:(lia)).
  split; reflexivity.
Defined.

(** X15.  Run the frame loop of [demo.py] for any number of frames, from
    any frame number, with any random draws, starting with between 3 and 12
    vehicles of the sizes the script draws (as the 8 initial ones are).
    The list always ends with between 3 and 12 vehicles; every frame draws
    two rectangles per vehicle, for between 3 and 12 vehicles, all of them
    inside the 640 x 480 frame; and the caption of every frame says 8
    vehicles whatever their number is. *)
Theorem demo_frames_invariants
    (ds : list Demo.Draws) (vehicles vehicles' : list Demo.Vehicle)
    (frame_num : Z) (pictures : list Demo.Picture) :
  3 ≤ Py.len vehicles ≤ 12 →
  Forall (λ v, sized (Demo.vwidth v) (Demo.vheight v)) vehicles →
  Forall (λ d, sized (Demo.new_width d) (Demo.new_height d)) ds →
  Demo.frames vehicles frame_num ds = (pictures, vehicles') →
  3 ≤ Py.len vehicles' ≤ 12 ∧
  length pictures = length ds ∧
  Forall (λ pic,
            Demo.caption_vehicles pic = 8 ∧
            (∃ k, 3 ≤ k ≤ 12 ∧ Py.len (Demo.drawn pic) = 2 * k) ∧
            Forall (λ r, in_frame (fst r) ∧ in_frame (snd r))
              (Demo.drawn pic))
    pictures.
Proof.
  intros Hl Hs Hd. revert vehicles vehicles' frame_num pictures Hl Hs.
  induction Hd as [|d ds Hd0 _ IH];
    intros vehicles vehicles' frame_num pictures Hl Hs; simpl.
  - intros [= <- <-]. split_and!; [lia|lia|done|constructor].
  - set (moved := map Demo.move vehicles).
    assert (Hml : Py.len moved = Py.len vehicles)
      by (unfold Py.len, moved; by rewrite length_map).
    assert (Hms : Forall (λ v, sized (Demo.vwidth v) (Demo.vheight v)) moved).
    { unfold moved. apply Forall_fmap. eapply Forall_impl; [exact Hs|].
      intros v Hv. exact Hv. }
    set (next := if frame_num mod (Demo.fps * 5) =? 0
                 then Demo.vary moved d else moved).
    assert (Hn : 3 ≤ Py.len next ≤ 12 ∧
                 Forall (λ v, sized (Demo.vwidth v) (Demo.vheight v)) next).
    { unfold next. destruct (_ =? 0).
      - split; [apply vary_length; lia|by apply vary_sized].
      - split; [lia|done]. }
    destruct Hn as [Hnl Hns].
    destruct (Demo.frames next (frame_num + 1) ds) as [pics v2] eqn:E.
    intros [= <- <-].
    destruct (IH _ _ _ _ Hnl Hns E) as (H1 & H2 & H3).
    split_and!; [lia|lia|simpl; by rewrite H2|].
    constructor; [|done]. simpl. split_and!; [done| |].
    + exists (Py.len vehicles). split; [lia|].
      unfold Py.len, moved.
      assert (G : ∀ l : list Demo.Vehicle,
                length (concat (map Demo.rectangles (map Demo.move l)))
                = (2 * length l)%nat).
      { induction l as [|a l IHl]; simpl; [done|]. rewrite IHl. lia. }
      rewrite G. lia.
    + unfold moved. clear -Hs.
      induction Hs as [|v l Hv _ IHl]; [constructor|].
      cbn [map concat]. apply Forall_app. split; [|done].
      by apply (rectangles_in_frame v).
Qed.

Lemma demo_frames_invariants_witness :
  let v := Demo.mkVehicle 100 200 3 (-2) (0, 255, 0) 40 20 in
  let d := Demo.mkDraws 1 10 10 1 1 35 20 1 in
  ∃ pictures vehicles',
    Demo.frames [v; v; v] 0 [d; d] = (pictures, vehicles') ∧
    3 ≤ Py.len vehicles' ≤ 12 ∧ length pictures = 2%nat.
Proof.
  cbv zeta.
  destruct (Demo.frames
              [Demo.mkVehicle 100 200 3 (-2) (0, 255, 0) 40 20;
               Demo.mkVehicle 100 200 3 (-2) (0, 255, 0) 40 20;
               Demo.mkVehicle 100 200 3 (-2) (0, 255, 0) 40 20] 0
              [Demo.mkDraws 1 10 10 1 1 35 20 1;
               Demo.mkDraws 1 10 10 1 1 35 20 1]) as [pictures vehicles']
    eqn:E.
  exists pictures, vehicles'. split; [done|].
  assert (Hv : sized 40 20) by (unfold sized; lia).
  assert (Hd : sized 35 20) by (unfold sized; lia).
  pose proof (λ H1 H2 H3,
                demo_frames_invariants _ _ vehicles' 0 pictures H1 H2 H3 E)
    as T.
  destruct T as (H1 & H2 & _).
  - unfold Py.len. simpl. lia.
  - repeat (constructor; [exact Hv|]). constructor.
  - repeat (constructor; [exact Hd|]). constructor.
  - split; [exact H1|exact H2].
Defined.

(** ** The simulated signal of [debug_yolo.py] *)


(** ** The traffic light and the LIVE badge on the picture *)

Section Lamps.

Lemma traffic_light_shapes (width : Z) (s : Signal) (timer : Q) :
  Overlay.draw_traffic_light width s timer =
    [ Overlay.Rectangle (width - 120, 20) (width - 120 + 80, 20 + 200)
        (0, 0, 0) (-1);
      Overlay.Rectangle (width - 120, 20) (width - 120 + 80, 20 + 200)
        (255, 255, 255) 3;
      Overlay.Circle (width - 120 + 40, 20 + 40) 25
        (if decide (s = red) then (0, 0, 255) else (0, 0, 80)) (-1);
      Overlay.Circle (width - 120 + 40, 20 + 40) 25 (255, 255, 255) 2;
      Overlay.Circle (width - 120 + 40, 20 + 100) 25
        (if decide (s = yellow) then (0, 255, 255) else (0, 80, 80)) (-1);
      Overlay.Circle (width - 120 + 40, 20 + 100) 25 (255, 255, 255) 2;
      Overlay.Circle (width - 120 + 40, 20 + 160) 25
        (if decide (s = green) then (0, 255, 0) else (0, 80, 0)) (-1);
      Overlay.Circle (width - 120 + 40, 20 + 160) 25 (255, 255, 255) 2;
      match s with
      | red => Overlay.Circle (width - 120 + 40, 20 + 40) (25 + 5)
                 (0, 0, 255) 2
      | yellow => Overlay.Circle (width - 120 + 40, 20 + 100) (25 + 5)
                    (0, 255, 255) 2
      | green => Overlay.Circle (width - 120 + 40, 20 + 160) (25 + 5)
                   (0, 255, 0) 2
      end;
      Overlay.TimerText (width - 120, 20 + 200 + 25) timer ].
Proof. by destruct s. Qed.

End Lamps.

(** X17.  For every frame width, signal and timer, [draw_traffic_light]
    draws three filled lamps of radius 25 of which exactly the one of the
    current signal (red on top, yellow in the middle, green at the bottom)
    has a full-intensity colour; the only other coloured circle is the glow
    ring of radius 30, centred on that same lamp; and every circle,
    the ring included, lies inside the housing rectangle. *)
Theorem traffic_light_shows_current_signal
    (width : Z) (s : Signal) (timer : Q) :
  let shapes := Overlay.draw_traffic_light width s timer in
  let lamp :=
    (width - 80, match s with red => 60 | yellow => 120 | green => 180 end) in
  let lit (col : Overlay.Color) :=
    Z.max (fst (fst col)) (Z.max (snd (fst col)) (snd col)) = 255 in
  (∀ c r col, Overlay.Circle c r col (-1) ∈ shapes →
     r = 25 ∧ (lit col ↔ c = lamp)) ∧
  (∃ col, Overlay.Circle lamp 25 col (-1) ∈ shapes ∧ lit col) ∧
  (∀ c r col, Overlay.Circle c r col 2 ∈ shapes → col ≠ (255, 255, 255) →
     c = lamp ∧ r = 30 ∧ lit col) ∧
  (∃ col, Overlay.Circle lamp 30 col 2 ∈ shapes ∧ lit col) ∧
  (∀ cx cy r col t, Overlay.Circle (cx, cy) r col t ∈ shapes →
     width - 120 ≤ cx - r ∧ cx + r ≤ width - 40 ∧
     20 ≤ cy - r ∧ cy + r ≤ 220).
Proof.
  cbv zeta. rewrite traffic_light_shapes.
  assert (E : ∀ a b : Z * Z, a = b → fst a = fst b ∧ snd a = snd b)
    by (by intros a b ->).
  split_and!.
  - intros c r col H.
    repeat (apply elem_of_cons in H as [H|H];
            [try discriminate H|]); try (by apply elem_of_nil in H);
      try (destruct s; discriminate H);
      injection H as -> -> ->; (split; [done|]);
      destruct s; simpl; (split; [intros; try lia; f_equal; lia|]);
      intros [=]; try lia.
  - destruct s.
    + replace (width - 80, 180) with (width - 120 + 40, 20 + 160)
        by (f_equal; lia).
      eexists. split; [do 6 apply list_elem_of_further;
                       apply list_elem_of_here|simpl; lia].
    + replace (width - 80, 120) with (width - 120 + 40, 20 + 100)
        by (f_equal; lia).
      eexists. split; [do 4 apply list_elem_of_further;
                       apply list_elem_of_here|simpl; lia].
    + replace (width - 80, 60) with (width - 120 + 40, 20 + 40)
        by (f_equal; lia).
      eexists. split; [do 2 apply list_elem_of_further;
                       apply list_elem_of_here|simpl; lia].
  - intros c r col H Hc.
    repeat (apply elem_of_cons in H as [H|H];
            [try discriminate H|]); try (by apply elem_of_nil in H);
      try (injection H as -> -> ->; done).
    destruct s; injection H as -> -> ->; simpl;
      (split_and!; [f_equal; lia|done|lia]).
  - destruct s.
    + replace (width - 80, 180) with (width - 120 + 40, 20 + 160)
        by (f_equal; lia).
      eexists. split; [do 8 apply list_elem_of_further;
                       apply list_elem_of_here|simpl; lia].
    + replace (width - 80, 120) with (width - 120 + 40, 20 + 100)
        by (f_equal; lia).
      eexists. split; [do 8 apply list_elem_of_further;
                       apply list_elem_of_here|simpl; lia].
    + replace (width - 80, 60) with (width - 120 + 40, 20 + 40)
        by (f_equal; lia).
      eexists. split; [do 8 apply list_elem_of_further;
                       apply list_elem_of_here|simpl; lia].
  - intros cx cy r col t H.
    repeat (apply elem_of_cons in H as [H|H];
            [try discriminate H|]); try (by apply elem_of_nil in H);
      try (injection H as -> -> -> -> ->; lia).
    destruct s; injection H as -> -> -> -> ->; lia.
Qed.

(** X18.  Whatever the sine in [add_live_indicator] is (between -1 and 1),
    the colour of the LIVE badge is pure red in BGR with a red channel
    between 128 and 255: a valid 8-bit colour, never darker than half
    intensity. *)
Theorem live_color_is_bright_red (sine : Q) :
  (-1 <= sine)%Q → (sine <= 1)%Q →
  fst (fst (Overlay.live_color sine)) = 0 ∧
  snd (fst (Overlay.live_color sine)) = 0 ∧
  128 ≤ snd (Overlay.live_color sine) ≤ 255.
Proof.
  intros Hl Hu. unfold Overlay.live_color. cbn [fst snd].
  assert (Ha : (Qabs (sine * 255) <= 255)%Q).
  { apply Qabs_Qle_condition. split; lra. }
  pose proof (Qabs_nonneg (sine * 255)) as Hn.
  unfold py_int. set (q := Qabs (sine * 255)) in *.
  unfold Qle in Ha, Hn. cbn [Qnum Qden] in Ha, Hn.
  assert (Hq : Qnum q ÷ Z.pos (Qden q) ≤ 255)
    by (apply Z.quot_le_upper_bound; lia).
  split_and!; [done|done|lia|lia].
Qed.

Lemma live_color_is_bright_red_witness :
  Overlay.live_color (1 # 3) = (0, 0, 128) ∧
  128 ≤ snd (Overlay.live_color (1 # 3)) ≤ 255.
Proof.
  split; [reflexivity|].
  apply (live_color_is_bright_red (1 # 3)); discriminate.
Defined.

(** ** The road graph of [parse_traffic.py] *)

Section RoadGraph.

Import ParseTraffic.

Context {F J : Type} `{Countable F} `{Inhabited F} `{Countable J}.
Context (round5 : F → F) (fsub : F → F → F) (hypot : F → F → F) (zero : J).

Local Abbreviation Road := (@Road F J).
Local Abbreviation Edge := (@Edge F J).
Local Abbreviation Graph := (@Graph F J _ _).
Local Abbreviation rp := (round_point round5).
Local Abbreviation build := (build_graph round5 fsub hypot).
Local Abbreviation edges_of := (road_edges round5 fsub hypot).

Lemma dd_get_append {A} (d : gmap (@Point F) (list A)) (k k' : @Point F)
    (x : A) :
  dd_get (dd_append d k x) k'
    = dd_get d k' ++ (if decide (k = k') then [x] else []).
Proof.
  unfold dd_get, dd_append. destruct (decide (k = k')) as [->|Hne].
  - by rewrite lookup_insert_eq.
  - rewrite lookup_insert_ne by done. by rewrite app_nil_r.
Qed.

Lemma dd_append_nonempty {A} (d : gmap (@Point F) (list A)) (k : @Point F)
    (x : A) :
  (∀ p l, d !! p = Some l → l ≠ []) →
  ∀ p l, dd_append d k x !! p = Some l → l ≠ [].
Proof.
  intros Hd p l. unfold dd_append.
  destruct (decide (k = p)) as [->|Hne].
  - rewrite lookup_insert_eq. intros [= <-]. by destruct (default [] _).
  - rewrite lookup_insert_ne by done. apply Hd.
Qed.

(** Indices against pairs of neighbours. *)
Lemma seq_pairs {A B} `{Inhabited A} (f : A → A → B) (l : list A) :
  map (λ i, f (l !!! i) (l !!! (i + 1)%nat)) (seq 0 (length l - 1))
    = map (λ cc, f (fst cc) (snd cc)) (zip l (tail l)).
Proof.
  induction l as [|a l IH]; [done|].
  destruct l as [|b l]; [done|].
  replace (length (a :: b :: l) - 1)%nat with (S (length (b :: l) - 1))
    by (simpl; lia).
  rewrite <- cons_seq, <- fmap_S_seq.
  change (zip (a :: b :: l) (tail (a :: b :: l)))
    with ((a, b) :: zip (b :: l) (tail (b :: l))).
  cbn [map]. f_equal. rewrite <- IH.
  change (map ?g (S <$> ?l')) with (g <$> (S <$> l')).
  by rewrite <- list_fmap_compose.
Qed.

(** What the second inner loop adds. *)
Lemma add_edges_fold (road : Road) (idx : list nat) (g : Graph) :
  let rounded := map rp (geometry road) in
  let new :=
    map (λ i,
           mkEdge (rounded !!! i) (rounded !!! (i + 1)%nat)
             (mkEdgeData (id road) (avg_speed_kmph road) (congestion road)
                (vehicle_count road) (travel_time_sec road)
                (calculate_distance fsub hypot
                   (geometry road !!! i) (geometry road !!! (i + 1)%nat))))
      idx in
  let g' := fold_left (add_edge fsub hypot road rounded) idx g in
  all_edges g' = all_edges g ++ new ∧
  point_to_roads g' = point_to_roads g ∧
  (∀ p, dd_get (graph g') p = dd_get (graph g) p ++ neighbours_at p new) ∧
  ((∀ p l, graph g !! p = Some l → l ≠ []) →
   ∀ p l, graph g' !! p = Some l → l ≠ []).
Proof.
  cbv zeta. revert g. induction idx as [|i idx IH]; intros g.
  - simpl. rewrite app_nil_r. split_and!; try done.
    intros p. unfold neighbours_at. simpl. by rewrite app_nil_r.
  - cbn [fold_left map].
    destruct (IH (add_edge fsub hypot road (map rp (geometry road)) g i))
      as (E1 & E2 & E3 & E4).
    rewrite E1, E2. split_and!.
    + unfold add_edge. simpl. by rewrite <- app_assoc.
    + done.
    + intros p. rewrite E3. unfold add_edge at 1. cbn [graph].
      rewrite !dd_get_append. unfold neighbours_at. cbn [map concat].
      unfold contribution at 2. cbn [e_start e_end e_data].
      rewrite <- !app_assoc. done.
    + intros Hg. apply E4. unfold add_edge. cbn [graph].
      by do 2 apply dd_append_nonempty.
Qed.

(** What the first inner loop adds. *)
Lemma add_points_fold (road : Road) (ips : list (nat * @Point F))
    (ptr : gmap (@Point F) (list PointEntry)) :
  let ptr' :=
    fold_left
      (λ m ip, dd_append m (snd ip) (mkPointEntry (id road) (fst ip) road))
      ips ptr in
  (∀ p e, e ∈ dd_get ptr' p ↔
          e ∈ dd_get ptr p ∨
          ∃ i, (i, p) ∈ ips ∧ e = mkPointEntry (id road) i road).
Proof.
  cbv zeta. revert ptr. induction ips as [|[i q] ips IH]; intros ptr p e.
  - simpl. split; [by left|]. intros [?|(i & Hi & _)]; [done|].
    by apply elem_of_nil in Hi.
  - cbn [fold_left fst snd]. rewrite IH, dd_get_append, elem_of_app.
    split.
    + intros [[He|He]|(i' & Hi & ->)].
      * by left.
      * right. destruct (decide (q = p)) as [->|?];
          [|by apply elem_of_nil in He].
        apply list_elem_of_singleton in He as ->.
        exists i. split; [apply list_elem_of_here|done].
      * right. exists i'. split; [by apply list_elem_of_further|done].
    + intros [He|(i' & Hi & ->)]; [by left; left|].
      apply elem_of_cons in Hi as [[= -> ->]|Hi].
      * left. right. rewrite decide_True by done.
        apply list_elem_of_here.
      * right. by exists i'.
Qed.

Lemma elem_of_enumerate {A} (l : list A) (i : nat) (x : A) :
  (i, x) ∈ zip (seq 0 (length l)) l ↔ l !! i = Some x.
Proof.
  assert (G : ∀ n, (i, x) ∈ zip (seq n (length l)) l
                   ↔ (n ≤ i)%nat ∧ l !! (i - n)%nat = Some x).
  { induction l as [|a l IH]; intros n; simpl.
    - split; [intros Hn; by apply elem_of_nil in Hn|intros [_ ?]; done].
    - rewrite elem_of_cons, IH. split.
      + intros [[= -> ->]|[Hn Hl]].
        * split; [lia|]. by rewrite Nat.sub_diag.
        * split; [lia|]. replace (i - n)%nat with (S (i - S n)) by lia. done.
      + intros [Hn Hl]. destruct (decide (i = n)) as [->|Hne].
        * left. rewrite Nat.sub_diag in Hl. simpl in Hl. congruence.
        * right. split; [lia|].
          replace (i - n)%nat with (S (i - S n)) in Hl by lia. done. }
  rewrite G, Nat.sub_0_r. split; [by intros [_ ?]|intros; split; [lia|done]].
Qed.

(** One road. *)
Lemma add_road_spec (g : Graph) (road : Road) :
  let g' := add_road round5 fsub hypot g road in
  all_edges g' = all_edges g ++ edges_of road ∧
  (∀ p, dd_get (graph g') p
        = dd_get (graph g) p ++ neighbours_at p (edges_of road)) ∧
  ((∀ p l, graph g !! p = Some l → l ≠ []) →
   ∀ p l, graph g' !! p = Some l → l ≠ []) ∧
  (∀ p e, e ∈ dd_get (point_to_roads g') p ↔
          e ∈ dd_get (point_to_roads g) p ∨
          ∃ i, passes round5 road i p ∧ e = mkPointEntry (id road) i road).
Proof.
  cbv zeta. unfold add_road.
  set (rounded := map rp (geometry road)).
  set (g1 := mkGraph (graph g) (all_edges g)
               (add_points road rounded (point_to_roads g))).
  destruct (add_edges_fold road (seq 0 (length rounded - 1)) g1)
    as (E1 & E2 & E3 & E4). fold rounded in E1, E2, E3, E4.
  assert (En : map (λ i,
                 mkEdge (rounded !!! i) (rounded !!! (i + 1)%nat)
                   (mkEdgeData (id road) (avg_speed_kmph road)
                      (congestion road) (vehicle_count road)
                      (travel_time_sec road)
                      (calculate_distance fsub hypot
                         (geometry road !!! i)
                         (geometry road !!! (i + 1)%nat))))
                (seq 0 (length rounded - 1))
              = edges_of road).
  { unfold road_edges, rounded. rewrite length_map.
    rewrite <- (seq_pairs
      (λ c1 c2, mkEdge (rp c1) (rp c2)
                  (mkEdgeData (id road) (avg_speed_kmph road)
                     (congestion road) (vehicle_count road)
                     (travel_time_sec road)
                     (calculate_distance fsub hypot c1 c2)))
      (geometry road)).
    apply map_ext_in. intros i Hi%in_seq.
    change (map rp (geometry road)) with (rp <$> geometry road).
    rewrite !(list_lookup_total_fmap rp (geometry road)) by lia. done. }
  rewrite En in E1, E3. split_and!; [exact E1|exact E3|exact E4|].
  intros p e. rewrite E2. unfold g1. cbn [point_to_roads].
  unfold add_points. rewrite add_points_fold.
  apply or_iff_compat_l. split.
  - intros (i & Hi & ->). exists i. split; [|done].
    apply elem_of_enumerate in Hi. unfold rounded in Hi.
    rewrite list_lookup_fmap in Hi.
    destruct (geometry road !! i) as [c|] eqn:Ec; [|done].
    exists c. split; [done|]. simpl in Hi. congruence.
  - intros (i & (c & Hc & Hp) & ->). exists i. split; [|done].
    apply elem_of_enumerate. unfold rounded.
    rewrite list_lookup_fmap, Hc. simpl. by rewrite Hp.
Qed.

(** All roads. *)
Lemma build_graph_spec (roads : list Road) :
  let g := build roads in
  all_edges g = concat (map edges_of roads) ∧
  (∀ p, dd_get (graph g) p = neighbours_at p (all_edges g)) ∧
  (∀ p l, graph g !! p = Some l → l ≠ []) ∧
  (∀ p e, e ∈ dd_get (point_to_roads g) p ↔
          ∃ road i, road ∈ roads ∧ passes round5 road i p ∧
                    e = mkPointEntry (id road) i road).
Proof.
  cbv zeta. unfold build_graph.
  assert (G : ∀ (rs : list Road) (g0 : Graph),
    let g := fold_left (add_road round5 fsub hypot) rs g0 in
    all_edges g = all_edges g0 ++ concat (map edges_of rs) ∧
    (∀ p, dd_get (graph g) p
          = dd_get (graph g0) p
            ++ neighbours_at p (concat (map edges_of rs))) ∧
    ((∀ p l, graph g0 !! p = Some l → l ≠ []) →
     ∀ p l, graph g !! p = Some l → l ≠ []) ∧
    (∀ p e, e ∈ dd_get (point_to_roads g) p ↔
            e ∈ dd_get (point_to_roads g0) p ∨
            ∃ road i, road ∈ rs ∧ passes round5 road i p ∧
                      e = mkPointEntry (id road) i road)).
  { induction rs as [|r rs IH]; intros g0; cbv zeta.
    - simpl. rewrite app_nil_r. split_and!; try done.
      + intros p. unfold neighbours_at. simpl. by rewrite app_nil_r.
      + intros p e. split; [by left|].
        intros [?|(road & i & Hr & _)]; [done|by apply elem_of_nil in Hr].
    - cbn [fold_left map concat].
      destruct (IH (add_road round5 fsub hypot g0 r)) as (E1 & E2 & E3 & E4).
      destruct (add_road_spec g0 r) as (R1 & R2 & R3 & R4).
      split_and!.
      + by rewrite E1, R1, <- app_assoc.
      + intros p. rewrite E2, R2. unfold neighbours_at.
        by rewrite map_app, concat_app, <- app_assoc.
      + intros Hg. apply E3, R3, Hg.
      + intros p e. rewrite E4, R4. split.
        * intros [[He|(i & Hi & ->)]|(road & i & Hr & Hi & ->)].
          -- by left.
          -- right. exists r, i. split; [apply list_elem_of_here|done].
          -- right. exists road, i.
             split; [by apply list_elem_of_further|done].
        * intros [He|(road & i & Hr & Hi & ->)]; [by left; left|].
          apply elem_of_cons in Hr as [->|Hr].
          -- left. right. by exists i.
          -- right. by exists road, i. }
  destruct (G roads (mkGraph ∅ [] ∅)) as (E1 & E2 & E3 & E4).
  cbn [all_edges graph point_to_roads] in *.
  split_and!.
  - exact E1.
  - intros p. rewrite E2, E1. unfold dd_get at 1. by rewrite lookup_empty.
  - apply E3. intros p l. by rewrite lookup_empty.
  - intros p e. rewrite E4. unfold dd_get at 1. rewrite lookup_empty.
    simpl. split; [intros [He|?]; [by apply elem_of_nil in He|done]|].
    intros ?. by right.
Qed.

End RoadGraph.

Section RoadGraphProperties.

Import ParseTraffic.

Context {F J : Type} `{Countable F} `{Inhabited F} `{Countable J}.
Context (round5 : F → F) (fsub : F → F → F) (hypot : F → F → F) (zero : J).

Local Abbreviation Road := (@Road F J).
Local Abbreviation Feature := (@Feature F J).
Local Abbreviation build := (build_graph round5 fsub hypot).
Local Abbreviation edges_of := (road_edges round5 fsub hypot).

Lemma two_ids_size (l : list J) :
  (1 < size (list_to_set l : gset J))%nat ↔
  ∃ a b, a ∈ l ∧ b ∈ l ∧ a ≠ b.
Proof.
  split.
  - intros Hs.
    destruct (set_choose_L (list_to_set l : gset J)) as [a Ha].
    { intros E. rewrite E, size_empty in Hs. lia. }
    destruct (set_choose_L ((list_to_set l : gset J) ∖ {[a]})) as [b Hb].
    { intros E. apply (f_equal size) in E.
      rewrite size_difference, size_singleton, size_empty in E.
      - lia.
      - by apply singleton_subseteq_l. }
    apply elem_of_difference in Hb as [Hb Hne].
    exists a, b. rewrite elem_of_list_to_set in Ha, Hb.
    split_and!; [done|done|].
    intros ->. apply Hne. by apply elem_of_singleton.
  - intros (a & b & Ha & Hb & Hne).
    assert (Hsub : ({[a]} ∪ {[b]} : gset J) ⊆ list_to_set l).
    { intros x. rewrite elem_of_union, !elem_of_singleton,
        elem_of_list_to_set. by intros [->| ->]. }
    apply subseteq_size in Hsub.
    rewrite size_union, !size_singleton in Hsub; [lia|].
    intros x. rewrite !elem_of_singleton. congruence.
Qed.

Lemma extract_fold (features : list Feature) (roads : list Road) :
  fold_left (extract_step zero) features roads
    = roads ++ omap (feature_road zero) features.
Proof.
  revert roads. induction features as [|f fs IH]; intros roads; simpl.
  - by rewrite app_nil_r.
  - rewrite IH. unfold extract_step, feature_road.
    destruct (decide (geometry_type f = "LineString")); [|done].
    destruct (properties f !! "road_id"); simpl; [|done].
    destruct (properties f !! "avg_speed_kmph"); simpl; [|done].
    destruct (properties f !! "congestion"); simpl; [|done].
    by rewrite <- app_assoc.
Qed.

Lemma omap_length_le {A B} (f : A → option B) (l : list A) :
  (length (omap f l) ≤ length l)%nat.
Proof.
  induction l as [|a l IH]; [done|].
  change (omap f (a :: l))
    with (match f a with Some y => y :: omap f l | None => omap f l end).
  destruct (f a); cbn [length]; lia.
Qed.

(** X19.  [build_graph] creates one edge per pair of consecutive
    coordinates of each road, in road order and in coordinate order, from
    the rounded first point to the rounded second one, with the road's
    attributes and the distance of the unrounded coordinates; a road with
    [n] coordinates contributes [n - 1] edges (none for 0 or 1). *)
Theorem build_graph_edges (roads : list Road) :
  all_edges (build roads) = concat (map edges_of roads) ∧
  length (all_edges (build roads))
    = sum_list (map (λ road, (length (geometry road) - 1)%nat) roads).
Proof.
  destruct (build_graph_spec round5 fsub hypot roads) as (E & _).
  split; [exact E|]. rewrite E. clear E.
  induction roads as [|r rs IH]; [done|].
  cbn [map concat sum_list sum_list_with]. rewrite length_app, IH. f_equal.
  unfold road_edges. rewrite length_map, length_zip_with.
  unfold Datatypes.id. destruct (geometry r); cbn [tail length]; lia.
Qed.

(** X20.  In the graph [build_graph] returns, the adjacency list of a
    point holds exactly one entry per edge starting there (naming the
    edge's end) and one per edge ending there (naming its start), each with
    the edge's data; hence [q] is listed at [p] with some data exactly when
    [p] is listed at [q] with that data, and no point is stored with an
    empty list. *)
Theorem build_graph_adjacency (roads : list Road) (p q : @Point F)
    (d : @EdgeData F J) (n : @Neighbour F J) :
  let g := build roads in
  (n ∈ dd_get (graph g) p ↔
   ∃ e, e ∈ all_edges g ∧
        ((e_start e = p ∧ n = mkNeighbour (e_end e) (e_data e)) ∨
         (e_end e = p ∧ n = mkNeighbour (e_start e) (e_data e)))) ∧
  (mkNeighbour q d ∈ dd_get (graph g) p
   ↔ mkNeighbour p d ∈ dd_get (graph g) q) ∧
  (∀ l, graph g !! p = Some l → l ≠ []).
Proof.
  cbv zeta.
  destruct (build_graph_spec round5 fsub hypot roads) as (_ & E & Hne & _).
  assert (M : ∀ p0 n0,
    n0 ∈ dd_get (graph (build roads)) p0 ↔
    ∃ e, e ∈ all_edges (build roads) ∧
         ((e_start e = p0 ∧ n0 = mkNeighbour (e_end e) (e_data e)) ∨
          (e_end e = p0 ∧ n0 = mkNeighbour (e_start e) (e_data e)))).
  { intros p0 n0. rewrite E. unfold neighbours_at.
    rewrite list_elem_of_In, in_concat. split.
    - intros (l & Hl & Hn). apply in_map_iff in Hl as (e & <- & He).
      exists e. split; [by apply list_elem_of_In|].
      unfold contribution in Hn. apply in_app_or in Hn as [Hn|Hn].
      + destruct (decide (e_start e = p0)); [|done].
        left. destruct Hn as [<-|[]]. done.
      + destruct (decide (e_end e = p0)); [|done].
        right. destruct Hn as [<-|[]]. done.
    - intros (e & He & Hcase).
      exists (contribution p0 e). split.
      + apply in_map_iff. exists e. split; [done|by apply list_elem_of_In].
      + unfold contribution. apply in_or_app.
        destruct Hcase as [[Hp ->]|[Hp ->]].
        * left. rewrite decide_True by done. by left.
        * right. rewrite decide_True by done. by left. }
  split_and!.
  - apply M.
  - rewrite !M. split.
    + intros (e & He & [[Hp Hn]|[Hp Hn]]); injection Hn as Hq Hd;
        exists e; (split; [done|]).
      * right. by subst.
      * left. by subst.
    + intros (e & He & [[Hp Hn]|[Hp Hn]]); injection Hn as Hq Hd;
        exists e; (split; [done|]).
      * right. by subst.
      * left. by subst.
  - intros l. apply Hne.
Qed.

(** X21.  After [build_graph], [detect_intersections(point_to_roads)]
    keeps a point (with its unchanged list of roads) exactly when two
    roads with different ids pass through it after rounding, or it is the
    rounded first or last coordinate of some road. *)
Theorem intersections_characterised (roads : list Road) (p : @Point F) :
  let ptr := point_to_roads (build roads) in
  (is_Some (detect_intersections ptr !! p) ↔
   (∃ r1 i1 r2 i2, r1 ∈ roads ∧ r2 ∈ roads ∧
      passes round5 r1 i1 p ∧ passes round5 r2 i2 p ∧ id r1 ≠ id r2)
   ∨ (∃ r i, r ∈ roads ∧ passes round5 r i p ∧ is_end r i)) ∧
  (∀ rs, detect_intersections ptr !! p = Some rs → ptr !! p = Some rs).
Proof.
  cbv zeta.
  destruct (build_graph_spec round5 fsub hypot roads) as (_ & _ & _ & E).
  set (ptr := point_to_roads (build roads)) in *.
  assert (Hkey : ∀ e, e ∈ dd_get ptr p → ptr !! p = Some (dd_get ptr p)).
  { intros e. unfold dd_get. destruct (ptr !! p); [done|].
    intros He. by apply elem_of_nil in He. }
  assert (Hend : ∀ (r : Road) (i : nat),
    (i = 0%nat ∨ Z.of_nat i = Py.len (geometry r) - 1) ↔ is_end r i).
  { intros r i. unfold is_end, Py.len. lia. }
  split.
  - unfold detect_intersections. split.
    + intros [rs Hrs]. apply map_lookup_filter_Some in Hrs as [Hl Hi].
      assert (Hd : dd_get ptr p = rs) by (unfold dd_get; by rewrite Hl).
      simpl in Hi. destruct Hi as [Hs|Hx].
      * left. apply two_ids_size in Hs as (a & b & Ha & Hb & Hne).
        apply list_elem_of_In, in_map_iff in Ha as (ea & <- & Ha).
        apply list_elem_of_In, in_map_iff in Hb as (eb & <- & Hb).
        apply list_elem_of_In in Ha, Hb. rewrite <- Hd in Ha, Hb.
        apply E in Ha as (r1 & i1 & Hr1 & Hp1 & ->).
        apply E in Hb as (r2 & i2 & Hr2 & Hp2 & ->).
        by exists r1, i1, r2, i2.
      * right. apply Exists_exists in Hx as (e & He & Hidx).
        rewrite <- Hd in He. apply E in He as (r & i & Hr & Hp & ->).
        exists r, i. split_and!; [done|done|]. by apply Hend.
    + intros [(r1 & i1 & r2 & i2 & Hr1 & Hr2 & Hp1 & Hp2 & Hne)
             |(r & i & Hr & Hp & He)].
      * assert (H1e : mkPointEntry (id r1) i1 r1 ∈ dd_get ptr p)
          by (apply E; by exists r1, i1).
        assert (H2e : mkPointEntry (id r2) i2 r2 ∈ dd_get ptr p)
          by (apply E; by exists r2, i2).
        exists (dd_get ptr p). apply map_lookup_filter_Some.
        split; [by apply (Hkey _ H1e)|]. left.
        apply two_ids_size. exists (id r1), (id r2).
        split_and!; [| |done].
        -- apply list_elem_of_In, in_map_iff.
           exists (mkPointEntry (id r1) i1 r1).
           split; [done|by apply list_elem_of_In].
        -- apply list_elem_of_In, in_map_iff.
           exists (mkPointEntry (id r2) i2 r2).
           split; [done|by apply list_elem_of_In].
      * assert (H1e : mkPointEntry (id r) i r ∈ dd_get ptr p)
          by (apply E; by exists r, i).
        exists (dd_get ptr p). apply map_lookup_filter_Some.
        split; [by apply (Hkey _ H1e)|]. right.
        apply Exists_exists. eexists. split; [exact H1e|].
        by apply Hend.
  - intros rs Hrs. unfold detect_intersections in Hrs.
    by apply map_lookup_filter_Some in Hrs as [Hl _].
Qed.


End RoadGraphProperties.

(** ** The loop of [working_yolo.py] *)

Section WorkingYoloRun.

Import WorkingYoloLoop.

(** One frame of [process_video]. *)
Lemma working_yolo_frame (l : Loop) (now : Q) (detection : option Z)
    (send : SendBehaviour) :
  ∃ s d b h,
    iteration l (Frame now detection send)
      = Some (mkLoop s now, Some (d, b)) ∧
    append_history (WorkingYolo.vehicle_counts (self l))
      (WorkingYolo.detect detection) = Some h ∧
    WorkingYolo.vehicle_counts s = h ∧
    WorkingYolo.frame_count s = WorkingYolo.frame_count (self l) + 1 ∧
    WorkingYolo.data_frame_count d = WorkingYolo.frame_count (self l) + 1 ∧
    WorkingYolo.vehicle_count d = WorkingYolo.detect detection ∧
    WorkingYolo.avg_vehicle_count d = arithmetic_mean h.
Proof.
  destruct (append_history (WorkingYolo.vehicle_counts (self l))
              (WorkingYolo.detect detection)) as [h|] eqn:Hh;
    [|by rewrite append_history_Some in Hh].
  pose proof (append_history_nonempty _ _ _ Hh) as Hne.
  unfold iteration, WorkingYolo.process_frame. simpl. rewrite Hh. simpl.
  destruct (WorkingYolo.signal_logic _ _ _) as [sg timer'].
  rewrite (avg_vehicles_nonempty h Hne). simpl.
  eexists _, _, _, h. split; [reflexivity|]. simpl. done.
Qed.

Lemma working_yolo_run (es : list Event) (l : Loop) (cs : list Z) :
  WorkingYolo.vehicle_counts (self l) = last_n 30 cs →
  ∃ l' ps,
    process_video l es = Some (l', ps) ∧
    WorkingYolo.vehicle_counts (self l') = last_n 30 (cs ++ fed es) ∧
    WorkingYolo.frame_count (self l')
      = WorkingYolo.frame_count (self l) + Py.len (fed es) ∧
    map (λ p, WorkingYolo.data_frame_count (fst p)) ps
      = map (λ k, WorkingYolo.frame_count (self l) + Z.of_nat k)
          (seq 1 (length (fed es))) ∧
    map (λ p, WorkingYolo.vehicle_count (fst p)) ps = fed es ∧
    map (λ p, WorkingYolo.avg_vehicle_count (fst p)) ps
      = map (λ k, arithmetic_mean (last_n 30 (cs ++ take k (fed es))))
          (seq 1 (length (fed es))).
Proof.
  revert l cs. induction es as [|e es IH]; intros l cs Hw.
  - exists l, []. simpl. rewrite app_nil_r. unfold Py.len. simpl.
    split_and!; try done. lia.
  - destruct e as [|now detection send|c|c].
    + destruct (IH l cs Hw) as (l' & ps & E & H1 & H2 & H3 & H4 & H5).
      exists l', ps. cbn [process_video iteration fed]. simpl. rewrite E.
      simpl. done.
    + destruct (working_yolo_frame l now detection send)
        as (s & d & b & h & Ei & Hh & Hs & Hf & Hd & Hv & Ha).
      rewrite Hw, append_history_last_n in Hh. injection Hh as <-.
      destruct (IH (mkLoop s now) (cs ++ [WorkingYolo.detect detection]))
        as (l' & ps & E & H1 & H2 & H3 & H4 & H5); [done|].
      exists l', ((d, b) :: ps).
      cbn [process_video fed]. rewrite Ei. simpl. rewrite E. simpl.
      cbn [self] in *. rewrite <- app_assoc in H1. simpl in H1.
      split_and!; [done|done| | | |].
      * rewrite H2, Hf. unfold Py.len. simpl length. lia.
      * rewrite Hd, H3, Hf. cbn [length seq map]. f_equal.
        rewrite <- (fmap_S_seq 1).
        change (map ?g (S <$> ?l0)) with (g <$> (S <$> l0)).
        rewrite <- list_fmap_compose. apply list_fmap_ext.
        intros i k _. simpl. lia.
      * by rewrite Hv, H4.
      * rewrite Ha, H5. cbn [length seq map]. f_equal.
        rewrite <- (fmap_S_seq 1).
        change (map ?g (S <$> ?l0)) with (g <$> (S <$> l0)).
        rewrite <- list_fmap_compose. apply list_fmap_ext.
        intros i k _. simpl. by rewrite <- app_assoc.
    + destruct (IH (mkLoop
                      (with_clients (self l)
                         ({[c]} ∪ WorkingYolo.websocket_clients (self l)))
                      (last_time l)) cs Hw)
        as (l' & ps & E & H1 & H2 & H3 & H4 & H5).
      exists l', ps. cbn [process_video iteration fed]. simpl. rewrite E.
      simpl. done.
    + destruct (IH (mkLoop
                      (with_clients (self l)
                         (WorkingYolo.websocket_clients (self l) ∖ {[c]}))
                      (last_time l)) cs Hw)
        as (l' & ps & E & H1 & H2 & H3 & H4 & H5).
      exists l', ps. cbn [process_video iteration fed]. simpl. rewrite E.
      simpl. done.
Qed.

End WorkingYoloRun.

Section WorkingYoloLive.

Import WorkingYoloLoop.

(** One frame of [process_video], whatever the handlers do during the
    sends: the attributes and the dictionary do not depend on the
    broadcast. *)
Lemma working_yolo_frame_live (l : Loop) (now : Q) (detection : option Z)
    (send : SendBehaviour) (interference : Interference) :
  ∃ s d b,
    WorkingYolo.process_frame_live (self l) (last_time l) now detection send
      interference = Some (s, now, d, b) ∧
    WorkingYolo.frame_count s = WorkingYolo.frame_count (self l) + 1 ∧
    WorkingYolo.data_frame_count d = WorkingYolo.frame_count (self l) + 1 ∧
    b = WorkingYolo.broadcast_data_live
          (WorkingYolo.websocket_clients (self l)) send interference.
Proof.
  destruct (append_history (WorkingYolo.vehicle_counts (self l))
              (WorkingYolo.detect detection)) as [h|] eqn:Hh;
    [|by rewrite append_history_Some in Hh].
  pose proof (append_history_nonempty _ _ _ Hh) as Hne.
  unfold WorkingYolo.process_frame_live. simpl. rewrite Hh. simpl.
  destruct (WorkingYolo.signal_logic _ _ _) as [sg timer'].
  rewrite (avg_vehicles_nonempty h Hne). simpl.
  eexists _, _, _. split; [reflexivity|]. simpl. done.
Qed.

(** While no handler runs during the sends the frame is the one of
    [process_frame], and its broadcast does not raise. *)
Lemma process_frame_live_quiet (s : WorkingYolo.State) (last_time now : Q)
    (detection : option Z) (send : SendBehaviour) :
  WorkingYolo.process_frame_live s last_time now detection send quiet
    = WorkingYolo.process_frame s last_time now detection send ∧
  raised (WorkingYolo.broadcast_data (WorkingYolo.websocket_clients s) send)
    = None.
Proof.
  split.
  - unfold WorkingYolo.process_frame_live, WorkingYolo.process_frame,
      WorkingYolo.broadcast_data_live, WorkingYolo.broadcast_data.
    by rewrite broadcast_live_quiet.
  - unfold WorkingYolo.broadcast_data.
    destruct (decide (_ = ∅)); [done|].
    destruct (send_loop_catch_all send
                (elements (WorkingYolo.websocket_clients s))
                (mkSendLoop ∅ [] None) eq_refl) as (-> & _). done.
Qed.

Lemma run_frames (es : list LiveEvent) (l : Loop) :
  ∃ r k,
    run l es = Some r ∧
    (k ≤ length es)%nat ∧
    (stopped r = None → k = length es) ∧
    length (built r) = length (fed (take k es).*1) ∧
    map (λ p, WorkingYolo.data_frame_count (fst p)) (built r)
      = map (λ i, WorkingYolo.frame_count (self l) + Z.of_nat i)
          (seq 1 (length (built r))) ∧
    WorkingYolo.frame_count (self (final r))
      = WorkingYolo.frame_count (self l) + Z.of_nat (length (built r)).
Proof.
  revert l. induction es as [|[e i] es IH]; intros l.
  - exists (mkRun l [] None), 0%nat. simpl. split_and!; try done. lia.
  - destruct e as [|now detection send|c|c].
    + destruct (IH l) as (r & k & E & Hk & Hs & Hb & Hm & Hf).
      exists r, (S k). cbn [run iteration]. simpl.
      split_and!; try done; [lia|]. intros H. by rewrite (Hs H).
    + destruct (working_yolo_frame_live l now detection send i)
        as (s & d & b & Ep & Hfc & Hd & _).
      cbn [run]. rewrite Ep. simpl.
      destruct (raised b) as [e|] eqn:Hr.
      * exists (mkRun (mkLoop s (last_time l)) [(d, b)] (Some e)), 1%nat.
        simpl.
        split_and!; try done; [lia|by rewrite Hd].
      * destruct (IH (mkLoop s now)) as (r & k & E & Hk & Hs & Hb & Hm & Hf).
        rewrite E. simpl.
        exists (mkRun (final r) ((d, b) :: built r) (stopped r)), (S k).
        cbn [self] in *. simpl.
        split_and!.
        -- done.
        -- lia.
        -- intros H. by rewrite (Hs H).
        -- by rewrite Hb.
        -- rewrite Hd, Hm, Hfc. f_equal.
           rewrite <- (fmap_S_seq 1).
           change (map ?g (S <$> ?l0)) with (g <$> (S <$> l0)).
           rewrite <- list_fmap_compose. apply list_fmap_ext.
           intros j x _. simpl. lia.
        -- rewrite Hf, Hfc. lia.
    + destruct (IH (mkLoop
                      (with_clients (self l)
                         ({[c]} ∪ WorkingYolo.websocket_clients (self l)))
                      (last_time l)))
        as (r & k & E & Hk & Hs & Hb & Hm & Hf).
      exists r, (S k). cbn [run iteration]. simpl.
      split_and!; try done; [lia|]. intros H. by rewrite (Hs H).
    + destruct (IH (mkLoop
                      (with_clients (self l)
                         (WorkingYolo.websocket_clients (self l) ∖ {[c]}))
                      (last_time l)))
        as (r & k & E & Hk & Hs & Hb & Hm & Hf).
      exists r, (S k). cbn [run iteration]. simpl.
      split_and!; try done; [lia|]. intros H. by rewrite (Hs H).
Qed.

(** A run during whose sends no handler runs is the run of
    [process_video]. *)
Lemma run_quiet (es : list Event) (l : Loop) :
  run l (map (λ e, (e, quiet)) es)
    = '(l', ps) ← process_video l es; Some (mkRun l' ps None).
Proof.
  revert l. induction es as [|e es IH]; intros l; [done|].
  destruct e as [|now detection send|c|c];
    try (cbn [map run process_video iteration]; simpl; rewrite IH;
         by destruct (process_video _ es) as [[l' ps]|]).
  cbn [map run process_video iteration].
  destruct (process_frame_live_quiet (self l) (last_time l) now detection
              send) as [-> Hr].
  destruct (WorkingYolo.process_frame (self l) (last_time l) now detection
              send) as [[[[s t] d] b]|] eqn:Ep; [|done].
  simpl.
  assert (Hb : raised b = None).
  { unfold WorkingYolo.process_frame in Ep.
    destruct (append_history _ _); [|done]. simpl in Ep.
    destruct (WorkingYolo.signal_logic _ _ _).
    destruct (avg_vehicles _); [|done]. simpl in Ep.
    injection Ep as _ _ _ <-. exact Hr. }
  rewrite Hb, IH. by destruct (process_video _ es) as [[l' ps]|].
Qed.

End WorkingYoloLive.

(** X23.  Run the [while] loop of [WorkingYoloDetector.process_video] from
    the initial attributes over any sequence of frames, ends of video,
    connects and disconnects, whatever the sends do and whether or not a
    handler changes the client set during a send.  The loop may end early,
    with the [RuntimeError] of the loop over the changed set; up to where
    it ends, one dictionary is built per frame read, and their
    [frame_count] values are 1, 2, 3, ... without gap or repetition, the
    last one being the counter the loop leaves: the counter is not reset
    when the video starts over. *)
Theorem working_yolo_frame_count_is_gapless
    (es : list WorkingYoloLoop.LiveEvent) (t0 : Q) :
  ∃ r k,
    WorkingYoloLoop.run (WorkingYoloLoop.mkLoop WorkingYolo.init t0) es
      = Some r ∧
    (k ≤ length es)%nat ∧
    (WorkingYoloLoop.stopped r = None → k = length es) ∧
    length (WorkingYoloLoop.built r)
      = length (WorkingYoloLoop.fed (take k es).*1) ∧
    map (λ p, WorkingYolo.data_frame_count (fst p)) (WorkingYoloLoop.built r)
      = map Z.of_nat (seq 1 (length (WorkingYoloLoop.built r))) ∧
    StronglySorted Z.lt
      (map (λ p, WorkingYolo.data_frame_count (fst p))
         (WorkingYoloLoop.built r)) ∧
    WorkingYolo.frame_count (WorkingYoloLoop.self (WorkingYoloLoop.final r))
      = Z.of_nat (length (WorkingYoloLoop.built r)).
Proof.
  destruct (run_frames es (WorkingYoloLoop.mkLoop WorkingYolo.init t0))
    as (r & k & E & Hk & Hs & Hb & Hm & Hf).
  exists r, k.
  assert (Hm' : map (λ p, WorkingYolo.data_frame_count (fst p))
                  (WorkingYoloLoop.built r)
                = map Z.of_nat (seq 1 (length (WorkingYoloLoop.built r)))).
  { rewrite Hm. apply map_ext. intros j. simpl. lia. }
  split_and!; try done.
  rewrite Hm'.
  generalize (length (WorkingYoloLoop.built r)) as n. generalize 1%nat as a.
  intros a n. revert a. induction n as [|n IH]; intros a; simpl.
  - constructor.
  - constructor; [apply IH|].
    apply Forall_forall. intros x Hx%list_elem_of_In%in_map_iff.
    destruct Hx as (j & <- & Hj%in_seq). lia.
Qed.

(** A client connects during the broadcast of the second frame: the loop
    ends there with [RuntimeError], after the dictionaries numbered 1 and
    2, the second one built after the video had started over. *)
Lemma handler_during_send_stops_the_loop :
  (λ r, (WorkingYoloLoop.stopped r,
         map (λ p, WorkingYolo.data_frame_count (fst p))
           (WorkingYoloLoop.built r)))
    <$> WorkingYoloLoop.run (WorkingYoloLoop.mkLoop WorkingYolo.init 0)
          [(WorkingYoloLoop.Connect 1, quiet);
           (WorkingYoloLoop.Frame 1 (Some 3) (λ _, None), quiet);
           (WorkingYoloLoop.EndOfStream, quiet);
           (WorkingYoloLoop.Frame 2 (Some 3) (λ _, None),
            λ _, Some (Joins 2));
           (WorkingYoloLoop.Frame 3 (Some 3) (λ _, None), quiet)]
    = Some (Some RuntimeError, [1; 2]).
Proof. vm_compute. reflexivity. Qed.

